(** * Image Border Cropper: border normalisation, fingerprinting and the
      clipboard monitor loop

    A shallow embedding of [image_border_cropper.pyw].  The script drives the
    Pillow imaging library; the Pillow operations it calls ([convert],
    [getpixel], [Image.new], [ImageChops.difference], [point], [getbbox],
    [crop], [paste], [tobytes]) are modelled here by their documented
    per-pixel behaviour on images of mode "RGB", "RGBA" and "L", with
    8-bit channels kept as [Z] in [0, 255]. *)

From Stdlib Require Import String Ascii Bool Arith ZArith Lia List.
From Stdlib Require Import Permutation Sorted.
Import ListNotations.

Local Open Scope Z_scope.

(** ** Rasters: rows of cells, built and read by coordinate *)

Module Raster.

(** The [w] x [h] raster whose cell at column [x], row [y] is [f x y]. *)
Definition build {A : Type} (w h : nat) (f : nat -> nat -> A) : list (list A) :=
  map (fun y => map (fun x => f x y) (seq 0 w)) (seq 0 h).

(** The cell at column [x] of row [y], [d] outside the raster. *)
Definition cell {A : Type} (d : A) (rs : list (list A)) (x y : nat) : A :=
  nth x (nth y rs []) d.

(** [rs] has exactly [h] rows of [w] cells each. *)
Definition shaped {A : Type} (w h : nat) (rs : list (list A)) : Prop :=
  length rs = h /\ Forall (fun r => length r = w) rs.

End Raster.

(** ** Python results: a value, or a raised exception *)

Inductive PyExn : Type :=
| IndexError       (* getpixel outside the image *)
| EncodeError      (* convert / save to BMP failed *)
| ClipboardError.  (* a clipboard call failed *)

Inductive result (A : Type) : Type :=
| Returns (a : A)
| Raises (e : PyExn).
Arguments Returns {A} a.
Arguments Raises {A} e.

(** ** Images *)

(** One pixel: red, green, blue, alpha. *)
Definition Pixel : Type := (Z * Z * Z * Z)%type.

Definition zero_pixel : Pixel := (0, 0, 0, 0).

Inductive Mode : Type := RGB | RGBA.

(** A colour image.  Mode "RGB" images carry the alpha slot too (Pillow stores
    them in 32-bit pixels); it is 255 in every image [convert] produces. *)
Record Image : Type := mkImage {
  mode : Mode;
  width : nat;
  height : nat;
  rows : list (list Pixel)
}.

(** A single-band (mode "L") image. *)
Record LImage : Type := mkLImage {
  lwidth : nat;
  lheight : nat;
  lrows : list (list Z)
}.

Definition pixel (im : Image) (x y : nat) : Pixel :=
  Raster.cell zero_pixel (rows im) x y.

Definition lpixel (im : LImage) (x y : nat) : Z :=
  Raster.cell 0 (lrows im) x y.

Definition channel_ok (c : Z) : Prop := 0 <= c <= 255.

Definition pixel_ok (p : Pixel) : Prop :=
  let '(r, g, b, a) := p in
  channel_ok r /\ channel_ok g /\ channel_ok b /\ channel_ok a.

(** Every pixel fully opaque. *)
Definition opaque (im : Image) : Prop :=
  Forall (Forall (fun p : Pixel => snd p = 255)) (rows im).

(** Well-formed image: the rows match the size, every channel is a byte, and
    the unused alpha slot of an "RGB" image is 255. *)
Definition image_ok (im : Image) : Prop :=
  Raster.shaped (width im) (height im) (rows im) /\
  Forall (Forall pixel_ok) (rows im) /\
  (mode im = RGB -> opaque im).

Definition in_image (im : Image) (x y : nat) : bool :=
  ((x <? width im)%nat && (y <? height im)%nat)%bool.

(** ** The Pillow operations the script calls *)

Definition set_alpha (a : Z) (p : Pixel) : Pixel :=
  let '(r, g, b, _) := p in (r, g, b, a).

(** [Image.new(mode, (w, h), color)] *)
Definition Image_new (m : Mode) (w h : nat) (color : Pixel) : Image :=
  mkImage m w h (Raster.build w h (fun _ _ => color)).

(** [img.convert("RGBA")]: an "RGB" image gains alpha 255, an "RGBA" image is
    copied. *)
Definition convert_RGBA (im : Image) : Image :=
  match mode im with
  | RGBA => im
  | RGB => mkImage RGBA (width im) (height im)
             (Raster.build (width im) (height im)
                (fun x y => set_alpha 255 (pixel im x y)))
  end.

(** [img.convert("RGB")]: the alpha band is dropped (the slot is set to 255);
    an "RGB" image is copied. *)
Definition convert_RGB (im : Image) : Image :=
  match mode im with
  | RGB => im
  | RGBA => mkImage RGB (width im) (height im)
              (Raster.build (width im) (height im)
                 (fun x y => set_alpha 255 (pixel im x y)))
  end.

(** [img.getpixel((x, y))]: IndexError outside the image. *)
Definition getpixel (im : Image) (x y : nat) : result Pixel :=
  if in_image im x y then Returns (pixel im x y) else Raises IndexError.

(** [ImageChops.difference(a, b)]: per-band absolute difference, all four
    bands, on the common area. *)
Definition abs_diff (p q : Pixel) : Pixel :=
  let '(r1, g1, b1, a1) := p in
  let '(r2, g2, b2, a2) := q in
  (Z.abs (r1 - r2), Z.abs (g1 - g2), Z.abs (b1 - b2), Z.abs (a1 - a2)).

Definition difference (a b : Image) : Image :=
  let w := Nat.min (width a) (width b) in
  let h := Nat.min (height a) (height b) in
  mkImage (mode a) w h
    (Raster.build w h (fun x y => abs_diff (pixel a x y) (pixel b x y))).

(** Pillow's ITU-R 601-2 luma of a colour pixel, in 16-bit fixed point with
    rounding; the alpha band takes no part. *)
Definition luma (p : Pixel) : Z :=
  let '(r, g, b, _) := p in
  Z.shiftr (r * 19595 + g * 38470 + b * 7471 + 32768) 16.

(** [img.convert("L")] *)
Definition convert_L (im : Image) : LImage :=
  mkLImage (width im) (height im)
    (Raster.build (width im) (height im) (fun x y => luma (pixel im x y))).

(** [img.point(lut)] on a mode "L" image: table lookup per pixel. *)
Definition point (im : LImage) (lut : list Z) : LImage :=
  mkLImage (lwidth im) (lheight im)
    (Raster.build (lwidth im) (lheight im)
       (fun x y => nth (Z.to_nat (lpixel im x y)) lut 0)).

(** Least and greatest index below [n] at which [f] holds. *)
Fixpoint first_index (f : nat -> bool) (n : nat) : option nat :=
  match n with
  | O => None
  | S k => match first_index f k with
           | Some i => Some i
           | None => if f k then Some k else None
           end
  end.

Fixpoint last_index (f : nat -> bool) (n : nat) : option nat :=
  match n with
  | O => None
  | S k => if f k then Some k else last_index f k
  end.

Definition any_below (f : nat -> bool) (n : nat) : bool :=
  existsb f (seq 0 n).

Definition nonzero (im : LImage) (x y : nat) : bool :=
  negb (lpixel im x y =? 0).

Definition column_has_data (im : LImage) (x : nat) : bool :=
  any_below (fun y => nonzero im x y) (lheight im).

Definition row_has_data (im : LImage) (y : nat) : bool :=
  any_below (fun x => nonzero im x y) (lwidth im).

Definition Box : Type := (nat * nat * nat * nat)%type.

(** [img.getbbox()]: the bounding box (left, upper, right, lower) of the
    non-zero pixels, right and lower exclusive; [None] when every pixel is
    zero. *)
Definition getbbox (im : LImage) : option Box :=
  match first_index (column_has_data im) (lwidth im),
        first_index (row_has_data im) (lheight im),
        last_index (column_has_data im) (lwidth im),
        last_index (row_has_data im) (lheight im) with
  | Some x0, Some y0, Some x1, Some y1 =>
      Some (x0, y0, S x1, S y1)
  | _, _, _, _ => None
  end.

(** A box is tight on a mode "L" image: it lies inside the image, its four
    edges carry non-zero pixels and no non-zero pixel lies outside it. *)
Definition tight_box (m : LImage) (box : Box) : Prop :=
  let '(x0, y0, x1, y1) := box in
  (x0 < x1)%nat /\ (x1 <= lwidth m)%nat /\
  (y0 < y1)%nat /\ (y1 <= lheight m)%nat /\
  column_has_data m x0 = true /\ column_has_data m (x1 - 1) = true /\
  row_has_data m y0 = true /\ row_has_data m (y1 - 1) = true /\
  (forall x y, (x < lwidth m)%nat -> (y < lheight m)%nat ->
               nonzero m x y = true ->
               (x0 <= x < x1)%nat /\ (y0 <= y < y1)%nat).

(** [img.crop((left, upper, right, lower))]; the area outside the image is
    zero. *)
Definition crop (im : Image) (box : Box) : Image :=
  let '(x0, y0, x1, y1) := box in
  let w := (x1 - x0)%nat in
  let h := (y1 - y0)%nat in
  mkImage (mode im) w h
    (Raster.build w h (fun x y => pixel im (x + x0) (y + y0))).

(** Pillow's rounding division by 255 and the blend of [paste]. *)
Definition div255 (a : Z) : Z :=
  let tmp := a + 128 in
  Z.shiftr (Z.shiftr tmp 8 + tmp) 8.

Definition blend (m out inp : Z) : Z :=
  div255 (out * (255 - m) + inp * m).

Definition blend_pixel (m : Z) (out inp : Pixel) : Pixel :=
  let '(r1, g1, b1, a1) := out in
  let '(r2, g2, b2, a2) := inp in
  (blend m r1 r2, blend m g1 g2, blend m b1 b2, blend m a1 a2).

(** [canvas.paste(src, (ox, oy), mask)] with an "RGBA" mask: every band of the
    canvas is blended with the source through the mask's alpha band. *)
Definition paste (canvas src : Image) (ox oy : nat) (mask : Image) : Image :=
  mkImage (mode canvas) (width canvas) (height canvas)
    (Raster.build (width canvas) (height canvas)
       (fun x y =>
          if ((ox <=? x)%nat && (x <? ox + width src)%nat &&
              (oy <=? y)%nat && (y <? oy + height src)%nat)%bool
          then blend_pixel (snd (pixel mask (x - ox) (y - oy)))
                           (pixel canvas x y)
                           (pixel src (x - ox) (y - oy))
          else pixel canvas x y)).

(** [img.tobytes()]: the bands of every pixel, row by row. *)
Definition pixel_bytes (m : Mode) (p : Pixel) : list Z :=
  let '(r, g, b, a) := p in
  match m with
  | RGB => [r; g; b]
  | RGBA => [r; g; b; a]
  end.

Definition tobytes (im : Image) : list Z :=
  flat_map (flat_map (pixel_bytes (mode im))) (rows im).

(** ** Border normalisation ([trim_and_expand_border_to_content]) *)

(** [[255 if i > tolerance else 0 for i in range(256)]] *)
Definition make_lut (tolerance : Z) : list Z :=
  map (fun i => if Z.of_nat i >? tolerance then 255 else 0) (seq 0 256).

(** The foreground mask of an "RGBA" image against the colour [bg_color]:
    the difference from a uniform image of that colour, reduced to "L" and
    thresholded through the look-up table. *)
Definition content_mask (img : Image) (bg_color : Pixel) (tolerance : Z)
  : LImage :=
  let bg := Image_new RGBA (width img) (height img) bg_color in
  let diff := difference img bg in
  let diff := convert_L diff in
  let lut := make_lut tolerance in
  point diff lut.

(** The padding comes from the configuration as a count of pixels and is a
    natural number here. *)
Definition trim_and_expand_border_to_content
  (img : Image) (padding : nat) (tolerance : Z) : result Image :=
  let img := convert_RGBA img in
  match getpixel img 0 0 with
  | Raises e => Raises e
  | Returns bg_color =>
      let mask := content_mask img bg_color tolerance in
      match getbbox mask with
      | None => Returns img
      | Some bbox =>
          let object_only := crop img bbox in
          let obj_w := width object_only in
          let obj_h := height object_only in
          let new_width := (obj_w + padding * 2)%nat in
          let new_height := (obj_h + padding * 2)%nat in
          let standardized_img := Image_new RGBA new_width new_height bg_color in
          let standardized_img :=
            paste standardized_img object_only padding padding object_only in
          Returns (convert_RGB standardized_img)
      end
  end.

(** The content-box part of the function: the reference colour sampled at
    (0, 0) and the bounding box of the mask against it. *)
Definition find_content_box (img : Image) (tolerance : Z) : result (option Box) :=
  let img := convert_RGBA img in
  match getpixel img 0 0 with
  | Raises e => Raises e
  | Returns bg_color =>
      Returns (getbbox (content_mask img bg_color tolerance))
  end.

(** ** Notions the properties are stated with *)

(** The image the function builds around the content box [box] of an "RGBA"
    image: the boxed pixels blended over the background colour through their
    own alpha, framed by [padding] background pixels, alpha dropped. *)
Definition framed (img : Image) (bg_color : Pixel) (box : Box) (padding : nat)
  : Image :=
  let '(x0, y0, x1, y1) := box in
  let w := (x1 - x0 + padding * 2)%nat in
  let h := (y1 - y0 + padding * 2)%nat in
  mkImage RGB w h
    (Raster.build w h
       (fun x y =>
          if ((padding <=? x)%nat && (x <? padding + (x1 - x0))%nat &&
              (padding <=? y)%nat && (y <? padding + (y1 - y0))%nat)%bool
          then let q := pixel img (x - padding + x0) (y - padding + y0) in
               set_alpha 255 (blend_pixel (snd q) bg_color q)
          else set_alpha 255 bg_color)).

(** The colour bands of a pixel, and images that agree on them everywhere
    (whatever their alpha bands and modes). *)
Definition colour (p : Pixel) : Z * Z * Z :=
  let '(r, g, b, _) := p in (r, g, b).

Definition same_colours (a b : Image) : Prop :=
  width a = width b /\ height a = height b /\
  forall x y, (x < width a)%nat -> (y < height a)%nat ->
              colour (pixel a x y) = colour (pixel b x y).

(** Every colour band of [p] is within [t] of that of [q]. *)
Definition bands_within (t : Z) (p q : Pixel) : Prop :=
  let '(r1, g1, b1, _) := p in
  let '(r2, g2, b2, _) := q in
  Z.abs (r1 - r2) <= t /\ Z.abs (g1 - g2) <= t /\ Z.abs (b1 - b2) <= t.

(** Column [x], row [y] lies in the [w] x [h] rectangle whose corner is
    (x0, y0). *)
Definition in_rect (x0 y0 w h x y : nat) : bool :=
  ((x0 <=? x)%nat && (x <? x0 + w)%nat &&
   (y0 <=? y)%nat && (y <? y0 + h)%nat)%bool.

(** Decidable forms of the well-formedness conditions, for concrete images. *)
Definition channel_okb (c : Z) : bool := ((0 <=? c) && (c <=? 255))%bool.

Definition pixel_okb (p : Pixel) : bool :=
  let '(r, g, b, a) := p in
  (channel_okb r && channel_okb g && channel_okb b && channel_okb a)%bool.

Definition opaqueb (im : Image) : bool :=
  forallb (forallb (fun p : Pixel => snd p =? 255)) (rows im).

Definition image_okb (im : Image) : bool :=
  ((length (rows im) =? height im)%nat &&
   forallb (fun r => (length r =? width im)%nat) (rows im) &&
   forallb (forallb pixel_okb) (rows im) &&
   match mode im with
   | RGB => opaqueb im
   | RGBA => true
   end)%bool.

(** [P] holds at every coordinate of a [w] x [h] raster. *)
Definition all_coords (w h : nat) (P : nat -> nat -> bool) : bool :=
  forallb (fun y => forallb (fun x => P x y) (seq 0 w)) (seq 0 h).

Definition colour_eqb (c d : Z * Z * Z) : bool :=
  let '(r1, g1, b1) := c in
  let '(r2, g2, b2) := d in
  ((r1 =? r2) && (g1 =? g2) && (b1 =? b2))%bool.

Definition same_coloursb (a b : Image) : bool :=
  ((width a =? width b)%nat && (height a =? height b)%nat &&
   all_coords (width a) (height a)
     (fun x y => colour_eqb (colour (pixel a x y)) (colour (pixel b x y))))%bool.

(** The [w] x [h] window of [img] at (x0, y0), framed by [padding] pixels of
    the colour [bg], as an "RGB" image. *)
Definition frame_window (img : Image) (bg : Pixel) (x0 y0 w h padding : nat)
  : Image :=
  mkImage RGB (w + padding * 2) (h + padding * 2)
    (Raster.build (w + padding * 2) (h + padding * 2)
       (fun x y =>
          if in_rect padding padding w h x y
          then pixel img (x - padding + x0) (y - padding + y0)
          else bg)).

(** [img] shows a [W] x [H] rectangle of foreground, centred at margin [M],
    and the tolerance separates it from the background: the pixels of the
    rectangle differ from the colour sampled at (0, 0) by more than the
    tolerance, the pixels of the margin by no more than the tolerance. *)
Definition centred_rectangle (img : Image) (W H M : nat) (tolerance : Z)
  : Prop :=
  width img = (W + 2 * M)%nat /\ height img = (H + 2 * M)%nat /\
  forall x y, (x < width img)%nat -> (y < height img)%nat ->
    if in_rect M M W H x y
    then luma (abs_diff (pixel img x y) (pixel img 0 0)) > tolerance
    else luma (abs_diff (pixel img x y) (pixel img 0 0)) <= tolerance.

Definition centred_rectangleb (img : Image) (W H M : nat) (tolerance : Z)
  : bool :=
  ((width img =? W + 2 * M)%nat && (height img =? H + 2 * M)%nat &&
   all_coords (width img) (height img)
     (fun x y =>
        if in_rect M M W H x y
        then luma (abs_diff (pixel img x y) (pixel img 0 0)) >? tolerance
        else luma (abs_diff (pixel img x y) (pixel img 0 0)) <=? tolerance))%bool.

(** The classification the mask encodes: the luma of the difference from the
    background colour exceeds the tolerance. *)
Definition is_foreground (bg_color : Pixel) (tolerance : Z) (p : Pixel) : bool :=
  luma (abs_diff p bg_color) >? tolerance.

(** ** MD5 (RFC 1321), as [hashlib.md5(...).hexdigest()] computes it *)

Module MD5.

Definition wrap32 (x : Z) : Z := x mod 2 ^ 32.

Definition rotl (x c : Z) : Z :=
  wrap32 (Z.lor (Z.shiftl x c) (Z.shiftr x (32 - c))).

Definition not32 (x : Z) : Z := Z.lxor x (2 ^ 32 - 1).

Definition shifts : list Z :=
  [7; 12; 17; 22; 7; 12; 17; 22; 7; 12; 17; 22; 7; 12; 17; 22;
   5; 9; 14; 20; 5; 9; 14; 20; 5; 9; 14; 20; 5; 9; 14; 20;
   4; 11; 16; 23; 4; 11; 16; 23; 4; 11; 16; 23; 4; 11; 16; 23;
   6; 10; 15; 21; 6; 10; 15; 21; 6; 10; 15; 21; 6; 10; 15; 21].

Definition sines : list Z :=
  [3614090360; 3905402710; 606105819; 3250441966;
   4118548399; 1200080426; 2821735955; 4249261313;
   1770035416; 2336552879; 4294925233; 2304563134;
   1804603682; 4254626195; 2792965006; 1236535329;
   4129170786; 3225465664; 643717713; 3921069994;
   3593408605; 38016083; 3634488961; 3889429448;
   568446438; 3275163606; 4107603335; 1163531501;
   2850285829; 4243563512; 1735328473; 2368359562;
   4294588738; 2272392833; 1839030562; 4259657740;
   2763975236; 1272893353; 4139469664; 3200236656;
   681279174; 3936430074; 3572445317; 76029189;
   3654602809; 3873151461; 530742520; 3299628645;
   4096336452; 1126891415; 2878612391; 4237533241;
   1700485571; 2399980690; 4293915773; 2240044497;
   1873313359; 4264355552; 2734768916; 1309151649;
   4149444226; 3174756917; 718787259; 3951481745].

(** The [k] low bytes of [v], least significant first. *)
Fixpoint le_bytes (k : nat) (v : Z) : list Z :=
  match k with
  | O => []
  | S k' => v mod 256 :: le_bytes k' (v / 256)
  end.

Fixpoint le_word (bs : list Z) : Z :=
  match bs with
  | [] => 0
  | b :: rest => b + 256 * le_word rest
  end.

(** Cut a list into [count] pieces of [size] elements. *)
Fixpoint chunks {A : Type} (size count : nat) (l : list A) : list (list A) :=
  match count with
  | O => []
  | S c => firstn size l :: chunks size c (skipn size l)
  end.

Definition pad (msg : list Z) : list Z :=
  let n := Z.of_nat (length msg) in
  msg ++ [128] ++ repeat 0 (Z.to_nat ((55 - n) mod 64)) ++ le_bytes 8 (8 * n).

Definition Regs : Type := (Z * Z * Z * Z)%type.

Definition step (m : list Z) (st : Regs) (i : nat) : Regs :=
  let '(a, b, c, d) := st in
  let zi := Z.of_nat i in
  let '(f, g) :=
    match (i / 16)%nat with
    | 0%nat => (Z.lor (Z.land b c) (Z.land (not32 b) d), zi)
    | 1%nat => (Z.lor (Z.land d b) (Z.land (not32 d) c), (5 * zi + 1) mod 16)
    | 2%nat => (Z.lxor (Z.lxor b c) d, (3 * zi + 5) mod 16)
    | _ => (Z.lxor c (Z.lor b (not32 d)), (7 * zi) mod 16)
    end in
  let f' := wrap32 (f + a + nth i sines 0 + nth (Z.to_nat g) m 0) in
  (d, wrap32 (b + rotl f' (nth i shifts 0)), b, c).

Definition block (st : Regs) (bytes : list Z) : Regs :=
  let m := map le_word (chunks 4 16 bytes) in
  let '(a, b, c, d) := fold_left (step m) (seq 0 64) st in
  let '(a0, b0, c0, d0) := st in
  (wrap32 (a0 + a), wrap32 (b0 + b), wrap32 (c0 + c), wrap32 (d0 + d)).

Definition digest (msg : list Z) : list Z :=
  let padded := pad msg in
  let blocks := chunks 64 (length padded / 64) padded in
  let '(a, b, c, d) :=
    fold_left block blocks (1732584193, 4023233417, 2562383102, 271733878) in
  le_bytes 4 a ++ le_bytes 4 b ++ le_bytes 4 c ++ le_bytes 4 d.

Definition hex_digit (n : Z) : ascii :=
  nth (Z.to_nat n)
    ["0"; "1"; "2"; "3"; "4"; "5"; "6"; "7";
     "8"; "9"; "a"; "b"; "c"; "d"; "e"; "f"]%char "0"%char.

Fixpoint hex (bytes : list Z) : string :=
  match bytes with
  | [] => EmptyString
  | b :: rest => String (hex_digit (b / 16)) (String (hex_digit (b mod 16)) (hex rest))
  end.

Definition hexdigest (msg : list Z) : string := hex (digest msg).

End MD5.

(** [get_image_hash]: "a stable hash based on pixel data only". *)
Definition get_image_hash (img : Image) : string :=
  MD5.hexdigest (tobytes (convert_RGB img)).

Definition bytes_of_string (s : string) : list Z :=
  map (fun c => Z.of_nat (nat_of_ascii c)) (list_ascii_of_string s).

(** ** Sample images *)

Definition white : Pixel := (255, 255, 255, 255).
Definition black : Pixel := (0, 0, 0, 255).
Definition red : Pixel := (255, 0, 0, 255).
Definition blue : Pixel := (0, 0, 255, 255).

(** A white, a red and a blue pixel in a row. *)
Definition strip : Image := mkImage RGB 3 1 [[white; red; blue]].

(** A white pixel, a fully transparent black one and an opaque black one. *)
Definition ghost_strip : Image :=
  mkImage RGBA 3 1 [[white; (0, 0, 0, 0); black]].

(** The colours of [ghost_strip], all opaque. *)
Definition solid_strip : Image := mkImage RGB 3 1 [[white; black; black]].

(** A uniform white image, as "RGB" and as "RGBA". *)
Definition blank : Image := mkImage RGB 2 2 [[white; white]; [white; white]].
Definition blank_rgba : Image := mkImage RGBA 2 2 [[white; white]; [white; white]].

(** A near-white image: every pixel within tolerance 30 of the corner, with
    assorted alpha values. *)
Definition haze : Image :=
  mkImage RGBA 2 2 [[white; (250, 240, 230, 0)]; [(230, 250, 255, 17); white]].

(** 40 x 40, white, with a centred black 10 x 10 square. *)
Definition square40 : Image :=
  mkImage RGB 40 40
    (Raster.build 40 40
       (fun x y => if in_rect 15 15 10 10 x y then black else white)).

(** ** The clipboard and the monitor loop *)

(** What the system clipboard holds: an image, text, or neither. *)
Inductive Clipboard : Type :=
| CbImage (img : Image)
| CbText (s : string)
| CbEmpty.

(** The state the loop runs in: the clipboard, whether this process has it
    open, the payloads [SetClipboardData] has stored (newest first), and the
    local variable [last_image_hash] of [main]. *)
Record State : Type := mkState {
  clipboard : Clipboard;
  clipboard_open : bool;
  written : list Image;
  last_image_hash : option string
}.

(** Which of the external calls of one iteration fail. *)
Record Faults : Type := mkFaults {
  grab_fails : bool;     (* ImageGrab.grabclipboard *)
  paste_fails : bool;    (* pyperclip.paste *)
  encode_fails : bool;   (* convert("RGB").save(output, "BMP") *)
  open_fails : bool;     (* win32clipboard.OpenClipboard *)
  empty_fails : bool;    (* win32clipboard.EmptyClipboard *)
  set_fails : bool       (* win32clipboard.SetClipboardData *)
}.

Definition no_faults : Faults := mkFaults false false false false false false.

(** Only [SetClipboardData] fails. *)
Definition set_fault : Faults := mkFaults false false false false false true.

(** Computations over the state that return or raise. *)
Definition M (A : Type) : Type := State -> result A * State.

Definition ret {A : Type} (a : A) : M A := fun st => (Returns a, st).

Definition raise {A : Type} (e : PyExn) : M A := fun st => (Raises e, st).

Definition bind {A B : Type} (m : M A) (k : A -> M B) : M B :=
  fun st =>
    match m st with
    | (Returns a, st') => k a st'
    | (Raises e, st') => (Raises e, st')
    end.

Notation "x <- m ;; k" := (bind m (fun x => k))
  (at level 61, m at next level, right associativity).
Notation "m ;;; k" := (bind m (fun _ => k))
  (at level 61, right associativity).

Definition lift {A : Type} (r : result A) : M A := fun st => (r, st).

(** [try: body finally: cleanup] *)
Definition try_finally {A : Type} (body : M A) (cleanup : M unit) : M A :=
  fun st =>
    match body st with
    | (Returns a, st') =>
        match cleanup st' with
        | (Returns _, st'') => (Returns a, st'')
        | (Raises e, st'') => (Raises e, st'')
        end
    | (Raises e, st') =>
        match cleanup st' with
        | (Returns _, st'') => (Raises e, st'')
        | (Raises e', st'') => (Raises e', st'')
        end
    end.

(** [try: body except Exception as e: handler] *)
Definition try_except {A : Type} (body : M A) (handler : PyExn -> M A) : M A :=
  fun st =>
    match body st with
    | (Returns a, st') => (Returns a, st')
    | (Raises e, st') => handler e st'
    end.

Definition set_clipboard (c : Clipboard) (st : State) : State :=
  mkState c (clipboard_open st) (written st) (last_image_hash st).

Definition set_open (b : bool) (st : State) : State :=
  mkState (clipboard st) b (written st) (last_image_hash st).

Definition assign_last_image_hash (v : option string) : M unit :=
  fun st =>
    (Returns tt, mkState (clipboard st) (clipboard_open st) (written st) v).

Definition read_last_image_hash : M (option string) :=
  fun st => (Returns (last_image_hash st), st).

(** [ImageGrab.grabclipboard()]: the image when the clipboard holds one,
    [None] otherwise. *)
Definition grabclipboard (flt : Faults) : M (option Image) :=
  fun st =>
    if grab_fails flt then (Raises ClipboardError, st)
    else (Returns match clipboard st with
                  | CbImage img => Some img
                  | _ => None
                  end, st).

(** [pyperclip.paste()]: the text on the clipboard, the empty string when it
    holds no text. *)
Definition pyperclip_paste (flt : Faults) : M string :=
  fun st =>
    if paste_fails flt then (Raises ClipboardError, st)
    else (Returns match clipboard st with
                  | CbText s => s
                  | _ => EmptyString
                  end, st).

Definition OpenClipboard (flt : Faults) : M unit :=
  fun st =>
    if open_fails flt then (Raises ClipboardError, st)
    else (Returns tt, set_open true st).

Definition EmptyClipboard (flt : Faults) : M unit :=
  fun st =>
    if empty_fails flt then (Raises ClipboardError, st)
    else (Returns tt, set_clipboard CbEmpty st).

(** [SetClipboardData(CF_DIB, data)]; the DIB payload is stood for by the
    "RGB" image it encodes. *)
Definition SetClipboardData (flt : Faults) (data : Image) : M unit :=
  fun st =>
    if set_fails flt then (Raises ClipboardError, st)
    else (Returns tt,
          mkState (CbImage data) (clipboard_open st) (data :: written st)
                  (last_image_hash st)).

Definition CloseClipboard : M unit :=
  fun st => (Returns tt, set_open false st).

(** [img.convert("RGB").save(output, "BMP")] and the removal of the 14-byte
    file header. *)
Definition encode_dib (flt : Faults) (img : Image) : M Image :=
  if encode_fails flt then raise EncodeError else ret (convert_RGB img).

Definition send_image_to_clipboard (flt : Faults) (img : Image) : M unit :=
  data <- encode_dib flt img ;;
  OpenClipboard flt ;;;
  try_finally
    (EmptyClipboard flt ;;;
     SetClipboardData flt data)
    CloseClipboard.

(** [current_hash != last_image_hash], where the latter may be [None]. *)
Definition hash_differs (h : string) (last : option string) : bool :=
  match last with
  | Some l => negb (String.eqb h l)
  | None => true
  end.

(** The body of the [try] block of [main]. *)
Definition poll (flt : Faults) (PADDING : nat) (TOLERANCE : Z) : M unit :=
  img <- grabclipboard flt ;;
  match img with
  | Some img =>
      let current_hash := get_image_hash img in
      last <- read_last_image_hash ;;
      if hash_differs current_hash last then
        processed_img <-
          lift (trim_and_expand_border_to_content img PADDING TOLERANCE) ;;
        let processed_hash := get_image_hash processed_img in
        if negb (String.eqb processed_hash current_hash) then
          send_image_to_clipboard flt processed_img ;;;
          assign_last_image_hash (Some processed_hash)
        else
          assign_last_image_hash (Some current_hash)
      else ret tt
  | None =>
      txt <- pyperclip_paste flt ;;
      if String.eqb txt EmptyString then assign_last_image_hash None
      else ret tt
  end.

(** One iteration of the [while] loop: the [try] block with its catch-all
    handler, which only logs.  Logging has no effect on the state. *)
Definition iteration (flt : Faults) (PADDING : nat) (TOLERANCE : Z) : M unit :=
  try_except (poll flt PADDING TOLERANCE) (fun _ => ret tt).

(** One tick of the loop: what another program put on the clipboard since
    the last poll, if anything, and the faults of this iteration.  The exit
    and pause events decide only whether an iteration runs; a list of ticks
    holds the iterations that do. *)
Record Tick : Type := mkTick {
  incoming : option Clipboard;
  faults : Faults
}.

Definition arrive (c : option Clipboard) (st : State) : State :=
  match c with
  | Some c => set_clipboard c st
  | None => st
  end.

Fixpoint main_loop (PADDING : nat) (TOLERANCE : Z) (ticks : list Tick)
  (st : State) : State :=
  match ticks with
  | [] => st
  | tk :: rest =>
      main_loop PADDING TOLERANCE rest
        (snd (iteration (faults tk) PADDING TOLERANCE (arrive (incoming tk) st)))
  end.

(** A tick on which no other program touches the clipboard and nothing
    fails. *)
Definition quiet : Tick := mkTick None no_faults.

(** [main]: the loop started with [last_image_hash = None]. *)
Definition main (PADDING : nat) (TOLERANCE : Z) (cb : Clipboard)
  (ticks : list Tick) : State :=
  main_loop PADDING TOLERANCE ticks (mkState cb false [] None).

(** ** The other image functions of the script *)

(** [ImageOps.crop(img, border)]: [border] pixels removed on each of the four
    sides.  Pillow's [crop] raises ValueError when the right edge falls left
    of the left one or the lower edge above the upper one ([None] here). *)
Definition ImageOps_crop (img : Image) (border : nat) : option Image :=
  if ((width img <? 2 * border)%nat || (height img <? 2 * border)%nat)%bool
  then None
  else Some (crop img (border, border,
                       (width img - border)%nat, (height img - border)%nat)).

(** [trim_image_borders]: "shaves off pixels from all sides". *)
Definition trim_image_borders (img : Image) (border_width : nat) : option Image :=
  ImageOps_crop img border_width.

(** [trim_to_content]: the crop to the content box, widened by [padding] and
    clipped to the image. *)
Definition trim_to_content (img : Image) (padding : nat) (tolerance : Z)
  : result Image :=
  let img := convert_RGBA img in
  match getpixel img 0 0 with
  | Raises e => Raises e
  | Returns bg_color =>
      let mask := content_mask img bg_color tolerance in
      match getbbox mask with
      | None => Returns img
      | Some (x0, y0, x1, y1) =>
          let x0' := Z.to_nat (Z.max 0 (Z.of_nat x0 - Z.of_nat padding)) in
          let y0' := Z.to_nat (Z.max 0 (Z.of_nat y0 - Z.of_nat padding)) in
          let x1' := Nat.min (width img) (x1 + padding) in
          let y1' := Nat.min (height img) (y1 + padding) in
          Returns (crop img (x0', y0', x1', y1'))
      end
  end.

(** The red and blue pixels of [strip], without border. *)
Definition strip_content : Image := mkImage RGB 2 1 [[red; blue]].

(** A white 5 x 3 image with a red and a blue pixel in the middle row. *)
Definition wide_strip : Image :=
  mkImage RGB 5 3 [[white; white; white; white; white];
                   [white; red; blue; white; white];
                   [white; white; white; white; white]].

(** The three bytes [tobytes] emits for a colour. *)
Definition colour_bytes (c : Z * Z * Z) : list Z :=
  let '(r, g, b) := c in [r; g; b].

(** A white and a red pixel, side by side and one above the other. *)
Definition pair_row : Image := mkImage RGB 2 1 [[white; red]].
Definition pair_column : Image := mkImage RGB 1 2 [[white]; [red]].

(** The remembered fingerprint is that of the image on the clipboard, when
    the clipboard holds one. *)
Definition settled (st : State) : Prop :=
  match clipboard st with
  | CbImage img => last_image_hash st = Some (get_image_hash img)
  | _ => True
  end.

(** ** Log retention ([enforce_max_log_count]) *)

Section LogRetention.

(** The order in which [sorted] puts two paths ([true]: the first may come
    first), and the files [send2trash] fails on with OSError. *)
Variable path_leb : string -> string -> bool.
Variable trash_fails : string -> bool.

(** [sorted(...)]: the stable sort, here by insertion. *)
Fixpoint insert_path (f : string) (files : list string) : list string :=
  match files with
  | [] => [f]
  | g :: rest => if path_leb f g then f :: g :: rest
                 else g :: insert_path f rest
  end.

Fixpoint sorted (files : list string) : list string :=
  match files with
  | [] => []
  | f :: rest => insert_path f (sorted rest)
  end.

(** [enforce_max_log_count], on the files the glob finds in the directory:
    the files it sends to the trash.  [files[:-max_count]] is everything
    but the last [max_count] files; a file whose deletion fails is logged
    and skipped. *)
Definition enforce_max_log_count (found : list string) (max_count : option Z)
  : list string :=
  match max_count with
  | None => []
  | Some max_count =>
      if max_count <=? 0 then []
      else
        let files := sorted found in
        if Z.of_nat (length files) >? max_count then
          let to_delete := firstn (length files - Z.to_nat max_count) files in
          filter (fun f => negb (trash_fails f)) to_delete
        else []
  end.

(** The log files still in the directory afterwards, in sorted order. *)
Definition logs_kept (found : list string) (max_count : option Z) : list string :=
  filter (fun f => negb (existsb (String.eqb f)
                           (enforce_max_log_count found max_count)))
         (sorted found).

End LogRetention.

(** Three log files, named as [bootstrap] names them, out of order. *)
Definition sample_logs : list string :=
  ["20260102_000000__cropper__pc.log";
   "20260103_000000__cropper__pc.log";
   "20260101_000000__cropper__pc.log"]%string.

(** ** Configuration and start-up ([read_toml], [load_config], [bootstrap]) *)

(** What the configuration path names in the file system. *)
Inductive FsEntry : Type :=
| NoEntry                            (* nothing there *)
| Directory                          (* exists, is not a file *)
| UnreadableFile                     (* a file that cannot be opened *)
| RegularFile (content : list Z).    (* a file and its bytes *)

(** The exceptions of the start-up code. *)
Inductive BootExn : Type :=
| FileNotFoundError
| OSError
| TOMLDecodeError
| KeyboardInterrupt
| UnboundLocalError
| OtherException.

(** The keys the script reads from the configuration; [None] is a key (or
    its table) that is absent. *)
Record Config : Type := mkConfig {
  padding_key : option nat;
  tolerance_key : option Z;
  max_log_files_key : option Z;
  always_pause_key : option bool;
  pause_on_error_key : option bool
}.

(** [dict.get(key, default)] *)
Definition get_or {A : Type} (key : option A) (default : A) : A :=
  match key with
  | Some v => v
  | None => default
  end.

(** How [main] ends. *)
Inductive MainOutcome : Type :=
| MainReturns
| MainInterrupted     (* KeyboardInterrupt *)
| MainRaises.         (* any other exception *)

(** How [bootstrap] ends: with its return value, or with an exception
    nothing catches. *)
Inductive BootResult : Type :=
| ExitCode (code : Z)
| Uncaught (e : BootExn).

Record BootRun : Type := mkBootRun {
  boot_result : BootResult;
  prompted : bool;                 (* "Press Enter to exit..." was shown *)
  main_ran : bool;
  main_args : option (nat * Z);    (* PADDING and TOLERANCE of [main] *)
  logs_trashed : list string
}.

Section Startup.

(** [tomllib.load]: the parsed configuration, [None] for TOMLDecodeError. *)
Variable toml_load : list Z -> option Config.
Variable path_leb : string -> string -> bool.
Variable trash_fails : string -> bool.

Definition read_toml (entry : FsEntry) : Config + BootExn :=
  match entry with
  | RegularFile content =>
      match toml_load content with
      | Some data => inl data
      | None => inr TOMLDecodeError     (* logged and raised again *)
      end
  | UnreadableFile => inr OSError       (* logged and raised again *)
  | _ => inr FileNotFoundError          (* not path.is_file() *)
  end.

Definition load_config (entry : FsEntry) : Config + BootExn :=
  match entry with
  | NoEntry => inr FileNotFoundError    (* not file_path.exists() *)
  | _ => read_toml entry
  end.

(** The end of [bootstrap], after the [finally] block: the test of the two
    pause variables, which are bound only once the [try] block has reached
    their assignments. *)
Definition bootstrap_end (exit_code : Z)
  (pause_before_exit pause_before_exit_on_error : option bool)
  (main_ran : bool) (args : option (nat * Z)) (trashed : list string) : BootRun :=
  match pause_before_exit with
  | None => mkBootRun (Uncaught UnboundLocalError) false main_ran args trashed
  | Some true => mkBootRun (ExitCode exit_code) true main_ran args trashed
  | Some false =>
      match pause_before_exit_on_error with
      | None => mkBootRun (Uncaught UnboundLocalError) false main_ran args trashed
      | Some on_error =>
          mkBootRun (ExitCode exit_code)
                    (on_error && negb (exit_code =? 0))%bool
                    main_ran args trashed
      end
  end.

(** [bootstrap], given what the configuration path names, whether
    [setup_logging] fails, the log files in the log directory and how
    [main] ends. *)
Definition bootstrap (entry : FsEntry) (logging_fails : bool)
  (found_logs : list string) (outcome : MainOutcome) : BootRun :=
  match load_config entry with
  | inr _ => bootstrap_end 1 None None false None []
  | inl CONFIG =>
      if logging_fails then bootstrap_end 1 None None false None []
      else
        let trashed :=
          enforce_max_log_count path_leb trash_fails found_logs
            (max_log_files_key CONFIG) in
        let pause_before_exit := get_or (always_pause_key CONFIG) false in
        let pause_before_exit_on_error :=
          get_or (pause_on_error_key CONFIG) true in
        let args :=
          Some (get_or (padding_key CONFIG) 10%nat,
                get_or (tolerance_key CONFIG) 30) in
        let exit_code :=
          match outcome with
          | MainReturns => 0
          | MainInterrupted => 130
          | MainRaises => 1
          end in
        bootstrap_end exit_code (Some pause_before_exit)
                      (Some pause_before_exit_on_error) true args trashed
  end.

End Startup.

(** A parser that accepts the empty file as the empty configuration and
    nothing else. *)
Definition empty_only (content : list Z) : option Config :=
  match content with
  | [] => Some (mkConfig None None None None None)
  | _ => None
  end.

(** ** Pause and exit ([toggle_pause], [pause_checked], [on_exit]) *)

(** The two [threading.Event] flags. *)
Record Control : Type := mkControl {
  running_event : bool;
  exit_event : bool
}.

(** Module level: [running_event.set()], [exit_event] clear. *)
Definition initial_control : Control := mkControl true false.

Definition toggle_pause (c : Control) : Control :=
  if running_event c then mkControl false (exit_event c)
  else mkControl true (exit_event c).

Definition pause_checked (c : Control) : bool := negb (running_event c).

Definition on_exit (c : Control) : Control := mkControl (running_event c) true.

(** Where the thread of [main] stands: at the test of the [while], blocked
    in [running_event.wait()], or past the loop. *)
Inductive Pc : Type := AtWhile | InWait | Returned.

Record Machine : Type := mkMachine {
  control : Control;
  pc : Pc;
  loop_state : State
}.

(** What happens next: the tray menu toggles the pause, the tray menu asks
    for the exit, or the thread of [main] runs on to its next test or wait
    (after whatever another program did to the clipboard meanwhile). *)
Inductive Action : Type :=
| TrayToggle
| TrayExit
| MainStep (tk : Tick).

Definition is_toggle (a : Action) : bool :=
  match a with
  | TrayToggle => true
  | _ => false
  end.

Definition act (PADDING : nat) (TOLERANCE : Z) (a : Action) (m : Machine)
  : Machine :=
  match a with
  | TrayToggle => mkMachine (toggle_pause (control m)) (pc m) (loop_state m)
  | TrayExit => mkMachine (on_exit (control m)) (pc m) (loop_state m)
  | MainStep tk =>
      let st := arrive (incoming tk) (loop_state m) in
      let body :=
        mkMachine (control m) AtWhile
                  (snd (iteration (faults tk) PADDING TOLERANCE st)) in
      match pc m with
      | Returned => mkMachine (control m) Returned st
      | AtWhile =>
          if exit_event (control m) then mkMachine (control m) Returned st
          else if running_event (control m) then body
          else mkMachine (control m) InWait st
      | InWait =>
          if running_event (control m) then body
          else mkMachine (control m) InWait st
      end
  end.

Definition run (PADDING : nat) (TOLERANCE : Z) (actions : list Action)
  (m : Machine) : Machine :=
  fold_left (fun m a => act PADDING TOLERANCE a m) actions m.

(** The same thread with every statement that reads a flag as a step of its
    own, so that the tray menu can act between any two of them: at the test
    of the [while], at [running_event.wait()], past the wait with the body
    of the loop (the [try] block and the sleep) still to run, or past the
    loop.  The body reads neither flag. *)
Inductive Place : Type := AtTest | AtWait | InBody | PastLoop.

Record Thread : Type := mkThread {
  flags : Control;
  place : Place;
  store : State
}.

(** One action: the tray menu sets a flag, or the thread of [main] takes its
    next step (after whatever another program did to the clipboard
    meanwhile).  [running_event.wait()] returns only when the flag is set;
    the faults of the tick are those of the body. *)
Definition advance (PADDING : nat) (TOLERANCE : Z) (a : Action) (t : Thread)
  : Thread :=
  match a with
  | TrayToggle => mkThread (toggle_pause (flags t)) (place t) (store t)
  | TrayExit => mkThread (on_exit (flags t)) (place t) (store t)
  | MainStep tk =>
      let st := arrive (incoming tk) (store t) in
      match place t with
      | AtTest =>
          if exit_event (flags t) then mkThread (flags t) PastLoop st
          else mkThread (flags t) AtWait st
      | AtWait =>
          if running_event (flags t) then mkThread (flags t) InBody st
          else mkThread (flags t) AtWait st
      | InBody =>
          mkThread (flags t) AtTest
                   (snd (iteration (faults tk) PADDING TOLERANCE st))
      | PastLoop => mkThread (flags t) PastLoop st
      end
  end.

Definition advance_all (PADDING : nat) (TOLERANCE : Z) (actions : list Action)
  (t : Thread) : Thread :=
  fold_left (fun t a => advance PADDING TOLERANCE a t) actions t.

(** The tick of the first step the thread of [main] takes among [actions]. *)
Fixpoint first_main (actions : list Action) : option Tick :=
  match actions with
  | [] => None
  | MainStep tk :: _ => Some tk
  | _ :: rest => first_main rest
  end.

(** The state the body in flight leaves: when the thread is past the wait
    and takes a step among [actions], the state after that one iteration;
    the state as it is otherwise. *)
Definition in_flight (PADDING : nat) (TOLERANCE : Z) (actions : list Action)
  (t : Thread) : State :=
  match place t, first_main actions with
  | InBody, Some tk =>
      snd (iteration (faults tk) PADDING TOLERANCE
             (arrive (incoming tk) (store t)))
  | _, _ => store t
  end.

(** A [Machine] seen as a [Thread]: its steps are runs of steps of the
    thread that the tray menu does not interrupt. *)
Definition as_thread (m : Machine) : Thread :=
  mkThread (control m)
           match pc m with
           | AtWhile => AtTest
           | InWait => AtWait
           | Returned => PastLoop
           end
           (loop_state m).

(** ** The DIB payload: the BMP file Pillow writes and the reader of CF_DIB *)

(** [o16], [o32]: a field written least significant byte first; [i16],
    [i32]: a field read at an offset. *)
Definition o16 (v : Z) : list Z := MD5.le_bytes 2 v.
Definition o32 (v : Z) : list Z := MD5.le_bytes 4 v.

Definition i16 (data : list Z) (o : nat) : Z :=
  MD5.le_word (firstn 2 (skipn o data)).

Definition i32 (data : list Z) (o : nat) : Z :=
  MD5.le_word (firstn 4 (skipn o data)).

(** The raw modes "BGR" and "BGRA" of the two image modes. *)
Definition pack (m : Mode) (p : Pixel) : list Z :=
  let '(r, g, b, a) := p in
  match m with
  | RGB => [b; g; r]
  | RGBA => [b; g; r; a]
  end.

Definition unpack_BGR (bs : list Z) : Pixel :=
  (nth 2 bs 0, nth 1 bs 0, nth 0 bs 0, 255).

(** One line of the raw encoder: the packed pixels, zero-padded to the
    stride. *)
Definition raw_line (m : Mode) (stride : nat) (row : list Pixel) : list Z :=
  let packed := flat_map (pack m) row in
  packed ++ repeat 0 (stride - length packed).

(** [b"BM" + o32(file_size) + o32(0) + o32(offset)] *)
Definition bitmap_header (file_size offset : Z) : list Z :=
  [66; 77] ++ o32 file_size ++ o32 0 ++ o32 offset.

Definition bitmap_info_header (header w h bits image ppm colors : Z) : list Z :=
  o32 header ++ o32 w ++ o32 h ++ o16 1 ++ o16 bits ++ o32 0 ++ o32 image ++
  o32 ppm ++ o32 ppm ++ o32 colors ++ o32 colors.

(** [im.save(output, "BMP")]: the writer of Pillow's BmpImagePlugin, with the
    default 96 dpi.  The lines are written bottom-up (orientation -1).  An
    image without pixels is refused by the raw encoder, a file of more than
    [2**32 - 1] bytes by the writer. *)
Definition BMP_save (im : Image) : result (list Z) :=
  let bits := match mode im with RGB => 24 | RGBA => 32 end in
  let colors := 0 in
  let w := Z.of_nat (width im) in
  let h := Z.of_nat (height im) in
  let ppm := (96 * 393701 + 5000) / 10000 in
  let stride := Z.land ((w * bits + 7) / 8 + 3) (Z.lnot 3) in
  let header := 40 in
  let image := stride * h in
  let offset := 14 + header + colors * 4 in
  let file_size := offset + image in
  if file_size >? 2 ^ 32 - 1 then Raises EncodeError
  else if ((w =? 0) || (h =? 0))%bool then Raises EncodeError
  else
    Returns (bitmap_header file_size offset ++
             bitmap_info_header header w h bits image ppm colors ++
             flat_map (raw_line (mode im) (Z.to_nat stride)) (rev (rows im))).

(** The first two statements of [send_image_to_clipboard]:
    [img.convert("RGB").save(output, "BMP")] and [output.getvalue()[14:]]. *)
Definition dib_data (img : Image) : result (list Z) :=
  match BMP_save (convert_RGB img) with
  | Returns file => Returns (skipn 14 file)
  | Raises e => Raises e
  end.

(** [DibImageFile(io.BytesIO(data))], by which [ImageGrab.grabclipboard()]
    reads a CF_DIB payload, for the 40-byte header with 24 bits per pixel and
    no compression.  A height whose top byte is 0xFF marks a top-down bitmap;
    a payload with too few pixel bytes does not load. *)
Definition DibImageFile (data : list Z) : option Image :=
  if i32 data 0 =? 40 then
    let y_flip := nth 11 data 0 =? 255 in
    let w := i32 data 4 in
    let h := if y_flip then 2 ^ 32 - i32 data 8 else i32 data 8 in
    let bits := i16 data 14 in
    let compression := i32 data 16 in
    if ((bits =? 24) && (compression =? 0))%bool then
      let stride := Z.land (Z.shiftr (w * bits + 31) 3) (Z.lnot 3) in
      let raw := skipn 40 data in
      if Z.of_nat (length raw) <? stride * h then None
      else
        let lines := MD5.chunks (Z.to_nat stride) (Z.to_nat h) raw in
        let decoded :=
          map (fun line => map unpack_BGR (MD5.chunks 3 (Z.to_nat w) line))
              lines in
        Some (mkImage RGB (Z.to_nat w) (Z.to_nat h)
                (if y_flip then decoded else rev decoded))
    else None
  else None.

(** The payloads of two sample images: [ghost_strip], whose transparent
    middle pixel is written with its colour bands only, and the two rows of
    [pair_column], the lower one first. *)
Definition ghost_strip_dib : list Z :=
  [40; 0; 0; 0; 3; 0; 0; 0; 1; 0; 0; 0; 1; 0; 24; 0; 0; 0; 0; 0; 12; 0; 0; 0;
   196; 14; 0; 0; 196; 14; 0; 0; 0; 0; 0; 0; 0; 0; 0; 0;
   255; 255; 255; 0; 0; 0; 0; 0; 0; 0; 0; 0].

Definition pair_column_dib : list Z :=
  [40; 0; 0; 0; 1; 0; 0; 0; 2; 0; 0; 0; 1; 0; 24; 0; 0; 0; 0; 0; 8; 0; 0; 0;
   196; 14; 0; 0; 196; 14; 0; 0; 0; 0; 0; 0; 0; 0; 0; 0;
   0; 0; 255; 0; 255; 255; 255; 0].

(** * Properties *)

(** ** Rasters *)

Module RasterFacts.
Import Raster.

Lemma nth_map_seq {B : Type} (g : nat -> B) (d : B) (n i : nat) :
  (i < n)%nat -> nth i (map g (seq 0 n)) d = g i.
Proof.
  intros Hi.
  rewrite (nth_indep _ d (g 0%nat)) by now rewrite length_map, length_seq.
  rewrite (map_nth g (seq 0 n) 0%nat i), seq_nth; auto.
Qed.

Lemma list_as_map_seq {B : Type} (d : B) (l : list B) :
  map (fun i => nth i l d) (seq 0 (length l)) = l.
Proof.
  apply nth_ext with (d := d) (d' := d).
  - now rewrite length_map, length_seq.
  - intros i Hi. rewrite length_map, length_seq in Hi.
    now rewrite nth_map_seq.
Qed.

Section Cells.
Context {A : Type}.
Implicit Types (f g : nat -> nat -> A) (d : A).

Lemma cell_build_in d w h f x y :
  (x < w)%nat -> (y < h)%nat -> cell d (build w h f) x y = f x y.
Proof.
  intros Hx Hy. unfold cell, build.
  rewrite (nth_map_seq (fun y => map (fun x => f x y) (seq 0 w)) [] h y Hy).
  now rewrite nth_map_seq.
Qed.

Lemma cell_build_out d w h f x y :
  (w <= x)%nat \/ (h <= y)%nat -> cell d (build w h f) x y = d.
Proof.
  intros Hout. unfold cell, build.
  destruct (Nat.lt_ge_cases y h) as [Hy | Hy].
  - rewrite (nth_map_seq (fun y => map (fun x => f x y) (seq 0 w)) [] h y Hy).
    apply nth_overflow. rewrite length_map, length_seq. lia.
  - rewrite (nth_overflow (map _ _)) by (rewrite length_map, length_seq; lia).
    now destruct x.
Qed.

Lemma cell_build d w h f x y :
  cell d (build w h f) x y =
  if ((x <? w)%nat && (y <? h)%nat)%bool then f x y else d.
Proof.
  destruct (Nat.ltb_spec x w), (Nat.ltb_spec y h); simpl;
    solve [ now apply cell_build_in | apply cell_build_out; lia ].
Qed.

Lemma build_ext w h f g :
  (forall x y, (x < w)%nat -> (y < h)%nat -> f x y = g x y) ->
  build w h f = build w h g.
Proof.
  intros Hfg. unfold build.
  apply map_ext_in; intros y Hy. apply in_seq in Hy.
  apply map_ext_in; intros x Hx. apply in_seq in Hx.
  apply Hfg; lia.
Qed.

Lemma build_shaped w h f : shaped w h (build w h f).
Proof.
  split.
  - unfold build. now rewrite length_map, length_seq.
  - unfold build. apply Forall_forall. intros r Hr.
    apply in_map_iff in Hr. destruct Hr as (y & <- & _).
    now rewrite length_map, length_seq.
Qed.

(** A well-shaped raster is rebuilt from its own cells. *)
Lemma build_cell d w h (rs : list (list A)) :
  shaped w h rs -> build w h (cell d rs) = rs.
Proof.
  intros [Hh Hw]. subst h. unfold build, cell.
  rewrite <- (list_as_map_seq [] rs) at 2.
  apply map_ext_in. intros y Hy. apply in_seq in Hy.
  assert (Hlen : length (nth y rs []) = w).
  { rewrite Forall_forall in Hw. apply Hw, nth_In. lia. }
  rewrite <- Hlen. apply list_as_map_seq.
Qed.

(** A property of every cell of the rows holds at every coordinate inside. *)
Lemma cell_Forall (P : A -> Prop) d w h (rs : list (list A)) x y :
  shaped w h rs -> Forall (Forall P) rs ->
  (x < w)%nat -> (y < h)%nat -> P (cell d rs x y).
Proof.
  intros [Hh Hw] HP Hx Hy. subst h. unfold cell.
  rewrite Forall_forall in Hw, HP.
  assert (Hin : In (nth y rs []) rs) by (apply nth_In; lia).
  specialize (Hw _ Hin). specialize (HP _ Hin).
  rewrite Forall_forall in HP. apply HP, nth_In. lia.
Qed.

Lemma build_Forall (P : A -> Prop) w h f :
  (forall x y, (x < w)%nat -> (y < h)%nat -> P (f x y)) ->
  Forall (Forall P) (build w h f).
Proof.
  intros HP. unfold build. apply Forall_forall. intros r Hr.
  apply in_map_iff in Hr. destruct Hr as (y & <- & Hy). apply in_seq in Hy.
  apply Forall_forall. intros c Hc.
  apply in_map_iff in Hc. destruct Hc as (x & <- & Hx). apply in_seq in Hx.
  apply HP; lia.
Qed.
End Cells.

End RasterFacts.
Import RasterFacts.

(** ** Channel arithmetic *)

Lemma luma_range (p : Pixel) : pixel_ok p -> 0 <= luma p <= 255.
Proof.
  destruct p as [[[r g] b] a]. unfold pixel_ok, channel_ok, luma.
  intros (Hr & Hg & Hb & _).
  rewrite Z.shiftr_div_pow2 by lia. change (2 ^ 16) with 65536.
  Z.div_mod_to_equations. lia.
Qed.

Lemma abs_diff_ok (p q : Pixel) : pixel_ok p -> pixel_ok q -> pixel_ok (abs_diff p q).
Proof.
  destruct p as [[[r1 g1] b1] a1], q as [[[r2 g2] b2] a2].
  unfold pixel_ok, channel_ok, abs_diff. lia.
Qed.

Lemma abs_diff_self (p : Pixel) : abs_diff p p = zero_pixel.
Proof.
  destruct p as [[[r g] b] a]. unfold abs_diff, zero_pixel.
  now rewrite !Z.sub_diag.
Qed.

(** Bands that each differ by at most [t] give a luma of at most [t]. *)
Lemma luma_le_bands (p : Pixel) (t : Z) :
  let '(r, g, b, _) := p in
  0 <= r <= t -> 0 <= g <= t -> 0 <= b <= t -> luma p <= t.
Proof.
  destruct p as [[[r g] b] a]. intros Hr Hg Hb. unfold luma.
  rewrite Z.shiftr_div_pow2 by lia. change (2 ^ 16) with 65536.
  Z.div_mod_to_equations. lia.
Qed.

Lemma make_lut_nth (tolerance v : Z) :
  0 <= v <= 255 ->
  nth (Z.to_nat v) (make_lut tolerance) 0 = if v >? tolerance then 255 else 0.
Proof.
  intros Hv. unfold make_lut.
  rewrite nth_map_seq by lia.
  now rewrite Z2Nat.id by lia.
Qed.

(** Blending through a mask of 255 copies the source band. *)
Lemma blend_255 (out inp : Z) : channel_ok inp -> blend 255 out inp = inp.
Proof.
  unfold channel_ok, blend, div255. intros Hin.
  replace (out * (255 - 255) + inp * 255 + 128) with (inp * 255 + 128) by lia.
  rewrite !Z.shiftr_div_pow2 by lia. change (2 ^ 8) with 256.
  Z.div_mod_to_equations. lia.
Qed.

Lemma blend_pixel_255 (out inp : Pixel) :
  pixel_ok inp -> blend_pixel 255 out inp = inp.
Proof.
  destruct out as [[[r1 g1] b1] a1], inp as [[[r2 g2] b2] a2].
  unfold pixel_ok, blend_pixel. intros (Hr & Hg & Hb & Ha).
  now rewrite !blend_255.
Qed.

(** ** Searching an index range *)

Lemma any_below_true (f : nat -> bool) (n : nat) :
  any_below f n = true <-> exists i, (i < n)%nat /\ f i = true.
Proof.
  unfold any_below. rewrite existsb_exists. split.
  - intros (i & Hi & Hf). apply in_seq in Hi. exists i. split; [lia | easy].
  - intros (i & Hi & Hf). exists i. split; [apply in_seq; lia | easy].
Qed.

Lemma any_below_false (f : nat -> bool) (n : nat) :
  any_below f n = false <-> forall i, (i < n)%nat -> f i = false.
Proof.
  split.
  - intros Hany i Hi. destruct (f i) eqn:Hf; [| reflexivity].
    assert (any_below f n = true) by (apply any_below_true; eauto).
    congruence.
  - intros Hall. destruct (any_below f n) eqn:Hany; [| reflexivity].
    apply any_below_true in Hany. destruct Hany as (i & Hi & Hf).
    rewrite Hall in Hf by easy. discriminate.
Qed.

Lemma first_index_none (f : nat -> bool) (n : nat) :
  first_index f n = None <-> forall i, (i < n)%nat -> f i = false.
Proof.
  induction n as [| n IH]; simpl.
  - split; [intros _ i Hi; lia | reflexivity].
  - destruct (first_index f n) as [j |] eqn:Hfi.
    + split; [discriminate |].
      intros Hall. assert (Hnone : @None nat = None) by reflexivity.
      destruct IH as [_ IH]. discriminate IH. intros i Hi. apply Hall. lia.
    + destruct IH as [IH _]. specialize (IH eq_refl).
      destruct (f n) eqn:Hfn.
      * split; [discriminate |]. intros Hall. rewrite Hall in Hfn by lia.
        discriminate.
      * split; [| reflexivity]. intros _ i Hi.
        destruct (Nat.eq_dec i n) as [-> | Hne]; [easy | apply IH; lia].
Qed.


Lemma first_index_some (f : nat -> bool) (n i : nat) :
  first_index f n = Some i <->
  (i < n)%nat /\ f i = true /\ forall j, (j < i)%nat -> f j = false.
Proof.
  induction n as [| n IH]; simpl.
  - split; [discriminate | intros (Hi & _); lia].
  - destruct (first_index f n) as [k |] eqn:Hfi.
    + split.
      * intros Hk. apply IH in Hk. destruct Hk as (Hlt & Hf & Hmin).
        repeat split; auto.
      * intros (Hi & Hf & Hmin).
        assert (Hk : Some k = Some k) by reflexivity.
        pose proof (first_index_none f n) as Hnone.
        destruct (Nat.lt_ge_cases i n) as [Hlt | Hge].
        { apply IH. auto. }
        assert (i = n) by lia. subst i.
        assert (Hall : forall j, (j < n)%nat -> f j = false) by auto.
        apply Hnone in Hall. congruence.
    + pose proof (proj1 (first_index_none f n) Hfi) as Hall.
      destruct (f n) eqn:Hfn.
      * split.
        -- intros [= <-]. repeat split; auto.
        -- intros (Hi & Hf & _). f_equal.
           destruct (Nat.eq_dec i n) as [-> | Hne]; [reflexivity |].
           rewrite Hall in Hf by lia. discriminate.
      * split; [discriminate |]. intros (Hi & Hf & _).
        destruct (Nat.eq_dec i n) as [-> | Hne]; [congruence |].
        rewrite Hall in Hf by lia. discriminate.
Qed.

Lemma last_index_none (f : nat -> bool) (n : nat) :
  last_index f n = None <-> forall i, (i < n)%nat -> f i = false.
Proof.
  induction n as [| n IH]; simpl.
  - split; [intros _ i Hi; lia | reflexivity].
  - destruct (f n) eqn:Hfn.
    + split; [discriminate |]. intros Hall. rewrite Hall in Hfn by lia.
      discriminate.
    + rewrite IH. split.
      * intros Hall i Hi.
        destruct (Nat.eq_dec i n) as [-> | Hne]; [easy | apply Hall; lia].
      * intros Hall i Hi. apply Hall. lia.
Qed.

Lemma last_index_some (f : nat -> bool) (n i : nat) :
  last_index f n = Some i <->
  (i < n)%nat /\ f i = true /\
  forall j, (i < j)%nat -> (j < n)%nat -> f j = false.
Proof.
  induction n as [| n IH]; simpl.
  - split; [discriminate | intros (Hi & _); lia].
  - destruct (f n) eqn:Hfn.
    + split.
      * intros [= <-]. repeat split; auto. intros j Hj1 Hj2. lia.
      * intros (Hi & Hf & Hmax). f_equal.
        destruct (Nat.eq_dec i n) as [-> | Hne]; [reflexivity |].
        rewrite Hmax in Hfn by lia. discriminate.
    + rewrite IH. split.
      * intros (Hi & Hf & Hmax). repeat split; auto.
        intros j Hj1 Hj2.
        destruct (Nat.eq_dec j n) as [-> | Hne]; [easy | apply Hmax; lia].
      * intros (Hi & Hf & Hmax).
        destruct (Nat.eq_dec i n) as [-> | Hne]; [congruence |].
        repeat split; auto. lia.
Qed.

(** ** Pixels of the images the operations build *)

Lemma pixel_mk (m : Mode) (w h : nat) (f : nat -> nat -> Pixel) (x y : nat) :
  pixel (mkImage m w h (Raster.build w h f)) x y =
  if ((x <? w)%nat && (y <? h)%nat)%bool then f x y else zero_pixel.
Proof. unfold pixel; simpl. apply cell_build. Qed.

Lemma lpixel_mk (w h : nat) (f : nat -> nat -> Z) (x y : nat) :
  lpixel (mkLImage w h (Raster.build w h f)) x y =
  if ((x <? w)%nat && (y <? h)%nat)%bool then f x y else 0.
Proof. unfold lpixel; simpl. apply cell_build. Qed.

Lemma pixel_in_ok (im : Image) (x y : nat) :
  image_ok im -> (x < width im)%nat -> (y < height im)%nat ->
  pixel_ok (pixel im x y).
Proof.
  intros (Hs & Hok & _) Hx Hy. unfold pixel.
  now apply (cell_Forall pixel_ok zero_pixel (width im) (height im)).
Qed.

Lemma pixel_in_opaque (im : Image) (x y : nat) :
  image_ok im -> opaque im -> (x < width im)%nat -> (y < height im)%nat ->
  snd (pixel im x y) = 255.
Proof.
  intros (Hs & _) Hop Hx Hy. unfold pixel.
  now apply (cell_Forall (fun p : Pixel => snd p = 255) zero_pixel
               (width im) (height im)).
Qed.

Lemma set_alpha_ok (p : Pixel) : pixel_ok p -> pixel_ok (set_alpha 255 p).
Proof.
  destruct p as [[[r g] b] a]. unfold pixel_ok, channel_ok, set_alpha. lia.
Qed.

Lemma set_alpha_opaque (p : Pixel) : snd p = 255 -> set_alpha 255 p = p.
Proof. destruct p as [[[r g] b] a]. simpl. now intros ->. Qed.

Lemma convert_RGBA_size (im : Image) :
  width (convert_RGBA im) = width im /\ height (convert_RGBA im) = height im.
Proof. unfold convert_RGBA. now destruct (mode im). Qed.

Lemma convert_RGBA_mode (im : Image) : mode (convert_RGBA im) = RGBA.
Proof. unfold convert_RGBA. now destruct (mode im) eqn:E. Qed.

Lemma convert_RGBA_ok (im : Image) : image_ok im -> image_ok (convert_RGBA im).
Proof.
  intros Hok. unfold convert_RGBA. destruct (mode im); [| exact Hok].
  split; [| split]; cbn [width height rows mode].
  - apply build_shaped.
  - apply build_Forall. intros x y Hx Hy.
    apply set_alpha_ok. now apply pixel_in_ok.
  - discriminate.
Qed.

Lemma convert_RGBA_idem (im : Image) :
  convert_RGBA (convert_RGBA im) = convert_RGBA im.
Proof.
  unfold convert_RGBA at 1. now rewrite convert_RGBA_mode.
Qed.

(** ** The foreground mask *)

Lemma content_mask_size (img : Image) (bg_color : Pixel) (tolerance : Z) :
  lwidth (content_mask img bg_color tolerance) = width img /\
  lheight (content_mask img bg_color tolerance) = height img.
Proof. unfold content_mask; simpl. now rewrite !Nat.min_id. Qed.

Lemma content_mask_pixel (img : Image) (bg_color : Pixel) (tolerance : Z)
  (x y : nat) :
  image_ok img -> pixel_ok bg_color ->
  (x < width img)%nat -> (y < height img)%nat ->
  lpixel (content_mask img bg_color tolerance) x y =
  if is_foreground bg_color tolerance (pixel img x y) then 255 else 0.
Proof.
  intros Hok Hbg Hx Hy.
  assert (Hxb : (x <? width img)%nat = true) by now apply Nat.ltb_lt.
  assert (Hyb : (y <? height img)%nat = true) by now apply Nat.ltb_lt.
  unfold content_mask, point, convert_L, difference, Image_new.
  cbn [width height lwidth lheight mode]. rewrite !Nat.min_id.
  rewrite lpixel_mk, Hxb, Hyb. cbn [andb].
  rewrite lpixel_mk, Hxb, Hyb. cbn [andb].
  rewrite !pixel_mk, Hxb, Hyb. cbn [andb].
  unfold is_foreground.
  rewrite make_lut_nth; [reflexivity |].
  apply luma_range, abs_diff_ok; [now apply pixel_in_ok | exact Hbg].
Qed.

Lemma content_mask_nonzero (img : Image) (bg_color : Pixel) (tolerance : Z)
  (x y : nat) :
  image_ok img -> pixel_ok bg_color ->
  (x < width img)%nat -> (y < height img)%nat ->
  nonzero (content_mask img bg_color tolerance) x y =
  is_foreground bg_color tolerance (pixel img x y).
Proof.
  intros Hok Hbg Hx Hy. unfold nonzero.
  rewrite content_mask_pixel by assumption.
  now destruct (is_foreground bg_color tolerance (pixel img x y)).
Qed.

(** ** The bounding box *)

Section BoundingBox.
Variable m : LImage.

Lemma column_has_data_true (x : nat) :
  column_has_data m x = true <->
  exists y, (y < lheight m)%nat /\ nonzero m x y = true.
Proof. apply any_below_true. Qed.

Lemma row_has_data_true (y : nat) :
  row_has_data m y = true <->
  exists x, (x < lwidth m)%nat /\ nonzero m x y = true.
Proof. apply any_below_true. Qed.

(** No non-zero pixel: no box. *)
Lemma getbbox_none :
  (forall x y, (x < lwidth m)%nat -> (y < lheight m)%nat ->
               nonzero m x y = false) ->
  getbbox m = None.
Proof.
  intros Hzero. unfold getbbox.
  assert (Hcol : first_index (column_has_data m) (lwidth m) = None).
  { apply first_index_none. intros x Hx.
    apply any_below_false. intros y Hy. now apply Hzero. }
  now rewrite Hcol.
Qed.

(** Some non-zero pixel: a box. *)
Lemma getbbox_some_data (x y : nat) :
  (x < lwidth m)%nat -> (y < lheight m)%nat -> nonzero m x y = true ->
  exists box, getbbox m = Some box.
Proof.
  intros Hx Hy Hnz. unfold getbbox.
  assert (Hc : column_has_data m x = true)
    by (apply column_has_data_true; eauto).
  assert (Hr : row_has_data m y = true)
    by (apply row_has_data_true; eauto).
  destruct (first_index (column_has_data m) (lwidth m)) as [x0 |] eqn:E1.
  2: { rewrite first_index_none in E1. rewrite E1 in Hc by easy. discriminate. }
  destruct (first_index (row_has_data m) (lheight m)) as [y0 |] eqn:E2.
  2: { rewrite first_index_none in E2. rewrite E2 in Hr by easy. discriminate. }
  destruct (last_index (column_has_data m) (lwidth m)) as [x1 |] eqn:E3.
  2: { rewrite last_index_none in E3. rewrite E3 in Hc by easy. discriminate. }
  destruct (last_index (row_has_data m) (lheight m)) as [y1 |] eqn:E4.
  2: { rewrite last_index_none in E4. rewrite E4 in Hr by easy. discriminate. }
  eauto.
Qed.

Lemma getbbox_tight (box : Box) : getbbox m = Some box <-> tight_box m box.
Proof.
  destruct box as [[[x0 y0] x1] y1]. unfold getbbox, tight_box. split.
  - destruct (first_index (column_has_data m) (lwidth m)) as [a |] eqn:E1;
      [| discriminate].
    destruct (first_index (row_has_data m) (lheight m)) as [b |] eqn:E2;
      [| discriminate].
    destruct (last_index (column_has_data m) (lwidth m)) as [c |] eqn:E3;
      [| discriminate].
    destruct (last_index (row_has_data m) (lheight m)) as [d |] eqn:E4;
      [| discriminate].
    intros [= -> -> <- <-].
    apply first_index_some in E1, E2. apply last_index_some in E3, E4.
    destruct E1 as (A1 & A2 & A3), E2 as (B1 & B2 & B3),
             E3 as (C1 & C2 & C3), E4 as (D1 & D2 & D3).
    assert (Hac : (x0 <= c)%nat).
    { destruct (Nat.lt_ge_cases c x0) as [Hlt | Hge]; [| exact Hge].
      rewrite A3 in C2 by exact Hlt. discriminate. }
    assert (Hbd : (y0 <= d)%nat).
    { destruct (Nat.lt_ge_cases d y0) as [Hlt | Hge]; [| exact Hge].
      rewrite B3 in D2 by exact Hlt. discriminate. }
    replace (S c - 1)%nat with c by lia.
    replace (S d - 1)%nat with d by lia.
    repeat (split; [first [assumption | lia] |]).
    intros x y Hx Hy Hnz.
    assert (Hc : column_has_data m x = true)
      by (apply column_has_data_true; eauto).
    assert (Hr : row_has_data m y = true)
      by (apply row_has_data_true; eauto).
    repeat split.
    + destruct (Nat.lt_ge_cases x x0) as [Hlt | Hge]; [| exact Hge].
      rewrite A3 in Hc by exact Hlt. discriminate.
    + destruct (Nat.lt_ge_cases c x) as [Hlt | Hge]; [| lia].
      rewrite C3 in Hc by assumption. discriminate.
    + destruct (Nat.lt_ge_cases y y0) as [Hlt | Hge]; [| exact Hge].
      rewrite B3 in Hr by exact Hlt. discriminate.
    + destruct (Nat.lt_ge_cases d y) as [Hlt | Hge]; [| lia].
      rewrite D3 in Hr by assumption. discriminate.
  - intros (Hx01 & Hx1 & Hy01 & Hy1 & Hc0 & Hc1 & Hr0 & Hr1 & Hin).
    assert (Hcol : forall x, (x < lwidth m)%nat ->
              column_has_data m x = true -> (x0 <= x < x1)%nat).
    { intros x Hx Hc. apply column_has_data_true in Hc.
      destruct Hc as (y & Hy & Hnz). now apply (Hin x y). }
    assert (Hrow : forall y, (y < lheight m)%nat ->
              row_has_data m y = true -> (y0 <= y < y1)%nat).
    { intros y Hy Hr. apply row_has_data_true in Hr.
      destruct Hr as (x & Hx & Hnz). now apply (Hin x y). }
    assert (E1 : first_index (column_has_data m) (lwidth m) = Some x0).
    { apply first_index_some. repeat split; [lia | assumption |].
      intros j Hj. destruct (column_has_data m j) eqn:E; [| reflexivity].
      apply Hcol in E; lia. }
    assert (E2 : first_index (row_has_data m) (lheight m) = Some y0).
    { apply first_index_some. repeat split; [lia | assumption |].
      intros j Hj. destruct (row_has_data m j) eqn:E; [| reflexivity].
      apply Hrow in E; lia. }
    assert (E3 : last_index (column_has_data m) (lwidth m) = Some (x1 - 1)%nat).
    { apply last_index_some. repeat split; [lia | assumption |].
      intros j Hj1 Hj2. destruct (column_has_data m j) eqn:E; [| reflexivity].
      apply Hcol in E; lia. }
    assert (E4 : last_index (row_has_data m) (lheight m) = Some (y1 - 1)%nat).
    { apply last_index_some. repeat split; [lia | assumption |].
      intros j Hj1 Hj2. destruct (row_has_data m j) eqn:E; [| reflexivity].
      apply Hrow in E; lia. }
    rewrite E1, E2, E3, E4.
    replace (S (x1 - 1)) with x1 by lia.
    replace (S (y1 - 1)) with y1 by lia.
    reflexivity.
Qed.
End BoundingBox.

(** ** Closed forms of the mask and of the result *)

Ltac to_prop :=
  repeat match goal with
  | H : (_ && _)%bool = true |- _ => apply andb_true_iff in H; destruct H
  | H : (_ <? _)%nat = true |- _ => apply Nat.ltb_lt in H
  | H : (_ <? _)%nat = false |- _ => apply Nat.ltb_ge in H
  | H : (_ <=? _)%nat = true |- _ => apply Nat.leb_le in H
  | H : (_ <=? _)%nat = false |- _ => apply Nat.leb_gt in H
  end.

Lemma in_range_true (x w y h : nat) :
  (x < w)%nat -> (y < h)%nat -> ((x <? w)%nat && (y <? h)%nat)%bool = true.
Proof.
  intros Hx Hy. apply andb_true_iff. split; now apply Nat.ltb_lt.
Qed.

Lemma pixel_mk_in (m : Mode) (w h : nat) (f : nat -> nat -> Pixel) (x y : nat) :
  (x < w)%nat -> (y < h)%nat ->
  pixel (mkImage m w h (Raster.build w h f)) x y = f x y.
Proof. intros Hx Hy. now rewrite pixel_mk, in_range_true. Qed.

Lemma content_mask_closed (img : Image) (bg_color : Pixel) (tolerance : Z) :
  image_ok img -> pixel_ok bg_color ->
  content_mask img bg_color tolerance =
  mkLImage (width img) (height img)
    (Raster.build (width img) (height img)
       (fun x y =>
          if is_foreground bg_color tolerance (pixel img x y) then 255 else 0)).
Proof.
  intros Hok Hbg.
  pose proof (content_mask_size img bg_color tolerance) as [Hw Hh].
  unfold content_mask, point in *. cbn [lwidth lheight] in *.
  rewrite Hw, Hh. f_equal.
  apply build_ext. intros x y Hx Hy.
  pose proof (content_mask_pixel img bg_color tolerance x y Hok Hbg Hx Hy) as Hp.
  unfold content_mask, point in Hp. cbn [lwidth lheight] in Hp.
  rewrite Hw, Hh in Hp. unfold lpixel at 1 in Hp. cbn [lrows] in Hp.
  now rewrite cell_build_in in Hp.
Qed.

Lemma trim_unfold (img : Image) (padding : nat) (tolerance : Z) :
  trim_and_expand_border_to_content img padding tolerance =
  match find_content_box img tolerance with
  | Raises e => Raises e
  | Returns None => Returns (convert_RGBA img)
  | Returns (Some box) =>
      let img' := convert_RGBA img in
      let object_only := crop img' box in
      Returns (convert_RGB
                 (paste (Image_new RGBA (width object_only + padding * 2)
                                   (height object_only + padding * 2)
                                   (pixel img' 0 0))
                        object_only padding padding object_only))
  end.
Proof.
  unfold trim_and_expand_border_to_content, find_content_box, getpixel.
  destruct (in_image (convert_RGBA img) 0 0); [| reflexivity].
  now destruct (getbbox _).
Qed.

Lemma paste_framed (img : Image) (bg_color : Pixel) (box : Box) (padding : nat) :
  let object_only := crop img box in
  convert_RGB
    (paste (Image_new RGBA (width object_only + padding * 2)
                      (height object_only + padding * 2) bg_color)
           object_only padding padding object_only)
  = framed img bg_color box padding.
Proof.
  destruct box as [[[x0 y0] x1] y1].
  unfold framed, convert_RGB, paste, crop, Image_new. cbn [width height mode].
  f_equal. apply build_ext. intros x y Hx Hy.
  rewrite pixel_mk_in by assumption.
  destruct ((padding <=? x)%nat && (x <? padding + (x1 - x0))%nat &&
            (padding <=? y)%nat && (y <? padding + (y1 - y0))%nat)%bool eqn:Hin.
  - to_prop.
    rewrite !(pixel_mk_in _ (x1 - x0)) by lia.
    rewrite pixel_mk_in by assumption.
    reflexivity.
  - now rewrite pixel_mk_in by assumption.
Qed.

Lemma trim_some (img : Image) (padding : nat) (tolerance : Z) (box : Box) :
  find_content_box img tolerance = Returns (Some box) ->
  trim_and_expand_border_to_content img padding tolerance =
  Returns (framed (convert_RGBA img) (pixel (convert_RGBA img) 0 0) box padding).
Proof.
  intros Hbox. rewrite trim_unfold, Hbox. cbv zeta. now rewrite paste_framed.
Qed.

Lemma trim_none (img : Image) (padding : nat) (tolerance : Z) :
  find_content_box img tolerance = Returns None ->
  trim_and_expand_border_to_content img padding tolerance =
  Returns (convert_RGBA img).
Proof. intros Hbox. now rewrite trim_unfold, Hbox. Qed.

Lemma find_content_box_nonempty (img : Image) (tolerance : Z) :
  (0 < width img)%nat -> (0 < height img)%nat ->
  find_content_box img tolerance =
  Returns (getbbox (content_mask (convert_RGBA img)
                      (pixel (convert_RGBA img) 0 0) tolerance)).
Proof.
  intros Hw Hh. unfold find_content_box, getpixel, in_image.
  destruct (convert_RGBA_size img) as [-> ->].
  now rewrite in_range_true.
Qed.

(** ** The content box and the classification of pixels *)

Lemma convert_RGBA_rows (img : Image) :
  image_ok img -> rows (convert_RGBA img) = rows img.
Proof.
  intros Himg. pose proof Himg as (Hs & Hok & Hop). unfold convert_RGBA.
  destruct (mode img) eqn:Hm; [| reflexivity]. cbn [rows].
  transitivity (Raster.build (width img) (height img) (pixel img));
    [| exact (build_cell zero_pixel _ _ _ Hs)].
  apply build_ext. intros x y Hx Hy.
  apply set_alpha_opaque.
  apply pixel_in_opaque;
    [exact Himg | exact (Hop eq_refl) | exact Hx | exact Hy].
Qed.

Lemma convert_RGBA_pixel_same (img : Image) (x y : nat) :
  image_ok img -> pixel (convert_RGBA img) x y = pixel img x y.
Proof. intros Hok. unfold pixel. now rewrite convert_RGBA_rows. Qed.

Lemma is_foreground_colour (bg1 bg2 p1 p2 : Pixel) (t : Z) :
  colour bg1 = colour bg2 -> colour p1 = colour p2 ->
  is_foreground bg1 t p1 = is_foreground bg2 t p2.
Proof.
  destruct bg1 as [[[r1 g1] b1] a1], bg2 as [[[r2 g2] b2] a2],
           p1 as [[[r3 g3] b3] a3], p2 as [[[r4 g4] b4] a4].
  unfold colour, is_foreground, abs_diff, luma.
  now intros [= -> -> ->] [= -> -> ->].
Qed.

Lemma is_foreground_within (bg p : Pixel) (t : Z) :
  bands_within t p bg -> is_foreground bg t p = false.
Proof.
  intros Hin. unfold is_foreground.
  assert (Hl : luma (abs_diff p bg) <= t).
  { destruct p as [[[r1 g1] b1] a1], bg as [[[r2 g2] b2] a2].
    destruct Hin as (Hr & Hg & Hb).
    apply (luma_le_bands (abs_diff (r1, g1, b1, a1) (r2, g2, b2, a2))); lia. }
  destruct (luma (abs_diff p bg) >? t) eqn:E; [| reflexivity].
  apply Z.gtb_lt in E. lia.
Qed.

Section ContentBox.
Variables (img : Image) (tolerance : Z).
Hypothesis Hok : image_ok img.
Hypothesis Hw : (0 < width img)%nat.
Hypothesis Hh : (0 < height img)%nat.

Lemma bg_color_ok : pixel_ok (pixel img 0 0).
Proof. now apply pixel_in_ok. Qed.

Lemma find_content_box_mask :
  find_content_box img tolerance =
  Returns (getbbox (content_mask (convert_RGBA img) (pixel img 0 0) tolerance)).
Proof.
  rewrite find_content_box_nonempty by assumption.
  now rewrite convert_RGBA_pixel_same.
Qed.

Lemma mask_nonzero (x y : nat) :
  (x < width img)%nat -> (y < height img)%nat ->
  nonzero (content_mask (convert_RGBA img) (pixel img 0 0) tolerance) x y =
  is_foreground (pixel img 0 0) tolerance (pixel img x y).
Proof.
  intros Hx Hy. destruct (convert_RGBA_size img) as [Ew Eh].
  rewrite content_mask_nonzero;
    [ now rewrite convert_RGBA_pixel_same
    | now apply convert_RGBA_ok | apply bg_color_ok | lia | lia ].
Qed.

Lemma mask_size :
  lwidth (content_mask (convert_RGBA img) (pixel img 0 0) tolerance) = width img /\
  lheight (content_mask (convert_RGBA img) (pixel img 0 0) tolerance) = height img.
Proof.
  destruct (content_mask_size (convert_RGBA img) (pixel img 0 0) tolerance) as [-> ->].
  apply convert_RGBA_size.
Qed.

Lemma find_content_box_none_iff :
  find_content_box img tolerance = Returns None <->
  forall x y, (x < width img)%nat -> (y < height img)%nat ->
              is_foreground (pixel img 0 0) tolerance (pixel img x y) = false.
Proof.
  rewrite find_content_box_mask. destruct mask_size as [Ew Eh]. split.
  - intros Hnone x y Hx Hy.
    destruct (is_foreground (pixel img 0 0) tolerance (pixel img x y)) eqn:Hfg;
      [| reflexivity].
    rewrite <- mask_nonzero in Hfg by assumption.
    destruct (getbbox_some_data
                (content_mask (convert_RGBA img) (pixel img 0 0) tolerance) x y)
      as [box Hbox];
      [rewrite Ew; exact Hx | rewrite Eh; exact Hy | exact Hfg |].
    congruence.
  - intros Hall. f_equal. apply getbbox_none. intros x y Hx Hy.
    rewrite Ew in Hx. rewrite Eh in Hy.
    rewrite mask_nonzero by assumption. now apply Hall.
Qed.

Lemma find_content_box_some (box : Box) :
  find_content_box img tolerance = Returns (Some box) <->
  tight_box (content_mask (convert_RGBA img) (pixel img 0 0) tolerance) box.
Proof.
  rewrite find_content_box_mask, <- getbbox_tight.
  split; [now intros [= ->] | now intros ->].
Qed.
End ContentBox.

(** ** Checking concrete images *)

Lemma all_coords_sound (w h : nat) (P : nat -> nat -> bool) :
  all_coords w h P = true ->
  forall x y, (x < w)%nat -> (y < h)%nat -> P x y = true.
Proof.
  unfold all_coords. intros Hall x y Hx Hy.
  rewrite forallb_forall in Hall.
  assert (Hrow := Hall y ltac:(apply in_seq; lia)).
  rewrite forallb_forall in Hrow. apply Hrow, in_seq. lia.
Qed.

Lemma forallb2_Forall {A : Type} (p : A -> bool) (P : A -> Prop)
  (rs : list (list A)) :
  (forall a, p a = true -> P a) ->
  forallb (forallb p) rs = true -> Forall (Forall P) rs.
Proof.
  intros HpP Hall. rewrite forallb_forall in Hall.
  apply Forall_forall. intros r Hr. specialize (Hall r Hr).
  rewrite forallb_forall in Hall.
  apply Forall_forall. intros a Ha. auto.
Qed.

Lemma opaqueb_sound (im : Image) : opaqueb im = true -> opaque im.
Proof.
  apply forallb2_Forall. intros p Hp. now apply Z.eqb_eq.
Qed.

Lemma pixel_okb_sound (p : Pixel) : pixel_okb p = true -> pixel_ok p.
Proof.
  destruct p as [[[r g] b] a]. unfold pixel_okb, pixel_ok, channel_okb, channel_ok.
  rewrite !andb_true_iff, !Z.leb_le. tauto.
Qed.

Lemma image_okb_sound (im : Image) : image_okb im = true -> image_ok im.
Proof.
  unfold image_okb, image_ok, Raster.shaped.
  rewrite !andb_true_iff. intros [[[Hlen Hrows] Hpix] Hmode].
  repeat split.
  - now apply Nat.eqb_eq.
  - rewrite forallb_forall in Hrows. apply Forall_forall.
    intros r Hr. apply Nat.eqb_eq. auto.
  - revert Hpix. apply forallb2_Forall, pixel_okb_sound.
  - intros Hm. rewrite Hm in Hmode. now apply opaqueb_sound.
Qed.

Lemma is_foreground_false_iff (bg p : Pixel) (t : Z) :
  is_foreground bg t p = false <-> luma (abs_diff p bg) <= t.
Proof.
  unfold is_foreground. rewrite Z.gtb_ltb, Z.ltb_ge. reflexivity.
Qed.

Lemma is_foreground_true_iff (bg p : Pixel) (t : Z) :
  is_foreground bg t p = true <-> luma (abs_diff p bg) > t.
Proof.
  unfold is_foreground. rewrite Z.gtb_ltb, Z.ltb_lt. lia.
Qed.

Lemma is_foreground_self (bg : Pixel) (t : Z) :
  0 <= t -> is_foreground bg t bg = false.
Proof.
  intros Ht. apply is_foreground_false_iff. now rewrite abs_diff_self.
Qed.

(** The "RGBA" conversion of a well-formed image has its size and pixel rows,
    and is the image itself when that is "RGBA" already. *)
Lemma convert_RGBA_same (img : Image) :
  image_ok img ->
  width (convert_RGBA img) = width img /\
  height (convert_RGBA img) = height img /\
  rows (convert_RGBA img) = rows img /\
  (mode img = RGBA -> convert_RGBA img = img).
Proof.
  intros Hok. destruct (convert_RGBA_size img) as [Ew Eh].
  repeat split; try assumption.
  - now apply convert_RGBA_rows.
  - intros Hm. unfold convert_RGBA. now rewrite Hm.
Qed.

(** C4: the colour at (0, 0) is the background reference, and a pixel counts
    as foreground exactly when the luma of its per-band absolute difference
    from that colour is strictly greater than the tolerance; the content box
    is the bounding box of those pixels, and there is none exactly when every
    pixel's luma difference is at most the tolerance. *)
Theorem content_box_classification (img : Image) (tolerance : Z) :
  image_ok img -> (0 < width img)%nat -> (0 < height img)%nat ->
  let img' := convert_RGBA img in
  let bg_color := pixel img' 0 0 in
  let mask := content_mask img' bg_color tolerance in
  getpixel img' 0 0 = Returns bg_color /\
  find_content_box img tolerance = Returns (getbbox mask) /\
  (forall x y, (x < width img)%nat -> (y < height img)%nat ->
     lpixel mask x y =
     if luma (abs_diff (pixel img' x y) bg_color) >? tolerance
     then 255 else 0) /\
  (find_content_box img tolerance = Returns None <->
   forall x y, (x < width img)%nat -> (y < height img)%nat ->
     luma (abs_diff (pixel img' x y) bg_color) <= tolerance) /\
  (forall box, find_content_box img tolerance = Returns (Some box) ->
     tight_box mask box).
Proof.
  intros Hok Hw Hh img' bg_color mask. subst img' bg_color mask.
  destruct (convert_RGBA_size img) as [Ew Eh].
  pose proof (convert_RGBA_ok img Hok) as Hok'.
  assert (Hbg : pixel_ok (pixel (convert_RGBA img) 0 0))
    by (apply pixel_in_ok; [assumption | lia | lia]).
  split; [| split; [| split; [| split]]].
  - unfold getpixel, in_image. rewrite Ew, Eh. now rewrite in_range_true.
  - now apply find_content_box_nonempty.
  - intros x y Hx Hy.
    rewrite content_mask_pixel; [reflexivity | assumption.. | lia | lia].
  - rewrite find_content_box_none_iff by assumption.
    split; intros Hall x y Hx Hy; specialize (Hall x y Hx Hy).
    + rewrite !convert_RGBA_pixel_same by assumption.
      now apply is_foreground_false_iff.
    + rewrite !convert_RGBA_pixel_same in Hall by assumption.
      now apply is_foreground_false_iff.
  - intros box Hbox.
    rewrite convert_RGBA_pixel_same by assumption.
    now apply find_content_box_some.
Qed.

Lemma content_box_classification_witness :
  find_content_box strip 30 = Returns (Some (1, 0, 3, 1)%nat) /\
  lpixel (content_mask (convert_RGBA strip) (pixel (convert_RGBA strip) 0 0) 30)
         1 0 = 255.
Proof.
  assert (Hok : image_ok strip) by (apply image_okb_sound; reflexivity).
  assert (Hw : (0 < width strip)%nat) by (simpl; lia).
  assert (Hh : (0 < height strip)%nat) by (simpl; lia).
  destruct (content_box_classification strip 30 Hok Hw Hh)
    as (_ & Hbox & Hpix & _).
  split.
  - rewrite Hbox. reflexivity.
  - rewrite (Hpix 1%nat 0%nat) by (simpl; lia). reflexivity.
Defined.

(** C2: when every pixel is within tolerance of the colour at (0, 0), no
    content box is found and the image comes back with its size and pixel
    rows unchanged (an "RGBA" input comes back identical; an "RGB" input
    comes back as the same pixels in mode "RGBA"). *)
Theorem within_tolerance_unchanged (img : Image) (padding : nat) (tolerance : Z) :
  image_ok img -> (0 < width img)%nat -> (0 < height img)%nat ->
  (forall x y, (x < width img)%nat -> (y < height img)%nat ->
     luma (abs_diff (pixel img x y) (pixel img 0 0)) <= tolerance) ->
  find_content_box img tolerance = Returns None /\
  exists out,
    trim_and_expand_border_to_content img padding tolerance = Returns out /\
    out = convert_RGBA img /\
    width out = width img /\ height out = height img /\
    rows out = rows img /\ (mode img = RGBA -> out = img).
Proof.
  intros Hok Hw Hh Hall.
  assert (Hnone : find_content_box img tolerance = Returns None).
  { apply find_content_box_none_iff; try assumption.
    intros x y Hx Hy. apply is_foreground_false_iff. now apply Hall. }
  split; [exact Hnone |].
  exists (convert_RGBA img). split; [now apply trim_none |].
  split; [reflexivity |]. now apply convert_RGBA_same.
Qed.

Lemma within_tolerance_unchanged_witness :
  find_content_box haze 30 = Returns None /\
  exists out,
    trim_and_expand_border_to_content haze 10 30 = Returns out /\
    out = convert_RGBA haze /\
    width out = width haze /\ height out = height haze /\
    rows out = rows haze /\ (mode haze = RGBA -> out = haze).
Proof.
  apply (within_tolerance_unchanged haze 10 30).
  - apply image_okb_sound. reflexivity.
  - simpl. lia.
  - simpl. lia.
  - intros x y Hx Hy. apply Z.leb_le.
    apply (all_coords_sound 2 2
             (fun x y => luma (abs_diff (pixel haze x y) (pixel haze 0 0)) <=? 30));
      [reflexivity | exact Hx | exact Hy].
Defined.

(** The uniform case of C2: a one-colour image of any positive size, for any
    non-negative tolerance. *)
Corollary uniform_image_unchanged (img : Image) (padding : nat) (tolerance : Z) :
  image_ok img -> (0 < width img)%nat -> (0 < height img)%nat ->
  0 <= tolerance ->
  (forall x y, (x < width img)%nat -> (y < height img)%nat ->
     pixel img x y = pixel img 0 0) ->
  find_content_box img tolerance = Returns None /\
  exists out,
    trim_and_expand_border_to_content img padding tolerance = Returns out /\
    out = convert_RGBA img /\
    width out = width img /\ height out = height img /\
    rows out = rows img /\ (mode img = RGBA -> out = img).
Proof.
  intros Hok Hw Hh Ht Huni.
  assert (Hnone : find_content_box img tolerance = Returns None).
  { apply find_content_box_none_iff; try assumption.
    intros x y Hx Hy. rewrite (Huni x y Hx Hy).
    now apply is_foreground_self. }
  split; [exact Hnone |].
  exists (convert_RGBA img). split; [now apply trim_none |].
  split; [reflexivity |]. now apply convert_RGBA_same.
Qed.

Example blank_rgba_unchanged :
  trim_and_expand_border_to_content blank_rgba 10 30 = Returns blank_rgba.
Proof. reflexivity. Qed.

Example blank_comes_back_rgba :
  trim_and_expand_border_to_content blank 10 30 =
  Returns (mkImage RGBA 2 2 (rows blank)).
Proof. reflexivity. Qed.

Lemma same_coloursb_sound (a b : Image) :
  same_coloursb a b = true -> same_colours a b.
Proof.
  unfold same_coloursb, same_colours. rewrite !andb_true_iff, !Nat.eqb_eq.
  intros [[Hw Hh] Hall]. repeat split; try assumption.
  intros x y Hx Hy.
  pose proof (all_coords_sound _ _ _ Hall x y Hx Hy) as Heq.
  cbv beta in Heq.
  destruct (colour (pixel a x y)) as [[r1 g1] b1].
  destruct (colour (pixel b x y)) as [[r2 g2] b2].
  unfold colour_eqb in Heq. rewrite !andb_true_iff, !Z.eqb_eq in Heq.
  destruct Heq as [[-> ->] ->]. reflexivity.
Qed.

(** C9: the alpha band takes no part in the classification.  Two images with
    the same colour bands, whatever their alpha bands, get the same content
    box; and a pixel whose colour bands are each within tolerance of those of
    the pixel at (0, 0) is background, whatever the two alpha values. *)
Theorem alpha_takes_no_part (img1 img2 : Image) (tolerance : Z) :
  image_ok img1 -> image_ok img2 ->
  (0 < width img1)%nat -> (0 < height img1)%nat ->
  same_colours img1 img2 ->
  find_content_box img1 tolerance = find_content_box img2 tolerance /\
  forall x y, (x < width img1)%nat -> (y < height img1)%nat ->
    bands_within tolerance (pixel img1 x y) (pixel img1 0 0) ->
    lpixel (content_mask (convert_RGBA img1) (pixel (convert_RGBA img1) 0 0)
              tolerance) x y = 0.
Proof.
  intros Hok1 Hok2 Hw Hh (Ew & Eh & Hcol).
  destruct (convert_RGBA_size img1) as [Ew1 Eh1].
  destruct (convert_RGBA_size img2) as [Ew2 Eh2].
  pose proof (convert_RGBA_ok img1 Hok1) as Hok1'.
  pose proof (convert_RGBA_ok img2 Hok2) as Hok2'.
  split.
  - rewrite !find_content_box_mask by (assumption || lia). f_equal. f_equal.
    rewrite !content_mask_closed by (assumption || apply bg_color_ok; assumption || lia).
    rewrite Ew1, Eh1, Ew2, Eh2, <- Ew, <- Eh. f_equal.
    apply build_ext. intros x y Hx Hy.
    rewrite !convert_RGBA_pixel_same by assumption.
    rewrite (is_foreground_colour (pixel img1 0 0) (pixel img2 0 0)
               (pixel img1 x y) (pixel img2 x y)); [reflexivity |..];
      apply Hcol; assumption.
  - intros x y Hx Hy Hin.
    rewrite content_mask_pixel;
      [| assumption | apply pixel_in_ok; [assumption | lia | lia] | lia | lia].
    rewrite !convert_RGBA_pixel_same by assumption.
    now rewrite is_foreground_within.
Qed.

Lemma alpha_takes_no_part_witness :
  find_content_box ghost_strip 30 = find_content_box solid_strip 30 /\
  lpixel (content_mask (convert_RGBA haze) (pixel (convert_RGBA haze) 0 0) 30)
         1 0 = 0.
Proof.
  split.
  - apply (alpha_takes_no_part ghost_strip solid_strip 30);
      [ apply image_okb_sound; reflexivity
      | apply image_okb_sound; reflexivity
      | simpl; lia | simpl; lia
      | apply same_coloursb_sound; reflexivity ].
  - assert (Hok : image_ok haze) by (apply image_okb_sound; reflexivity).
    assert (Hsame : same_colours haze haze)
      by (apply same_coloursb_sound; reflexivity).
    apply (alpha_takes_no_part haze haze 30 Hok Hok); simpl; try lia.
    exact Hsame.
Defined.

(** ** The framed result for opaque images *)

Lemma in_rect_spec (x0 y0 w h x y : nat) :
  in_rect x0 y0 w h x y = true <->
  (x0 <= x < x0 + w)%nat /\ (y0 <= y < y0 + h)%nat.
Proof.
  unfold in_rect. rewrite !andb_true_iff, !Nat.leb_le, !Nat.ltb_lt. lia.
Qed.

Lemma in_rect_true (x0 y0 w h x y : nat) :
  (x0 <= x < x0 + w)%nat -> (y0 <= y < y0 + h)%nat ->
  in_rect x0 y0 w h x y = true.
Proof. intros Hx Hy. now apply in_rect_spec. Qed.

Lemma in_rect_false (x0 y0 w h x y : nat) :
  ~ ((x0 <= x < x0 + w)%nat /\ (y0 <= y < y0 + h)%nat) ->
  in_rect x0 y0 w h x y = false.
Proof.
  intros Hout. destruct (in_rect x0 y0 w h x y) eqn:E; [| reflexivity].
  apply in_rect_spec in E. contradiction.
Qed.

(** With every boxed pixel opaque, pasting through the alpha band copies the
    pixels: the result is the boxed window inside its frame. *)
Lemma framed_opaque (img : Image) (bg : Pixel) (x0 y0 x1 y1 padding : nat) :
  image_ok img -> opaque img -> snd bg = 255 ->
  (x1 <= width img)%nat -> (y1 <= height img)%nat ->
  framed img bg (x0, y0, x1, y1) padding =
  frame_window img bg x0 y0 (x1 - x0) (y1 - y0) padding.
Proof.
  intros Hok Hop Hbg Hx1 Hy1. unfold framed, frame_window. f_equal.
  apply build_ext. intros x y Hx Hy. fold (in_rect padding padding (x1 - x0) (y1 - y0) x y).
  destruct (in_rect padding padding (x1 - x0) (y1 - y0) x y) eqn:Hin.
  - apply in_rect_spec in Hin. cbv zeta.
    rewrite pixel_in_opaque by (assumption || lia).
    rewrite blend_pixel_255 by (apply pixel_in_ok; (assumption || lia)).
    apply set_alpha_opaque. apply pixel_in_opaque; (assumption || lia).
  - now apply set_alpha_opaque.
Qed.

Lemma frame_window_convert (img : Image) (bg : Pixel) (x0 y0 w h padding : nat) :
  image_ok img ->
  frame_window (convert_RGBA img) bg x0 y0 w h padding =
  frame_window img bg x0 y0 w h padding.
Proof.
  intros Hok. unfold frame_window, pixel. now rewrite convert_RGBA_rows.
Qed.

Lemma convert_RGBA_opaque (img : Image) :
  image_ok img -> opaque img -> opaque (convert_RGBA img).
Proof.
  intros Hok Hop. unfold opaque. now rewrite convert_RGBA_rows.
Qed.

(** The result for an opaque image with content box (x0, y0, x1, y1). *)
Lemma trim_opaque_box (img : Image) (padding : nat) (tolerance : Z)
  (x0 y0 x1 y1 : nat) :
  image_ok img -> opaque img ->
  (0 < width img)%nat -> (0 < height img)%nat ->
  find_content_box img tolerance = Returns (Some (x0, y0, x1, y1)) ->
  trim_and_expand_border_to_content img padding tolerance =
  Returns (frame_window img (pixel img 0 0) x0 y0 (x1 - x0) (y1 - y0) padding).
Proof.
  intros Hok Hop Hw Hh Hbox.
  rewrite (trim_some _ _ _ _ Hbox). f_equal.
  apply find_content_box_some in Hbox; try assumption.
  destruct Hbox as (_ & Hx1 & _ & Hy1 & _).
  destruct (mask_size img tolerance) as [Ew Eh]. rewrite Ew in Hx1. rewrite Eh in Hy1.
  destruct (convert_RGBA_size img) as [Ew' Eh'].
  rewrite convert_RGBA_pixel_same by assumption.
  rewrite framed_opaque;
    [ now apply frame_window_convert
    | now apply convert_RGBA_ok
    | now apply convert_RGBA_opaque
    | now apply pixel_in_opaque
    | lia | lia ].
Qed.

(** The result when the pixels classified as foreground against the pixel
    at (0, 0) are exactly those of a W x H rectangle at margin M. *)
Lemma rectangle_box_result (img : Image) (W H M padding : nat) (tolerance : Z) :
  image_ok img -> (1 <= W)%nat -> (1 <= H)%nat ->
  width img = (W + 2 * M)%nat -> height img = (H + 2 * M)%nat ->
  (forall x y, (x < width img)%nat -> (y < height img)%nat ->
     is_foreground (pixel img 0 0) tolerance (pixel img x y) =
     in_rect M M W H x y) ->
  exists out,
    trim_and_expand_border_to_content img padding tolerance = Returns out /\
    width out = (W + 2 * padding)%nat /\
    height out = (H + 2 * padding)%nat /\
    (opaque img ->
     forall x y, (x < W + 2 * padding)%nat -> (y < H + 2 * padding)%nat ->
       pixel out x y =
       if in_rect padding padding W H x y
       then pixel img (x - padding + M) (y - padding + M)
       else pixel img 0 0).
Proof.
  intros Hok HW HH Ew Eh Hfg.
  assert (Hw : (0 < width img)%nat) by lia.
  assert (Hh : (0 < height img)%nat) by lia.
  assert (Hbox : find_content_box img tolerance =
                 Returns (Some (M, M, M + W, M + H)%nat)).
  { apply find_content_box_some; try assumption.
    destruct (mask_size img tolerance) as [Ewm Ehm].
    assert (Hnz : forall x y, (x < width img)%nat -> (y < height img)%nat ->
              nonzero (content_mask (convert_RGBA img) (pixel img 0 0) tolerance) x y
              = in_rect M M W H x y).
    { intros x y Hx Hy. rewrite mask_nonzero by assumption. now apply Hfg. }
    unfold tight_box. rewrite Ewm, Ehm.
    repeat (split; [lia |]).
    split; [| split; [| split; [| split]]].
    - apply column_has_data_true. exists M. rewrite Ehm. split; [lia |].
      rewrite Hnz by lia. apply in_rect_true; lia.
    - apply column_has_data_true. exists M. rewrite Ehm. split; [lia |].
      rewrite Hnz by lia. apply in_rect_true; lia.
    - apply row_has_data_true. exists M. rewrite Ewm. split; [lia |].
      rewrite Hnz by lia. apply in_rect_true; lia.
    - apply row_has_data_true. exists M. rewrite Ewm. split; [lia |].
      rewrite Hnz by lia. apply in_rect_true; lia.
    - intros x y Hx Hy Hdata. rewrite Hnz in Hdata by assumption.
      apply in_rect_spec in Hdata. lia. }
  rewrite (trim_some _ padding _ _ Hbox).
  eexists. split; [reflexivity |].
  split; [unfold framed; cbn [width]; lia |].
  split; [unfold framed; cbn [height]; lia |].
  intros Hop x y Hx Hy.
  rewrite convert_RGBA_pixel_same by assumption.
  rewrite framed_opaque;
    [ | now apply convert_RGBA_ok | now apply convert_RGBA_opaque
      | now apply pixel_in_opaque
      | destruct (convert_RGBA_size img); lia
      | destruct (convert_RGBA_size img); lia ].
  rewrite frame_window_convert by assumption.
  unfold frame_window.
  replace (M + W - M)%nat with W by lia.
  replace (M + H - M)%nat with H by lia.
  rewrite pixel_mk_in by lia. reflexivity.
Qed.

Lemma centred_rectangleb_sound (img : Image) (W H M : nat) (tolerance : Z) :
  centred_rectangleb img W H M tolerance = true ->
  centred_rectangle img W H M tolerance.
Proof.
  unfold centred_rectangleb, centred_rectangle.
  rewrite !andb_true_iff, !Nat.eqb_eq. intros [[Hw Hh] Hall].
  repeat split; try assumption.
  intros x y Hx Hy.
  pose proof (all_coords_sound _ _ _ Hall x y Hx Hy) as Hxy. cbv beta in Hxy.
  destruct (in_rect M M W H x y).
  - now apply Z.gtb_gt.
  - now apply Z.leb_le.
Qed.

(** C3: an image showing a W x H foreground rectangle (of at least one
    pixel) centred with a background margin M >= 0, for any tolerance T that
    separates the two (the rectangle's pixels differ from the colour sampled
    at (0, 0) by more than T, the margin's pixels by at most T), is
    normalised to size (W + 2P, H + 2P); for an opaque image the rectangle's
    pixels sit at offset (P, P) inside a frame of the sampled colour. *)
Theorem centred_rectangle_size (img : Image) (W H M padding : nat)
  (tolerance : Z) :
  image_ok img -> (1 <= W)%nat -> (1 <= H)%nat ->
  centred_rectangle img W H M tolerance ->
  exists out,
    trim_and_expand_border_to_content img padding tolerance = Returns out /\
    width out = (W + 2 * padding)%nat /\
    height out = (H + 2 * padding)%nat /\
    (opaque img ->
     forall x y, (x < W + 2 * padding)%nat -> (y < H + 2 * padding)%nat ->
       pixel out x y =
       if in_rect padding padding W H x y
       then pixel img (x - padding + M) (y - padding + M)
       else pixel img 0 0).
Proof.
  intros Hok HW HH (Ew & Eh & Hrect).
  apply rectangle_box_result; try assumption.
  intros x y Hx Hy. specialize (Hrect x y Hx Hy).
  destruct (in_rect M M W H x y).
  - now apply is_foreground_true_iff.
  - now apply is_foreground_false_iff.
Qed.

(** The scenario of C3: the 40 x 40 image with a centred 10 x 10 square,
    tolerance 30, padding 5, gives a 20 x 20 image with the square at
    offset (5, 5). *)
Lemma centred_rectangle_size_witness :
  exists out,
    trim_and_expand_border_to_content square40 5 30 = Returns out /\
    width out = 20%nat /\ height out = 20%nat /\
    forall x y, (x < 20)%nat -> (y < 20)%nat ->
      pixel out x y = if in_rect 5 5 10 10 x y then black else white.
Proof.
  assert (Hok : image_ok square40) by (apply image_okb_sound; vm_compute; reflexivity).
  assert (Hop : opaque square40) by (apply opaqueb_sound; vm_compute; reflexivity).
  assert (Hrect : centred_rectangle square40 10 10 15 30)
    by (apply centred_rectangleb_sound; vm_compute; reflexivity).
  destruct (centred_rectangle_size square40 10 10 15 5 30 Hok
              ltac:(lia) ltac:(lia) Hrect)
    as (out & Htrim & Hw & Hh & Hpix).
  exists out. repeat split; try assumption.
  intros x y Hx Hy. rewrite (Hpix Hop x y) by (simpl; lia).
  destruct (in_rect 5 5 10 10 x y) eqn:Hin; [| reflexivity].
  apply in_rect_spec in Hin.
  unfold square40. rewrite pixel_mk_in by lia.
  now rewrite in_rect_true by lia.
Defined.

(** At margin 0 the pixel at (0, 0) lies in the rectangle, and it differs
    from itself by 0: only a negative tolerance counts it as foreground.  An
    image that is all rectangle is, for a tolerance T >= 0, an image without
    foreground at its corner, and not one of the images above. *)
Lemma margin_zero_tolerance (img : Image) (W H : nat) (tolerance : Z) :
  (1 <= W)%nat -> (1 <= H)%nat ->
  centred_rectangle img W H 0 tolerance -> tolerance < 0.
Proof.
  intros HW HH (Ew & Eh & Hrect).
  specialize (Hrect 0%nat 0%nat ltac:(lia) ltac:(lia)).
  rewrite in_rect_true in Hrect by lia.
  rewrite abs_diff_self in Hrect.
  assert (Hzero : luma zero_pixel = 0) by reflexivity. lia.
Qed.

(** ** A second pass over the framed result *)

Section FrameWindow.
Variables (img : Image) (bg : Pixel) (x0 y0 w h padding : nat).
Hypothesis Hok : image_ok img.
Hypothesis Hop : opaque img.
Hypothesis Hbg : pixel_ok bg.
Hypothesis Hbga : snd bg = 255.
Hypothesis Hx : (x0 + w <= width img)%nat.
Hypothesis Hy : (y0 + h <= height img)%nat.

Lemma frame_window_pixel (x y : nat) :
  (x < w + padding * 2)%nat -> (y < h + padding * 2)%nat ->
  pixel (frame_window img bg x0 y0 w h padding) x y =
  if in_rect padding padding w h x y
  then pixel img (x - padding + x0) (y - padding + y0)
  else bg.
Proof. intros Hx' Hy'. unfold frame_window. now rewrite pixel_mk_in. Qed.

Lemma frame_window_ok : image_ok (frame_window img bg x0 y0 w h padding).
Proof.
  unfold frame_window. split; [| split]; cbn [width height rows mode].
  - apply build_shaped.
  - apply build_Forall. intros x y Hx' Hy'.
    destruct (in_rect padding padding w h x y) eqn:Hin; [| exact Hbg].
    apply in_rect_spec in Hin. apply pixel_in_ok; (assumption || lia).
  - intros _. unfold opaque. cbn [rows].
    apply build_Forall. intros x y Hx' Hy'.
    destruct (in_rect padding padding w h x y) eqn:Hin; [| exact Hbga].
    apply in_rect_spec in Hin. apply pixel_in_opaque; (assumption || lia).
Qed.

Lemma frame_window_opaque : opaque (frame_window img bg x0 y0 w h padding).
Proof. now apply frame_window_ok. Qed.

(** Framing the window of a framed window again gives the same image. *)
Lemma frame_window_again :
  frame_window (frame_window img bg x0 y0 w h padding) bg
               padding padding w h padding =
  frame_window img bg x0 y0 w h padding.
Proof.
  unfold frame_window at 1 3. f_equal.
  apply build_ext. intros x y Hx' Hy'.
  destruct (in_rect padding padding w h x y) eqn:Hin; [| reflexivity].
  pose proof Hin as Hin'. apply in_rect_spec in Hin'.
  replace (x - padding + padding)%nat with x by lia.
  replace (y - padding + padding)%nat with y by lia.
  rewrite frame_window_pixel by assumption. now rewrite Hin.
Qed.
End FrameWindow.

(** The content box of a framed window is the window, when the box was the
    content box of the image the window was cut from. *)
Lemma content_box_of_frame (img : Image) (padding : nat) (tolerance : Z)
  (x0 y0 x1 y1 : nat) :
  image_ok img -> opaque img ->
  (0 < width img)%nat -> (0 < height img)%nat ->
  (1 <= padding)%nat -> 0 <= tolerance ->
  find_content_box img tolerance = Returns (Some (x0, y0, x1, y1)) ->
  find_content_box
    (frame_window img (pixel img 0 0) x0 y0 (x1 - x0) (y1 - y0) padding)
    tolerance =
  Returns (Some (padding, padding, padding + (x1 - x0), padding + (y1 - y0))%nat).
Proof.
  intros Hok Hop Hw Hh Hp Ht Hbox.
  apply find_content_box_some in Hbox; try assumption.
  destruct (mask_size img tolerance) as [Ew Eh].
  destruct Hbox as (Hx01 & Hx1 & Hy01 & Hy1 & Hc0 & Hc1 & Hr0 & Hr1 & Hin).
  rewrite Ew in Hx1, Hin. rewrite Eh in Hy1, Hin.
  apply column_has_data_true in Hc0, Hc1. apply row_has_data_true in Hr0, Hr1.
  rewrite Eh in Hc0, Hc1. rewrite Ew in Hr0, Hr1.
  set (W := (x1 - x0)%nat) in *. set (H := (y1 - y0)%nat) in *.
  set (bg := pixel img 0 0) in *.
  assert (Hbgok : pixel_ok bg) by now apply pixel_in_ok.
  assert (Hbga : snd bg = 255) by now apply pixel_in_opaque.
  set (out := frame_window img bg x0 y0 W H padding).
  assert (Hok2 : image_ok out) by (apply frame_window_ok; (assumption || lia)).
  assert (Hw2 : width out = (W + padding * 2)%nat) by reflexivity.
  assert (Hh2 : height out = (H + padding * 2)%nat) by reflexivity.
  assert (Hpix : forall x y, (x < width out)%nat -> (y < height out)%nat ->
            pixel out x y = if in_rect padding padding W H x y
                            then pixel img (x - padding + x0) (y - padding + y0)
                            else bg).
  { intros x y Hx Hy. apply frame_window_pixel; lia. }
  assert (Hbg2 : pixel out 0 0 = bg).
  { rewrite Hpix by lia. now rewrite in_rect_false by lia. }
  destruct (mask_size out tolerance) as [Ew2 Eh2].
  assert (Hnz : forall x y, (x < width out)%nat -> (y < height out)%nat ->
            nonzero (content_mask (convert_RGBA out) (pixel out 0 0) tolerance) x y =
            if in_rect padding padding W H x y
            then nonzero (content_mask (convert_RGBA img) bg tolerance)
                         (x - padding + x0) (y - padding + y0)
            else false).
  { intros x y Hx Hy. rewrite mask_nonzero by (assumption || lia).
    rewrite Hbg2, Hpix by assumption.
    destruct (in_rect padding padding W H x y) eqn:Hin2.
    - apply in_rect_spec in Hin2.
      unfold bg. rewrite mask_nonzero by (assumption || lia). reflexivity.
    - now apply is_foreground_self. }
  apply find_content_box_some; [assumption | lia | lia |].
  unfold tight_box. rewrite Ew2, Eh2, Hw2, Hh2.
  repeat (split; [lia |]).
  split; [| split; [| split; [| split]]].
  - destruct Hc0 as (y & Hy & Hdata).
    destruct (Hin x0 y ltac:(lia) Hy Hdata) as [_ Hyr].
    apply column_has_data_true. exists (y - y0 + padding)%nat.
    rewrite Eh2, Hh2. split; [lia |].
    rewrite Hnz by lia. rewrite in_rect_true by lia.
    replace (padding - padding + x0)%nat with x0 by lia.
    replace (y - y0 + padding - padding + y0)%nat with y by lia.
    exact Hdata.
  - destruct Hc1 as (y & Hy & Hdata).
    destruct (Hin (x1 - 1)%nat y ltac:(lia) Hy Hdata) as [_ Hyr].
    apply column_has_data_true. exists (y - y0 + padding)%nat.
    rewrite Eh2, Hh2. split; [lia |].
    rewrite Hnz by lia. rewrite in_rect_true by lia.
    replace (padding + W - 1 - padding + x0)%nat with (x1 - 1)%nat by lia.
    replace (y - y0 + padding - padding + y0)%nat with y by lia.
    exact Hdata.
  - destruct Hr0 as (x & Hx & Hdata).
    destruct (Hin x y0 Hx ltac:(lia) Hdata) as [Hxr _].
    apply row_has_data_true. exists (x - x0 + padding)%nat.
    rewrite Ew2, Hw2. split; [lia |].
    rewrite Hnz by lia. rewrite in_rect_true by lia.
    replace (padding - padding + y0)%nat with y0 by lia.
    replace (x - x0 + padding - padding + x0)%nat with x by lia.
    exact Hdata.
  - destruct Hr1 as (x & Hx & Hdata).
    destruct (Hin x (y1 - 1)%nat Hx ltac:(lia) Hdata) as [Hxr _].
    apply row_has_data_true. exists (x - x0 + padding)%nat.
    rewrite Ew2, Hw2. split; [lia |].
    rewrite Hnz by lia. rewrite in_rect_true by lia.
    replace (padding + H - 1 - padding + y0)%nat with (y1 - 1)%nat by lia.
    replace (x - x0 + padding - padding + x0)%nat with x by lia.
    exact Hdata.
  - intros x y Hx Hy Hdata. rewrite Hnz in Hdata by lia.
    destruct (in_rect padding padding W H x y) eqn:Hin2; [| discriminate].
    apply in_rect_spec in Hin2. lia.
Qed.

(** ** Idempotence *)

(** C1, as amended: for an opaque image, a padding of at least one pixel and
    a non-negative tolerance, normalising the normalised image returns it
    unchanged. *)
Theorem normalize_idempotent_opaque (img : Image) (padding : nat) (tolerance : Z) :
  image_ok img -> opaque img ->
  (0 < width img)%nat -> (0 < height img)%nat ->
  (1 <= padding)%nat -> 0 <= tolerance ->
  exists out,
    trim_and_expand_border_to_content img padding tolerance = Returns out /\
    trim_and_expand_border_to_content out padding tolerance = Returns out.
Proof.
  intros Hok Hop Hw Hh Hp Ht.
  destruct (find_content_box img tolerance) as [[box |] | e] eqn:Hbox.
  - (* a content box: the result is the framed window *)
    destruct box as [[[x0 y0] x1] y1].
    pose proof (trim_opaque_box img padding tolerance x0 y0 x1 y1
                  Hok Hop Hw Hh Hbox) as Hfirst.
    pose proof (content_box_of_frame img padding tolerance x0 y0 x1 y1
                  Hok Hop Hw Hh Hp Ht Hbox) as Hbox2.
    apply find_content_box_some in Hbox; try assumption.
    destruct (mask_size img tolerance) as [Ew Eh].
    destruct Hbox as (Hx01 & Hx1 & Hy01 & Hy1 & _).
    rewrite Ew in Hx1. rewrite Eh in Hy1.
    assert (Hbgok : pixel_ok (pixel img 0 0)) by now apply pixel_in_ok.
    assert (Hbga : snd (pixel img 0 0) = 255) by now apply pixel_in_opaque.
    set (out := frame_window img (pixel img 0 0) x0 y0 (x1 - x0) (y1 - y0) padding)
      in *.
    assert (Hok2 : image_ok out) by (apply frame_window_ok; (assumption || lia)).
    assert (Hop2 : opaque out) by (apply frame_window_opaque; (assumption || lia)).
    assert (Hbg2 : pixel out 0 0 = pixel img 0 0).
    { unfold out. rewrite frame_window_pixel by lia.
      now rewrite in_rect_false by lia. }
    exists out. split; [exact Hfirst |].
    rewrite (trim_opaque_box out padding tolerance _ _ _ _ Hok2 Hop2
               ltac:(unfold out; cbn [width frame_window]; lia)
               ltac:(unfold out; cbn [height frame_window]; lia) Hbox2).
    f_equal. rewrite Hbg2.
    replace (padding + (x1 - x0) - padding)%nat with (x1 - x0)%nat by lia.
    replace (padding + (y1 - y0) - padding)%nat with (y1 - y0)%nat by lia.
    apply frame_window_again; lia.
  - (* no content: the result is the "RGBA" conversion, again without content *)
    exists (convert_RGBA img). split; [now apply trim_none |].
    destruct (convert_RGBA_size img) as [Ew Eh].
    pose proof (convert_RGBA_ok img Hok) as Hok'.
    rewrite trim_none; [now rewrite convert_RGBA_idem |].
    apply find_content_box_none_iff; [assumption | lia | lia |].
    rewrite Ew, Eh. intros x y Hx Hy.
    rewrite !convert_RGBA_pixel_same by assumption.
    exact (proj1 (find_content_box_none_iff img tolerance Hok Hw Hh) Hbox x y Hx Hy).
  - (* the sampled pixel exists, so nothing is raised *)
    rewrite find_content_box_mask in Hbox by assumption. discriminate.
Qed.

Lemma normalize_idempotent_opaque_witness :
  exists out,
    trim_and_expand_border_to_content strip 1 30 = Returns out /\
    trim_and_expand_border_to_content out 1 30 = Returns out.
Proof.
  apply (normalize_idempotent_opaque strip 1 30).
  - apply image_okb_sound. reflexivity.
  - apply opaqueb_sound. reflexivity.
  - simpl. lia.
  - simpl. lia.
  - lia.
  - lia.
Defined.

(** C1 fails as stated.  With padding 0 the corner of the result is content,
    and the second pass crops further; with a transparent pixel on the edge
    of the content the first pass blends it into the background, and the
    second pass crops it away. *)
Lemma normalize_not_idempotent :
  (exists r1 r2,
      trim_and_expand_border_to_content strip 0 30 = Returns r1 /\
      trim_and_expand_border_to_content r1 0 30 = Returns r2 /\
      width r1 = 2%nat /\ width r2 = 1%nat) /\
  (exists r1 r2,
      trim_and_expand_border_to_content ghost_strip 1 30 = Returns r1 /\
      trim_and_expand_border_to_content r1 1 30 = Returns r2 /\
      width r1 = 4%nat /\ width r2 = 3%nat).
Proof.
  split.
  - exists (mkImage RGB 2 1 [[red; blue]]), (mkImage RGB 1 1 [[blue]]).
    repeat split; reflexivity.
  - exists (mkImage RGB 4 3 [[white; white; white; white];
                             [white; white; black; white];
                             [white; white; white; white]]),
           (mkImage RGB 3 3 [[white; white; white];
                             [white; black; white];
                             [white; white; white]]).
    repeat split; reflexivity.
Qed.

(** ** The fingerprint *)

Lemma convert_RGB_mode (im : Image) : mode (convert_RGB im) = RGB.
Proof. unfold convert_RGB. now destruct (mode im) eqn:E. Qed.

Lemma convert_RGB_idem (im : Image) : convert_RGB (convert_RGB im) = convert_RGB im.
Proof. unfold convert_RGB at 1. now rewrite convert_RGB_mode. Qed.

Lemma get_image_hash_convert_RGB (im : Image) :
  get_image_hash (convert_RGB im) = get_image_hash im.
Proof. unfold get_image_hash. now rewrite convert_RGB_idem. Qed.

(** The canonical form of a well-formed image: its colour bands, opaque. *)
Lemma convert_RGB_closed (im : Image) :
  image_ok im ->
  convert_RGB im =
  mkImage RGB (width im) (height im)
    (Raster.build (width im) (height im)
       (fun x y => set_alpha 255 (pixel im x y))).
Proof.
  intros Hok. unfold convert_RGB. destruct (mode im) eqn:Hm; [| reflexivity].
  pose proof Hok as (Hs & _ & Hop). specialize (Hop Hm).
  destruct im as [m w h rs]. cbn [mode width height rows] in *. subst m.
  f_equal. rewrite <- (build_cell zero_pixel w h rs Hs) at 1.
  apply build_ext. intros x y Hx Hy. symmetry.
  apply set_alpha_opaque.
  now apply (pixel_in_opaque (mkImage RGB w h rs)).
Qed.

Lemma set_alpha_colour (a : Z) (p q : Pixel) :
  colour p = colour q -> set_alpha a p = set_alpha a q.
Proof.
  destruct p as [[[r1 g1] b1] a1], q as [[[r2 g2] b2] a2].
  unfold colour, set_alpha. now intros [= -> -> ->].
Qed.

Lemma same_colours_convert_RGB (a b : Image) :
  image_ok a -> image_ok b -> same_colours a b ->
  convert_RGB a = convert_RGB b.
Proof.
  intros Ha Hb (Hw & Hh & Hcol).
  rewrite !convert_RGB_closed by assumption. rewrite <- Hw, <- Hh.
  f_equal. apply build_ext. intros x y Hx Hy.
  apply set_alpha_colour. now apply Hcol.
Qed.

(** C5: the fingerprint is a function of the canonical "RGB" pixel bytes
    alone, so images whose canonical bytes agree have equal fingerprints; in
    particular two well-formed images with the same size and the same colour
    bands, whatever their modes and alpha bands, have the same canonical
    image and equal fingerprints. *)
Theorem fingerprint_format_independent (a b : Image) :
  (tobytes (convert_RGB a) = tobytes (convert_RGB b) ->
   get_image_hash a = get_image_hash b) /\
  (image_ok a -> image_ok b -> same_colours a b ->
   convert_RGB a = convert_RGB b /\ get_image_hash a = get_image_hash b).
Proof.
  split.
  - intros Hbytes. unfold get_image_hash. now rewrite Hbytes.
  - intros Ha Hb Hsame.
    pose proof (same_colours_convert_RGB a b Ha Hb Hsame) as Heq.
    split; [exact Heq |].
    unfold get_image_hash. now rewrite Heq.
Qed.

Lemma fingerprint_format_independent_witness :
  get_image_hash ghost_strip = get_image_hash solid_strip /\
  get_image_hash solid_strip = "a20054890905a4e523cd5e5ef0afa49c"%string.
Proof.
  split; [| vm_compute; reflexivity].
  apply (proj2 (fingerprint_format_independent ghost_strip solid_strip)).
  - apply image_okb_sound. reflexivity.
  - apply image_okb_sound. reflexivity.
  - apply same_coloursb_sound. reflexivity.
Defined.

(** The digest agrees with the RFC 1321 test suite. *)
Example md5_test_suite :
  MD5.hexdigest [] = "d41d8cd98f00b204e9800998ecf8427e"%string /\
  MD5.hexdigest (bytes_of_string "abc") = "900150983cd24fb0d6963f7d28e17f72"%string /\
  MD5.hexdigest (bytes_of_string "message digest") =
    "f96b697d7cb7938d525a2f31aaf161d0"%string /\
  MD5.hexdigest (bytes_of_string
    "12345678901234567890123456789012345678901234567890123456789012345678901234567890")
  = "57edf4a22be3c955ac49da2e2107b67a"%string.
Proof. vm_compute. repeat split. Qed.

(** ** Writing to the clipboard *)

(** What a write does, by the first call that fails. *)
Lemma send_image_to_clipboard_cases (flt : Faults) (img : Image) (st : State) :
  send_image_to_clipboard flt img st =
  if encode_fails flt then (Raises EncodeError, st)
  else if open_fails flt then (Raises ClipboardError, st)
  else if empty_fails flt then
    (Raises ClipboardError,
     mkState (clipboard st) false (written st) (last_image_hash st))
  else if set_fails flt then
    (Raises ClipboardError,
     mkState CbEmpty false (written st) (last_image_hash st))
  else
    (Returns tt,
     mkState (CbImage (convert_RGB img)) false
             (convert_RGB img :: written st) (last_image_hash st)).
Proof.
  unfold send_image_to_clipboard, encode_dib, bind, try_finally,
    OpenClipboard, EmptyClipboard, SetClipboardData, CloseClipboard,
    raise, ret, set_open, set_clipboard.
  destruct flt as [fg fp fe fo fm fs]; cbn [encode_fails open_fails empty_fails set_fails].
  destruct fe; [reflexivity |].
  destruct fo; [reflexivity |].
  destruct fm; [reflexivity |].
  destruct fs; reflexivity.
Qed.

(** C8, as amended: a write that fails while encoding the image or while
    opening or emptying the clipboard leaves the clipboard content untouched;
    a write that fails in [SetClipboardData], after the clipboard has been
    emptied, leaves it empty.  No failed write stores anything, and the
    clipboard never holds a partly written image. *)
Theorem failed_write_effect (flt : Faults) (img : Image) (st st' : State) (e : PyExn) :
  send_image_to_clipboard flt img st = (Raises e, st') ->
  written st' = written st /\
  last_image_hash st' = last_image_hash st /\
  ((encode_fails flt || open_fails flt || empty_fails flt)%bool = true ->
   clipboard st' = clipboard st) /\
  ((encode_fails flt || open_fails flt || empty_fails flt)%bool = false ->
   set_fails flt = true /\ clipboard st' = CbEmpty).
Proof.
  rewrite send_image_to_clipboard_cases.
  destruct (encode_fails flt), (open_fails flt), (empty_fails flt),
    (set_fails flt); cbn [orb];
    intros [= <- <-]; cbn [written last_image_hash clipboard];
    repeat split; intros; auto; discriminate.
Qed.

Lemma failed_write_effect_witness :
  clipboard (snd (send_image_to_clipboard (mkFaults false false false true false false)
                    blank (mkState (CbImage strip) false [] None)))
  = CbImage strip.
Proof.
  destruct (send_image_to_clipboard (mkFaults false false false true false false)
              blank (mkState (CbImage strip) false [] None)) as [r st'] eqn:Hsend.
  destruct r as [u | e]; [vm_compute in Hsend; discriminate Hsend |].
  destruct (failed_write_effect _ _ _ _ _ Hsend) as (_ & _ & Hkeep & _).
  apply Hkeep. reflexivity.
Defined.

(** C8 fails as stated: when [SetClipboardData] fails, the image that was on
    the clipboard is gone. *)
Lemma failed_write_clears_clipboard :
  send_image_to_clipboard set_fault blank (mkState (CbImage strip) false [] None)
  = (Raises ClipboardError, mkState CbEmpty false [] None) /\
  clipboard (snd (send_image_to_clipboard set_fault blank
                    (mkState (CbImage strip) false [] None)))
  <> CbImage strip.
Proof. split; [reflexivity | discriminate]. Qed.

(** ** One iteration of the loop *)

(** C10: when the body of the [try] block raises, wherever it does (reading
    the clipboard, normalising, writing), [last_image_hash] has the value it
    had when the iteration began, and the handler leaves it so. *)
Theorem failed_poll_keeps_last (flt : Faults) (PADDING : nat) (TOLERANCE : Z)
  (st st' : State) (e : PyExn) :
  poll flt PADDING TOLERANCE st = (Raises e, st') ->
  last_image_hash st' = last_image_hash st /\
  iteration flt PADDING TOLERANCE st = (Returns tt, st').
Proof.
  intros Hpoll. split.
  - revert Hpoll.
    unfold poll, bind, grabclipboard, read_last_image_hash, lift,
      pyperclip_paste, assign_last_image_hash, ret.
    destruct (grab_fails flt); cbv beta iota; [now intros [= _ <-] |].
    destruct (clipboard st) as [img | s |] eqn:Hcb; cbv beta iota.
    + destruct (hash_differs (get_image_hash img) (last_image_hash st));
        cbv beta iota; [| discriminate].
      destruct (trim_and_expand_border_to_content img PADDING TOLERANCE)
        as [processed_img | e']; cbv beta iota; [| now intros [= _ <-]].
      destruct (negb (get_image_hash processed_img =? get_image_hash img)%string);
        cbv beta iota; [| discriminate].
      rewrite send_image_to_clipboard_cases.
      destruct (encode_fails flt), (open_fails flt), (empty_fails flt),
        (set_fails flt); intros [= _ <-]; reflexivity.
    + destruct (paste_fails flt); cbv beta iota; [now intros [= _ <-] |].
      rewrite Hcb. destruct (s =? "")%string; cbv beta; discriminate.
    + destruct (paste_fails flt); cbv beta iota; [now intros [= _ <-] |].
      rewrite Hcb. cbn [String.eqb]. discriminate.
  - unfold iteration, try_except. now rewrite Hpoll.
Qed.

Lemma failed_poll_keeps_last_witness :
  exists e st',
    poll set_fault 1 30 (mkState (CbImage strip) false [] (Some "0123"%string))
    = (Raises e, st') /\
    clipboard st' = CbEmpty /\
    last_image_hash st' = Some "0123"%string.
Proof.
  assert (Hpoll :
    poll set_fault 1 30 (mkState (CbImage strip) false [] (Some "0123"%string))
    = (Raises ClipboardError, mkState CbEmpty false [] (Some "0123"%string)))
    by (vm_compute; reflexivity).
  exists ClipboardError, (mkState CbEmpty false [] (Some "0123"%string)).
  split; [exact Hpoll |]. split; [reflexivity |].
  exact (proj1 (failed_poll_keeps_last _ _ _ _ _ _ Hpoll)).
Defined.

(** The iteration when the clipboard holds an image and can be read. *)
Lemma iteration_image (flt : Faults) (PADDING : nat) (TOLERANCE : Z)
  (st : State) (img : Image) :
  clipboard st = CbImage img -> grab_fails flt = false ->
  iteration flt PADDING TOLERANCE st =
  if hash_differs (get_image_hash img) (last_image_hash st) then
    match trim_and_expand_border_to_content img PADDING TOLERANCE with
    | Raises _ => (Returns tt, st)
    | Returns processed_img =>
        if (get_image_hash processed_img =? get_image_hash img)%string then
          (Returns tt,
           mkState (clipboard st) (clipboard_open st) (written st)
                   (Some (get_image_hash img)))
        else
          match send_image_to_clipboard flt processed_img st with
          | (Returns _, st') =>
              (Returns tt,
               mkState (clipboard st') (clipboard_open st') (written st')
                       (Some (get_image_hash processed_img)))
          | (Raises _, st') => (Returns tt, st')
          end
    end
  else (Returns tt, st).
Proof.
  intros Hcb Hgrab.
  destruct st as [cb op ws last]. cbn [clipboard] in Hcb. subst cb.
  unfold iteration, try_except, poll, bind, grabclipboard,
    read_last_image_hash, lift, assign_last_image_hash, ret.
  rewrite Hgrab. cbn [clipboard clipboard_open written last_image_hash].
  destruct (hash_differs (get_image_hash img) last);
    cbv beta iota; [| reflexivity].
  destruct (trim_and_expand_border_to_content img PADDING TOLERANCE)
    as [processed_img | e]; cbv beta iota; [| reflexivity].
  destruct (get_image_hash processed_img =? get_image_hash img)%string;
    cbn [negb]; cbv beta iota; [reflexivity |].
  destruct (send_image_to_clipboard flt processed_img _) as [[u | e] st'];
    reflexivity.
Qed.

(** The iteration when the clipboard cannot be read. *)
Lemma iteration_grab_fails (flt : Faults) (PADDING : nat) (TOLERANCE : Z)
  (st : State) :
  grab_fails flt = true -> iteration flt PADDING TOLERANCE st = (Returns tt, st).
Proof.
  intros Hgrab. unfold iteration, try_except, poll, bind, grabclipboard.
  now rewrite Hgrab.
Qed.

(** The iteration when the clipboard holds the empty text. *)
Lemma iteration_empty_text (flt : Faults) (PADDING : nat) (TOLERANCE : Z)
  (st : State) :
  clipboard st = CbText EmptyString ->
  grab_fails flt = false -> paste_fails flt = false ->
  iteration flt PADDING TOLERANCE st =
  (Returns tt, mkState (clipboard st) (clipboard_open st) (written st) None).
Proof.
  intros Hcb Hgrab Hpaste.
  destruct st as [cb op ws last]. cbn [clipboard] in Hcb. subst cb.
  unfold iteration, try_except, poll, bind, grabclipboard, pyperclip_paste,
    assign_last_image_hash.
  rewrite Hgrab. cbn [clipboard]. rewrite Hpaste. reflexivity.
Qed.

Lemma hash_differs_same (h : string) : hash_differs h (Some h) = false.
Proof. unfold hash_differs. now rewrite String.eqb_refl. Qed.

(** An image whose fingerprint is the remembered one is skipped. *)
Lemma iteration_seen (flt : Faults) (PADDING : nat) (TOLERANCE : Z)
  (st : State) (img : Image) :
  clipboard st = CbImage img ->
  last_image_hash st = Some (get_image_hash img) ->
  iteration flt PADDING TOLERANCE st = (Returns tt, st).
Proof.
  intros Hcb Hlast. destruct (grab_fails flt) eqn:Hgrab.
  - now apply iteration_grab_fails.
  - rewrite (iteration_image _ _ _ _ img Hcb Hgrab).
    now rewrite Hlast, hash_differs_same.
Qed.

(** The first poll of a fresh loop that finds the image [A], nothing failing. *)
Lemma first_poll (PADDING : nat) (TOLERANCE : Z) (A : Image) (ws : list Image) :
  snd (iteration no_faults PADDING TOLERANCE (mkState (CbImage A) false ws None)) =
  match trim_and_expand_border_to_content A PADDING TOLERANCE with
  | Raises _ => mkState (CbImage A) false ws None
  | Returns P =>
      if (get_image_hash P =? get_image_hash A)%string then
        mkState (CbImage A) false ws (Some (get_image_hash A))
      else
        mkState (CbImage (convert_RGB P)) false (convert_RGB P :: ws)
                (Some (get_image_hash P))
  end.
Proof.
  rewrite (iteration_image no_faults PADDING TOLERANCE
             (mkState (CbImage A) false ws None) A eq_refl eq_refl).
  cbn [hash_differs last_image_hash].
  destruct (trim_and_expand_border_to_content A PADDING TOLERANCE) as [P | e];
    [| reflexivity].
  destruct (get_image_hash P =? get_image_hash A)%string; [reflexivity |].
  rewrite send_image_to_clipboard_cases. reflexivity.
Qed.

(** ** Sequences of polls *)

#[local] Opaque get_image_hash trim_and_expand_border_to_content.

(** C6, as amended: an iteration that finds an image whose fingerprint equals
    [last_image_hash] writes nothing and changes nothing.  So when an image A
    appears and the clipboard is then left alone, the second poll is a no-op;
    in total there is one write when normalising changes A's fingerprint and
    none when it does not (or when normalising raises). *)
Theorem seen_image_not_rewritten :
  (forall flt PADDING TOLERANCE st img,
      clipboard st = CbImage img ->
      last_image_hash st = Some (get_image_hash img) ->
      iteration flt PADDING TOLERANCE st = (Returns tt, st)) /\
  (forall PADDING TOLERANCE A flt2,
      let st1 := main PADDING TOLERANCE (CbImage A) [quiet] in
      let st2 := main PADDING TOLERANCE (CbImage A) [quiet; mkTick None flt2] in
      st2 = st1 /\
      length (written st2) =
      match trim_and_expand_border_to_content A PADDING TOLERANCE with
      | Returns P =>
          if (get_image_hash P =? get_image_hash A)%string then 0%nat else 1%nat
      | Raises _ => 0%nat
      end).
Proof.
  split; [exact iteration_seen |].
  intros PADDING TOLERANCE A flt2 st1 st2.
  assert (Hst2 : st2 = snd (iteration flt2 PADDING TOLERANCE st1)) by reflexivity.
  assert (Hst1 : st1 = snd (iteration no_faults PADDING TOLERANCE
                              (mkState (CbImage A) false [] None))) by reflexivity.
  rewrite first_poll in Hst1.
  assert (Hnoop : st2 = st1).
  { rewrite Hst2, Hst1.
    destruct (trim_and_expand_border_to_content A PADDING TOLERANCE) as [P | e]
      eqn:Htrim.
    - destruct (get_image_hash P =? get_image_hash A)%string.
      + now rewrite (iteration_seen flt2 PADDING TOLERANCE
                       (mkState (CbImage A) false [] (Some (get_image_hash A))) A).
      + rewrite (iteration_seen flt2 PADDING TOLERANCE
                   (mkState (CbImage (convert_RGB P)) false [convert_RGB P]
                            (Some (get_image_hash P))) (convert_RGB P));
          [reflexivity | reflexivity |].
        cbn [last_image_hash]. rewrite get_image_hash_convert_RGB. reflexivity.
    - destruct (grab_fails flt2) eqn:Hgrab.
      + now rewrite iteration_grab_fails.
      + rewrite (iteration_image flt2 PADDING TOLERANCE
                   (mkState (CbImage A) false [] None) A eq_refl Hgrab).
        cbn [hash_differs last_image_hash]. now rewrite Htrim. }
  split; [exact Hnoop |].
  rewrite Hnoop, Hst1.
  destruct (trim_and_expand_border_to_content A PADDING TOLERANCE) as [P | e];
    [| reflexivity].
  now destruct (get_image_hash P =? get_image_hash A)%string.
Qed.

Lemma seen_image_not_rewritten_witness :
  iteration set_fault 10 30
    (mkState (CbImage blank) false [] (Some (get_image_hash blank)))
  = (Returns tt, mkState (CbImage blank) false [] (Some (get_image_hash blank))) /\
  main 1 30 (CbImage strip) [quiet; mkTick None no_faults] =
  main 1 30 (CbImage strip) [quiet] /\
  length (written (main 1 30 (CbImage strip) [quiet; mkTick None no_faults])) = 1%nat.
Proof.
  destruct seen_image_not_rewritten as [Hskip Htwo].
  split; [apply (Hskip set_fault 10%nat 30 _ blank); reflexivity |].
  pose proof (Htwo 1%nat 30 strip no_faults) as H. cbv zeta in H.
  destruct H as [Hnoop Hcount].
  split; [exact Hnoop |].
  rewrite Hcount. vm_compute. reflexivity.
Defined.

(** C6 fails as stated: a uniform image appears and stays on the clipboard
    for two polls, and nothing is ever written. *)
Lemma unchanged_image_never_written :
  length (written (main 10 30 (CbImage blank) [quiet; quiet])) = 0%nat /\
  length (written (main 10 30 (CbImage blank) [quiet; quiet])) <> 1%nat.
Proof. split; [vm_compute; reflexivity | vm_compute; discriminate]. Qed.

(** C7: an iteration that finds the empty text on the clipboard resets
    [last_image_hash] to [None]; so when the image A is processed, the
    clipboard is cleared to the empty text and A is copied again, the third
    poll does what the first did: it normalises A again and repeats the
    first poll's write. *)
Theorem cleared_clipboard_resets :
  (forall flt PADDING TOLERANCE st,
      clipboard st = CbText EmptyString ->
      grab_fails flt = false -> paste_fails flt = false ->
      iteration flt PADDING TOLERANCE st =
      (Returns tt,
       mkState (clipboard st) (clipboard_open st) (written st) None)) /\
  (forall PADDING TOLERANCE A,
      let st1 := main PADDING TOLERANCE (CbImage A) [quiet] in
      let st2 := main PADDING TOLERANCE (CbImage A)
                   [quiet; mkTick (Some (CbText EmptyString)) no_faults] in
      let st3 := main PADDING TOLERANCE (CbImage A)
                   [quiet; mkTick (Some (CbText EmptyString)) no_faults;
                    mkTick (Some (CbImage A)) no_faults] in
      last_image_hash st2 = None /\
      clipboard st3 = clipboard st1 /\
      last_image_hash st3 = last_image_hash st1 /\
      written st3 = written st1 ++ written st1).
Proof.
  split; [exact iteration_empty_text |].
  intros PADDING TOLERANCE A st1 st2 st3.
  assert (Hst1 : st1 = snd (iteration no_faults PADDING TOLERANCE
                              (mkState (CbImage A) false [] None))) by reflexivity.
  assert (Hst2 : st2 = snd (iteration no_faults PADDING TOLERANCE
                              (set_clipboard (CbText EmptyString) st1)))
    by reflexivity.
  assert (Hst3 : st3 = snd (iteration no_faults PADDING TOLERANCE
                              (set_clipboard (CbImage A) st2))) by reflexivity.
  rewrite (iteration_empty_text no_faults PADDING TOLERANCE
             (set_clipboard (CbText EmptyString) st1) eq_refl eq_refl eq_refl)
    in Hst2.
  cbn [snd set_clipboard clipboard clipboard_open written] in Hst2.
  assert (Hopen : clipboard_open st1 = false).
  { rewrite Hst1, first_poll.
    destruct (trim_and_expand_border_to_content A PADDING TOLERANCE) as [P | e];
      [| reflexivity].
    now destruct (get_image_hash P =? get_image_hash A)%string. }
  rewrite Hopen in Hst2.
  split; [now rewrite Hst2 |].
  rewrite Hst2 in Hst3. unfold set_clipboard in Hst3.
  cbn [clipboard clipboard_open written last_image_hash] in Hst3.
  rewrite first_poll in Hst3. rewrite Hst3.
  rewrite first_poll in Hst1. rewrite Hst1.
  destruct (trim_and_expand_border_to_content A PADDING TOLERANCE) as [P | e];
    [| now repeat split].
  destruct (get_image_hash P =? get_image_hash A)%string; now repeat split.
Qed.

Lemma cleared_clipboard_resets_witness :
  last_image_hash
    (snd (iteration no_faults 10 30
            (mkState (CbText EmptyString) false [] (Some "0123"%string)))) = None /\
  length (written (main 1 30 (CbImage strip)
                     [quiet; mkTick (Some (CbText EmptyString)) no_faults;
                      mkTick (Some (CbImage strip)) no_faults])) = 2%nat.
Proof.
  destruct cleared_clipboard_resets as [Hreset Hagain].
  split.
  - rewrite (Hreset no_faults 10%nat 30
               (mkState (CbText EmptyString) false [] (Some "0123"%string))
               eq_refl eq_refl eq_refl).
    reflexivity.
  - pose proof (Hagain 1%nat 30 strip) as H. cbv zeta in H.
    destruct H as (_ & _ & _ & Hwritten).
    rewrite Hwritten, length_app. vm_compute. reflexivity.
Defined.

(** * Further properties of the script *)

(** ** Cropping: [trim_image_borders] and [trim_to_content] *)

#[local] Transparent get_image_hash trim_and_expand_border_to_content.

Lemma crop_pixel (img : Image) (x0 y0 x1 y1 x y : nat) :
  (x < x1 - x0)%nat -> (y < y1 - y0)%nat ->
  pixel (crop img (x0, y0, x1, y1)) x y = pixel img (x + x0) (y + y0).
Proof. intros Hx Hy. unfold crop. now rewrite pixel_mk_in. Qed.

Lemma crop_ok (img : Image) (x0 y0 x1 y1 : nat) :
  image_ok img -> opaque img ->
  (x1 <= width img)%nat -> (y1 <= height img)%nat ->
  image_ok (crop img (x0, y0, x1, y1)).
Proof.
  intros Hok Hop Hx1 Hy1. unfold crop.
  split; [| split]; cbn [width height rows mode].
  - apply build_shaped.
  - apply build_Forall. intros x y Hx Hy. apply pixel_in_ok; (assumption || lia).
  - intros _. unfold opaque. cbn [rows].
    apply build_Forall. intros x y Hx Hy.
    apply pixel_in_opaque; (assumption || lia).
Qed.

(** The whole of a well-formed image, cropped, is the image. *)
Lemma crop_whole (img : Image) :
  image_ok img -> crop img (0, 0, width img, height img)%nat = img.
Proof.
  intros (Hs & _). unfold crop. rewrite !Nat.sub_0_r.
  destruct img as [m w h rs]. cbn [mode width height rows] in *. f_equal.
  transitivity (Raster.build w h (Raster.cell zero_pixel rs));
    [| exact (build_cell zero_pixel w h rs Hs)].
  apply build_ext. intros x y Hx Hy. unfold pixel. cbn [rows].
  now rewrite !Nat.add_0_r.
Qed.

(** X1: [trim_image_borders] raises exactly when the border takes more than
    the image has; otherwise the result keeps the mode, is smaller by twice
    the border each way, and shows the input's pixels shifted by the
    border. *)
Theorem trim_image_borders_result (img : Image) (border_width : nat) :
  (trim_image_borders img border_width = None <->
   (width img < 2 * border_width)%nat \/ (height img < 2 * border_width)%nat) /\
  (forall out, trim_image_borders img border_width = Some out ->
     mode out = mode img /\
     width out = (width img - 2 * border_width)%nat /\
     height out = (height img - 2 * border_width)%nat /\
     forall x y, (x < width out)%nat -> (y < height out)%nat ->
       pixel out x y = pixel img (x + border_width) (y + border_width)).
Proof.
  unfold trim_image_borders, ImageOps_crop.
  destruct ((width img <? 2 * border_width)%nat ||
            (height img <? 2 * border_width)%nat)%bool eqn:E.
  - split; [split; [intros _ | reflexivity] | discriminate].
    apply orb_true_iff in E.
    destruct E as [E | E]; apply Nat.ltb_lt in E; [left | right]; exact E.
  - apply orb_false_iff in E. destruct E as [E1 E2].
    apply Nat.ltb_ge in E1, E2.
    split; [split; [discriminate | intros [H | H]; lia] |].
    intros out [= <-]. cbn [crop mode width height].
    repeat split; try lia.
    intros x y Hx Hy. apply crop_pixel; lia.
Qed.

Lemma trim_to_content_some (img : Image) (padding : nat) (tolerance : Z)
  (x0 y0 x1 y1 : nat) :
  find_content_box img tolerance = Returns (Some (x0, y0, x1, y1)) ->
  trim_to_content img padding tolerance =
  Returns (crop (convert_RGBA img)
             ((x0 - padding)%nat, (y0 - padding)%nat,
              Nat.min (width img) (x1 + padding),
              Nat.min (height img) (y1 + padding))).
Proof.
  unfold find_content_box, trim_to_content.
  destruct (getpixel (convert_RGBA img) 0 0) as [bg | e]; [| discriminate].
  intros [= ->]. destruct (convert_RGBA_size img) as [-> ->].
  replace (Z.to_nat (Z.max 0 (Z.of_nat x0 - Z.of_nat padding)))
    with (x0 - padding)%nat by lia.
  replace (Z.to_nat (Z.max 0 (Z.of_nat y0 - Z.of_nat padding)))
    with (y0 - padding)%nat by lia.
  reflexivity.
Qed.

(** Without a content box the two trimmers do the same. *)
Lemma trim_to_content_no_box (img : Image) (padding : nat) (tolerance : Z) :
  (forall box, find_content_box img tolerance <> Returns (Some box)) ->
  trim_to_content img padding tolerance =
  trim_and_expand_border_to_content img padding tolerance.
Proof.
  unfold find_content_box, trim_to_content, trim_and_expand_border_to_content.
  destruct (getpixel (convert_RGBA img) 0 0) as [bg | e]; [| reflexivity].
  destruct (getbbox _) as [box |]; [| reflexivity].
  intros Hno. now destruct (Hno box).
Qed.

(** X2: trimming the padding off a normalised opaque image leaves exactly the
    content: the pixels of the content box, as an "RGB" image. *)
Theorem trim_undoes_padding (img : Image) (padding : nat) (tolerance : Z)
  (x0 y0 x1 y1 : nat) :
  image_ok img -> opaque img ->
  (0 < width img)%nat -> (0 < height img)%nat ->
  find_content_box img tolerance = Returns (Some (x0, y0, x1, y1)) ->
  exists out,
    trim_and_expand_border_to_content img padding tolerance = Returns out /\
    trim_image_borders out padding =
    Some (convert_RGB (crop img (x0, y0, x1, y1))).
Proof.
  intros Hok Hop Hw Hh Hbox.
  pose proof (trim_opaque_box img padding tolerance x0 y0 x1 y1
                Hok Hop Hw Hh Hbox) as Hfirst.
  apply find_content_box_some in Hbox; try assumption.
  destruct (mask_size img tolerance) as [Ew Eh].
  destruct Hbox as (Hx01 & Hx1 & Hy01 & Hy1 & _).
  rewrite Ew in Hx1. rewrite Eh in Hy1.
  eexists. split; [exact Hfirst |].
  unfold trim_image_borders, ImageOps_crop, frame_window. cbn [width height].
  replace ((x1 - x0 + padding * 2 <? 2 * padding)%nat) with false
    by (symmetry; apply Nat.ltb_ge; lia).
  replace ((y1 - y0 + padding * 2 <? 2 * padding)%nat) with false
    by (symmetry; apply Nat.ltb_ge; lia).
  cbn [orb]. f_equal.
  rewrite (convert_RGB_closed (crop img (x0, y0, x1, y1)))
    by (apply crop_ok; assumption).
  unfold crop at 1. cbn [mode width height].
  replace (x1 - x0 + padding * 2 - padding - padding)%nat with (x1 - x0)%nat by lia.
  replace (y1 - y0 + padding * 2 - padding - padding)%nat with (y1 - y0)%nat by lia.
  f_equal. apply build_ext. intros x y Hx Hy.
  cbn [crop width height] in Hx, Hy.
  rewrite pixel_mk_in by lia.
  rewrite in_rect_true by lia.
  rewrite crop_pixel by assumption.
  replace (x + padding - padding + x0)%nat with (x + x0)%nat by lia.
  replace (y + padding - padding + y0)%nat with (y + y0)%nat by lia.
  symmetry. apply set_alpha_opaque. apply pixel_in_opaque; (assumption || lia).
Qed.

Lemma trim_undoes_padding_witness :
  exists out,
    trim_and_expand_border_to_content strip 7 30 = Returns out /\
    trim_image_borders out 7 = Some strip_content.
Proof.
  apply (trim_undoes_padding strip 7 30 1 0 3 1).
  - apply image_okb_sound. reflexivity.
  - apply opaqueb_sound. reflexivity.
  - simpl. lia.
  - simpl. lia.
  - reflexivity.
Defined.

(** X3: [trim_to_content] returns a window of the input: every pixel of the
    result is the input pixel at the shifted position, the window lies
    inside the image, holds every foreground pixel, and is at most
    [padding] wider than the content box on each side. *)
Theorem trim_to_content_window (img : Image) (padding : nat) (tolerance : Z)
  (x0 y0 x1 y1 : nat) :
  image_ok img -> (0 < width img)%nat -> (0 < height img)%nat ->
  find_content_box img tolerance = Returns (Some (x0, y0, x1, y1)) ->
  exists out,
    trim_to_content img padding tolerance = Returns out /\
    mode out = RGBA /\
    (x1 - x0 <= width out <= Nat.min (width img) (x1 - x0 + 2 * padding))%nat /\
    (y1 - y0 <= height out <= Nat.min (height img) (y1 - y0 + 2 * padding))%nat /\
    (forall x y, (x < width out)%nat -> (y < height out)%nat ->
       pixel out x y = pixel img (x + (x0 - padding)) (y + (y0 - padding))) /\
    (forall u v, (u < width img)%nat -> (v < height img)%nat ->
       is_foreground (pixel img 0 0) tolerance (pixel img u v) = true ->
       (x0 - padding <= u < x0 - padding + width out)%nat /\
       (y0 - padding <= v < y0 - padding + height out)%nat).
Proof.
  intros Hok Hw Hh Hbox.
  rewrite (trim_to_content_some _ padding _ _ _ _ _ Hbox).
  apply find_content_box_some in Hbox; try assumption.
  destruct (mask_size img tolerance) as [Ew Eh].
  destruct Hbox as (Hx01 & Hx1 & Hy01 & Hy1 & _ & _ & _ & _ & Hin).
  rewrite Ew in Hx1, Hin. rewrite Eh in Hy1, Hin.
  eexists. split; [reflexivity |].
  cbn [crop mode width height].
  split; [apply convert_RGBA_mode |].
  split; [lia |]. split; [lia |]. split.
  - intros x y Hx Hy. rewrite pixel_mk_in by assumption.
    now apply convert_RGBA_pixel_same.
  - intros u v Hu Hv Hfg.
    rewrite <- mask_nonzero in Hfg by assumption.
    specialize (Hin u v Hu Hv Hfg). lia.
Qed.

Lemma trim_to_content_window_witness :
  exists out,
    trim_to_content wide_strip 1 30 = Returns out /\
    (2 <= width out <= 4)%nat /\ (1 <= height out <= 3)%nat /\
    pixel out 1 0 = white.
Proof.
  destruct (trim_to_content_window wide_strip 1 30 1 1 3 2) as
    (out & Hout & _ & Hwid & Hhei & Hpix & _).
  - apply image_okb_sound. reflexivity.
  - simpl. lia.
  - simpl. lia.
  - reflexivity.
  - exists out. simpl in Hwid, Hhei.
    repeat split; try lia; try assumption.
    rewrite Hpix by lia. reflexivity.
Defined.

(** X4: an image whose margins around the content are no wider than the
    padding comes back whole from [trim_to_content]: it never adds border. *)
Theorem trim_to_content_never_pads (img : Image) (padding : nat) (tolerance : Z)
  (x0 y0 x1 y1 : nat) :
  image_ok img ->
  find_content_box img tolerance = Returns (Some (x0, y0, x1, y1)) ->
  (x0 <= padding)%nat -> (y0 <= padding)%nat ->
  (width img <= x1 + padding)%nat -> (height img <= y1 + padding)%nat ->
  trim_to_content img padding tolerance = Returns (convert_RGBA img).
Proof.
  intros Hok Hbox Hx0 Hy0 Hx1 Hy1.
  rewrite (trim_to_content_some _ padding _ _ _ _ _ Hbox). f_equal.
  replace (x0 - padding)%nat with 0%nat by lia.
  replace (y0 - padding)%nat with 0%nat by lia.
  rewrite !Nat.min_l by assumption.
  destruct (convert_RGBA_size img) as [Ew Eh].
  rewrite <- Ew, <- Eh. apply crop_whole. now apply convert_RGBA_ok.
Qed.

Lemma trim_to_content_never_pads_witness :
  trim_to_content wide_strip 5 30 = Returns (convert_RGBA wide_strip) /\
  (exists out, trim_and_expand_border_to_content wide_strip 5 30 = Returns out /\
               width out = 12%nat).
Proof.
  split.
  - apply (trim_to_content_never_pads wide_strip 5 30 1 1 3 2).
    + apply image_okb_sound. reflexivity.
    + reflexivity.
    + lia.
    + lia.
    + simpl. lia.
    + simpl. lia.
  - eexists. split; [vm_compute; reflexivity | reflexivity].
Defined.

(** X5: on an opaque image whose content box has at least [padding] pixels
    of margin on every side, all of them of the colour at (0, 0), the two
    trimmers agree: [trim_to_content], converted to "RGB", is what
    [trim_and_expand_border_to_content] returns. *)
Theorem trimmers_agree_on_uniform_margin (img : Image) (padding : nat)
  (tolerance : Z) (x0 y0 x1 y1 : nat) :
  image_ok img -> opaque img ->
  (0 < width img)%nat -> (0 < height img)%nat ->
  find_content_box img tolerance = Returns (Some (x0, y0, x1, y1)) ->
  (padding <= x0)%nat -> (padding <= y0)%nat ->
  (x1 + padding <= width img)%nat -> (y1 + padding <= height img)%nat ->
  (forall u v, (x0 - padding <= u < x1 + padding)%nat ->
               (y0 - padding <= v < y1 + padding)%nat ->
               ~ ((x0 <= u < x1)%nat /\ (y0 <= v < y1)%nat) ->
               pixel img u v = pixel img 0 0) ->
  exists a b,
    trim_to_content img padding tolerance = Returns a /\
    trim_and_expand_border_to_content img padding tolerance = Returns b /\
    convert_RGB a = b.
Proof.
  intros Hok Hop Hw Hh Hbox Hpx Hpy Hx1p Hy1p Hring.
  pose proof (trim_opaque_box img padding tolerance x0 y0 x1 y1
                Hok Hop Hw Hh Hbox) as Hb.
  pose proof (trim_to_content_some img padding tolerance x0 y0 x1 y1 Hbox) as Ha.
  apply find_content_box_some in Hbox; try assumption.
  destruct Hbox as (Hx01 & _ & Hy01 & _).
  rewrite !Nat.min_r in Ha by assumption.
  eexists. eexists. split; [exact Ha |]. split; [exact Hb |].
  destruct (convert_RGBA_size img) as [Ew Eh].
  rewrite convert_RGB_closed
    by (apply crop_ok;
        [now apply convert_RGBA_ok | now apply convert_RGBA_opaque | lia | lia]).
  unfold frame_window. cbn [crop width height].
  replace (x1 + padding - (x0 - padding))%nat with (x1 - x0 + padding * 2)%nat by lia.
  replace (y1 + padding - (y0 - padding))%nat with (y1 - y0 + padding * 2)%nat by lia.
  f_equal. apply build_ext. intros x y Hx Hy.
  rewrite pixel_mk_in by lia.
  rewrite convert_RGBA_pixel_same by assumption.
  rewrite set_alpha_opaque by (apply pixel_in_opaque; (assumption || lia)).
  destruct (in_rect padding padding (x1 - x0) (y1 - y0) x y) eqn:Hin.
  - apply in_rect_spec in Hin. f_equal; lia.
  - apply Hring; try lia.
    intros [Hu Hv].
    assert (Hin' : in_rect padding padding (x1 - x0) (y1 - y0) x y = true)
      by (apply in_rect_true; lia).
    congruence.
Qed.

Lemma trimmers_agree_on_uniform_margin_witness :
  exists a b,
    trim_to_content wide_strip 1 30 = Returns a /\
    trim_and_expand_border_to_content wide_strip 1 30 = Returns b /\
    convert_RGB a = b.
Proof.
  apply (trimmers_agree_on_uniform_margin wide_strip 1 30 1 1 3 2).
  - apply image_okb_sound. reflexivity.
  - apply opaqueb_sound. reflexivity.
  - simpl. lia.
  - simpl. lia.
  - reflexivity.
  - lia.
  - lia.
  - simpl. lia.
  - simpl. lia.
  - intros u v Hu Hv Hout.
    assert (Hu' : (u = 0 \/ u = 1 \/ u = 2 \/ u = 3)%nat) by lia.
    assert (Hv' : (v = 0 \/ v = 1 \/ v = 2)%nat) by lia.
    destruct Hu' as [-> | [-> | [-> | ->]]], Hv' as [-> | [-> | ->]];
      try reflexivity; exfalso; apply Hout; lia.
Defined.

(** ** Compositing: what [trim_and_expand_border_to_content] pastes *)

(** Blending through a mask of 0 keeps the canvas band. *)
Lemma blend_0 (out inp : Z) : channel_ok out -> blend 0 out inp = out.
Proof.
  unfold channel_ok, blend, div255. intros Hout.
  replace (out * (255 - 0) + inp * 0 + 128) with (out * 255 + 128) by lia.
  rewrite !Z.shiftr_div_pow2 by lia. change (2 ^ 8) with 256.
  Z.div_mod_to_equations. lia.
Qed.

Lemma blend_pixel_0 (out inp : Pixel) :
  pixel_ok out -> blend_pixel 0 out inp = out.
Proof.
  destruct out as [[[r1 g1] b1] a1], inp as [[[r2 g2] b2] a2].
  unfold pixel_ok, blend_pixel. intros (Hr & Hg & Hb & Ha).
  now rewrite !blend_0.
Qed.

Lemma set_alpha_colour_of (a : Z) (p : Pixel) : colour (set_alpha a p) = colour p.
Proof. now destruct p as [[[r g] b] a']. Qed.

(** X6: when a content box is found, the result is an "RGB" image larger than
    the box by twice the padding; outside the pasted box every pixel has the
    colour sampled at (0, 0); inside, an opaque content pixel keeps its
    colour and a fully transparent one takes the background colour. *)
Theorem normalized_frame_and_content (img : Image) (padding : nat) (tolerance : Z)
  (x0 y0 x1 y1 : nat) :
  image_ok img -> (0 < width img)%nat -> (0 < height img)%nat ->
  find_content_box img tolerance = Returns (Some (x0, y0, x1, y1)) ->
  exists out,
    trim_and_expand_border_to_content img padding tolerance = Returns out /\
    mode out = RGB /\
    width out = (x1 - x0 + 2 * padding)%nat /\
    height out = (y1 - y0 + 2 * padding)%nat /\
    forall x y, (x < width out)%nat -> (y < height out)%nat ->
      let q := pixel img (x - padding + x0) (y - padding + y0) in
      (in_rect padding padding (x1 - x0) (y1 - y0) x y = false ->
       colour (pixel out x y) = colour (pixel img 0 0)) /\
      (in_rect padding padding (x1 - x0) (y1 - y0) x y = true ->
       (snd q = 255 -> colour (pixel out x y) = colour q) /\
       (snd q = 0 -> colour (pixel out x y) = colour (pixel img 0 0))).
Proof.
  intros Hok Hw Hh Hbox.
  rewrite (trim_some _ padding _ _ Hbox).
  apply find_content_box_some in Hbox; try assumption.
  destruct (mask_size img tolerance) as [Ew Eh].
  destruct Hbox as (Hx01 & Hx1 & Hy01 & Hy1 & _).
  rewrite Ew in Hx1. rewrite Eh in Hy1.
  eexists. split; [reflexivity |].
  unfold framed. cbn [mode width height].
  split; [reflexivity |]. split; [lia |]. split; [lia |].
  intros x y Hx Hy. cbv zeta.
  rewrite pixel_mk_in by assumption.
  fold (in_rect padding padding (x1 - x0) (y1 - y0) x y).
  rewrite !convert_RGBA_pixel_same by assumption.
  assert (Hbg : pixel_ok (pixel img 0 0)) by now apply pixel_in_ok.
  destruct (in_rect padding padding (x1 - x0) (y1 - y0) x y) eqn:Hin.
  - split; [discriminate |]. intros _.
    apply in_rect_spec in Hin. cbv zeta.
    assert (Hq : pixel_ok (pixel img (x - padding + x0) (y - padding + y0)))
      by (apply pixel_in_ok; (assumption || lia)).
    split; intros Ha; rewrite Ha, set_alpha_colour_of.
    + now rewrite blend_pixel_255.
    + now rewrite blend_pixel_0.
  - split; [| discriminate]. intros _. apply set_alpha_colour_of.
Qed.

Lemma normalized_frame_and_content_witness :
  exists out,
    trim_and_expand_border_to_content ghost_strip 1 30 = Returns out /\
    mode out = RGB /\ width out = 4%nat /\ height out = 3%nat /\
    colour (pixel out 1 1) = colour white /\
    colour (pixel out 2 1) = colour black.
Proof.
  destruct (normalized_frame_and_content ghost_strip 1 30 1 0 3 1)
    as (out & Hout & Hmode & Hwid & Hhei & Hpix).
  - apply image_okb_sound. reflexivity.
  - simpl. lia.
  - simpl. lia.
  - reflexivity.
  - exists out. simpl in Hwid, Hhei.
    repeat split; try assumption.
    + destruct (Hpix 1%nat 1%nat ltac:(lia) ltac:(lia)) as [_ Hin].
      destruct (Hin eq_refl) as [_ Hclear]. now apply Hclear.
    + destruct (Hpix 2%nat 1%nat ltac:(lia) ltac:(lia)) as [_ Hin].
      destruct (Hin eq_refl) as [Hsolid _]. now apply Hsolid.
Defined.

(** ** The fingerprint and the shape of the image *)

Lemma flat_map_rows {A B : Type} (f : A -> list B) (rs : list (list A)) :
  flat_map (flat_map f) rs = flat_map f (concat rs).
Proof.
  induction rs as [| r rs IH]; [reflexivity |].
  cbn [flat_map concat]. now rewrite flat_map_app, IH.
Qed.

Lemma pixel_bytes_colour (l : list Pixel) :
  flat_map (pixel_bytes RGB) l = flat_map colour_bytes (map colour l).
Proof.
  induction l as [| [[[r g] b] a] l IH]; [reflexivity |].
  cbn [flat_map map colour colour_bytes pixel_bytes]. now rewrite IH.
Qed.

Lemma map_build {A B : Type} (f : A -> B) (w h : nat) (g : nat -> nat -> A) :
  map (map f) (Raster.build w h g) = Raster.build w h (fun x y => f (g x y)).
Proof.
  unfold Raster.build. rewrite map_map. apply map_ext. intros y.
  now rewrite map_map.
Qed.

(** The bytes the fingerprint is computed from: the colours of the pixels in
    row-major order. *)
Lemma canonical_bytes (im : Image) :
  image_ok im ->
  tobytes (convert_RGB im) = flat_map colour_bytes (map colour (concat (rows im))).
Proof.
  intros Hok. pose proof Hok as (Hs & _).
  rewrite convert_RGB_closed by assumption.
  unfold tobytes. cbn [mode rows].
  rewrite flat_map_rows, pixel_bytes_colour. f_equal.
  change (fun x y => set_alpha 255 (pixel im x y))
    with (fun x y => set_alpha 255 (Raster.cell zero_pixel (rows im) x y)).
  rewrite <- (map_build (set_alpha 255)), (build_cell zero_pixel _ _ _ Hs).
  rewrite <- concat_map, map_map.
  apply map_ext. intros p. apply set_alpha_colour_of.
Qed.

(** X7: the fingerprint does not see the shape of the image: two well-formed
    images whose pixels, read row by row, have the same colours get the same
    fingerprint, whatever their widths and heights. *)
Theorem fingerprint_ignores_shape (a b : Image) :
  image_ok a -> image_ok b ->
  map colour (concat (rows a)) = map colour (concat (rows b)) ->
  get_image_hash a = get_image_hash b.
Proof.
  intros Ha Hb Hsame. unfold get_image_hash.
  now rewrite !canonical_bytes, Hsame by assumption.
Qed.

Lemma fingerprint_ignores_shape_witness :
  get_image_hash pair_row = get_image_hash pair_column /\
  width pair_row <> width pair_column.
Proof.
  split; [| discriminate].
  apply (fingerprint_ignores_shape pair_row pair_column).
  - apply image_okb_sound. reflexivity.
  - apply image_okb_sound. reflexivity.
  - reflexivity.
Defined.

(** ** The clipboard write, when it succeeds and when it does not *)

#[local] Opaque get_image_hash trim_and_expand_border_to_content.

(** X8: a write in which nothing fails puts the "RGB" form of the image on
    the clipboard, closes the clipboard, and leaves [last_image_hash] alone;
    reading the clipboard back gives an image with the fingerprint of the
    image sent. *)
Theorem clipboard_write_round_trip (flt : Faults) (img : Image) (st : State) :
  encode_fails flt = false -> open_fails flt = false ->
  empty_fails flt = false -> set_fails flt = false ->
  exists st',
    send_image_to_clipboard flt img st = (Returns tt, st') /\
    clipboard st' = CbImage (convert_RGB img) /\
    clipboard_open st' = false /\
    written st' = convert_RGB img :: written st /\
    last_image_hash st' = last_image_hash st /\
    forall flt', grab_fails flt' = false ->
      exists d, grabclipboard flt' st' = (Returns (Some d), st') /\
                get_image_hash d = get_image_hash img.
Proof.
  intros He Ho Hm Hs. rewrite send_image_to_clipboard_cases, He, Ho, Hm, Hs.
  eexists. split; [reflexivity |]. cbn [clipboard clipboard_open written last_image_hash].
  repeat split.
  intros flt' Hgrab. exists (convert_RGB img).
  unfold grabclipboard. rewrite Hgrab. cbn [clipboard].
  split; [reflexivity | apply get_image_hash_convert_RGB].
Qed.

Lemma clipboard_write_round_trip_witness :
  exists st',
    send_image_to_clipboard no_faults ghost_strip (mkState (CbText "x") false [] None)
    = (Returns tt, st') /\
    clipboard st' = CbImage solid_strip.
Proof.
  destruct (clipboard_write_round_trip no_faults ghost_strip
              (mkState (CbText "x") false [] None) eq_refl eq_refl eq_refl eq_refl)
    as (st' & Hsend & Hcb & _).
  exists st'. split; [exact Hsend |]. rewrite Hcb. reflexivity.
Defined.

(** X9: the clipboard is released whatever happens: once [OpenClipboard] has
    succeeded the clipboard is closed when the function ends, whether it
    returns or raises; if the function fails before or in [OpenClipboard],
    the clipboard was never opened by it. *)
Theorem clipboard_released (flt : Faults) (img : Image) (st : State) :
  clipboard_open (snd (send_image_to_clipboard flt img st)) =
  if (encode_fails flt || open_fails flt)%bool then clipboard_open st else false.
Proof.
  rewrite send_image_to_clipboard_cases.
  destruct (encode_fails flt), (open_fails flt), (empty_fails flt),
    (set_fails flt); reflexivity.
Qed.

(** ** Further properties of the loop *)

Lemma iteration_no_image (flt : Faults) (PADDING : nat) (TOLERANCE : Z)
  (st : State) :
  (forall img, clipboard st <> CbImage img) ->
  iteration flt PADDING TOLERANCE st =
  (Returns tt,
   if (grab_fails flt || paste_fails flt)%bool then st
   else mkState (clipboard st) (clipboard_open st) (written st)
          match clipboard st with
          | CbText s => if (s =? "")%string then None else last_image_hash st
          | _ => None
          end).
Proof.
  intros Hno. destruct st as [cb op ws last]. cbn [clipboard] in Hno.
  unfold iteration, try_except, poll, bind, grabclipboard, pyperclip_paste,
    assign_last_image_hash, ret.
  cbn [clipboard clipboard_open written last_image_hash].
  destruct (grab_fails flt); [reflexivity |]. cbn [orb].
  destruct cb as [img | s |]; cbv beta iota;
    cbn [clipboard clipboard_open written last_image_hash].
  - now destruct (Hno img).
  - destruct (paste_fails flt); cbv beta iota; [reflexivity |].
    cbn [clipboard clipboard_open written last_image_hash].
    destruct (s =? "")%string; reflexivity.
  - destruct (paste_fails flt); reflexivity.
Qed.

(** X10: an iteration that finds no image and can read the clipboard leaves
    the clipboard alone and writes nothing; it forgets the remembered
    fingerprint when the clipboard holds the empty text or no text at all,
    and keeps it when the clipboard holds other text. *)
Theorem poll_without_image (flt : Faults) (PADDING : nat) (TOLERANCE : Z)
  (st : State) :
  (forall img, clipboard st <> CbImage img) ->
  grab_fails flt = false -> paste_fails flt = false ->
  iteration flt PADDING TOLERANCE st =
  (Returns tt,
   mkState (clipboard st) (clipboard_open st) (written st)
     match clipboard st with
     | CbText s => if (s =? "")%string then None else last_image_hash st
     | _ => None
     end).
Proof.
  intros Hno Hgrab Hpaste.
  now rewrite iteration_no_image, Hgrab, Hpaste by assumption.
Qed.

Lemma poll_without_image_witness :
  last_image_hash
    (snd (iteration no_faults 10 30
            (mkState (CbText "notes") false [] (Some "0123"%string))))
  = Some "0123"%string /\
  last_image_hash
    (snd (iteration no_faults 10 30
            (mkState CbEmpty false [] (Some "0123"%string))))
  = None.
Proof.
  split.
  - rewrite (poll_without_image no_faults 10 30
               (mkState (CbText "notes") false [] (Some "0123"%string)));
      [reflexivity | discriminate | reflexivity | reflexivity].
  - rewrite (poll_without_image no_faults 10 30
               (mkState CbEmpty false [] (Some "0123"%string)));
      [reflexivity | discriminate | reflexivity | reflexivity].
Defined.

Lemma hash_differs_false (h : string) (last : option string) :
  hash_differs h last = false -> last = Some h.
Proof.
  unfold hash_differs. destruct last as [l |]; [| discriminate].
  intros Heq. apply negb_false_iff, String.eqb_eq in Heq. now subst.
Qed.

(** X11: an iteration never raises, and it stores at most one payload.
    Either it stores nothing, and the clipboard is as it was or, after a
    write that failed, empty; or it stores the "RGB" form of the normalised
    clipboard image, whose fingerprint differs from that of the image it
    read, leaves that on the clipboard and remembers its fingerprint. *)
Theorem iteration_effect (flt : Faults) (PADDING : nat) (TOLERANCE : Z)
  (st : State) :
  exists st',
    iteration flt PADDING TOLERANCE st = (Returns tt, st') /\
    ((written st' = written st /\
      (clipboard st' = clipboard st \/ clipboard st' = CbEmpty)) \/
     (exists A P,
        clipboard st = CbImage A /\
        trim_and_expand_border_to_content A PADDING TOLERANCE = Returns P /\
        get_image_hash P <> get_image_hash A /\
        written st' = convert_RGB P :: written st /\
        clipboard st' = CbImage (convert_RGB P) /\
        last_image_hash st' = Some (get_image_hash P))).
Proof.
  assert (Hkeep : forall st' : State,
            written st' = written st ->
            clipboard st' = clipboard st \/ clipboard st' = CbEmpty ->
            (written st' = written st /\
             (clipboard st' = clipboard st \/ clipboard st' = CbEmpty)) \/
            (exists A P,
               clipboard st = CbImage A /\
               trim_and_expand_border_to_content A PADDING TOLERANCE = Returns P /\
               get_image_hash P <> get_image_hash A /\
               written st' = convert_RGB P :: written st /\
               clipboard st' = CbImage (convert_RGB P) /\
               last_image_hash st' = Some (get_image_hash P)))
    by (intros st' Hw Hc; left; split; assumption).
  destruct (clipboard st) as [A | s |] eqn:Hcb.
  - destruct (grab_fails flt) eqn:Hgrab.
    { rewrite iteration_grab_fails by assumption.
      eexists. split; [reflexivity |]. apply Hkeep; auto. }
    rewrite (iteration_image flt PADDING TOLERANCE st A Hcb Hgrab).
    destruct (hash_differs (get_image_hash A) (last_image_hash st)).
    2: { eexists. split; [reflexivity |]. apply Hkeep; auto. }
    destruct (trim_and_expand_border_to_content A PADDING TOLERANCE)
      as [P | e] eqn:Htrim.
    2: { eexists. split; [reflexivity |]. apply Hkeep; auto. }
    destruct (get_image_hash P =? get_image_hash A)%string eqn:Heq.
    { eexists. split; [reflexivity |]. apply Hkeep; cbn [written clipboard]; auto. }
    apply String.eqb_neq in Heq.
    rewrite send_image_to_clipboard_cases.
    destruct (encode_fails flt), (open_fails flt), (empty_fails flt),
      (set_fails flt);
      (eexists; split; [reflexivity |]);
      try (apply Hkeep; cbn [written clipboard]; now auto).
    right. exists A, P. cbn [written clipboard last_image_hash].
    repeat split; auto.
  - rewrite iteration_no_image by (rewrite Hcb; discriminate).
    eexists. split; [reflexivity |]. apply Hkeep;
      destruct (grab_fails flt || paste_fails flt)%bool; cbn [written clipboard];
      auto.
  - rewrite iteration_no_image by (rewrite Hcb; discriminate).
    eexists. split; [reflexivity |]. apply Hkeep;
      destruct (grab_fails flt || paste_fails flt)%bool; cbn [written clipboard];
      auto.
Qed.

(** X12: the remembered fingerprint follows the clipboard.  If it is the
    fingerprint of the image on the clipboard, it still is after any
    iteration, whatever fails; and an iteration in which nothing fails makes
    it so, unless normalising the image raises. *)
Theorem fingerprint_follows_clipboard (flt : Faults) (PADDING : nat)
  (TOLERANCE : Z) (st : State) :
  (settled st -> settled (snd (iteration flt PADDING TOLERANCE st))) /\
  ((forall A e, clipboard st = CbImage A ->
      trim_and_expand_border_to_content A PADDING TOLERANCE <> Raises e) ->
   settled (snd (iteration no_faults PADDING TOLERANCE st))).
Proof.
  unfold settled. split.
  - intros Hset. destruct (clipboard st) as [A | s |] eqn:Hcb.
    + rewrite (iteration_seen flt PADDING TOLERANCE st A Hcb Hset).
      cbn [snd]. now rewrite Hcb.
    + rewrite iteration_no_image by (rewrite Hcb; discriminate). cbn [snd].
      destruct (grab_fails flt || paste_fails flt)%bool; cbn [clipboard];
        now rewrite Hcb.
    + rewrite iteration_no_image by (rewrite Hcb; discriminate). cbn [snd].
      destruct (grab_fails flt || paste_fails flt)%bool; cbn [clipboard];
        now rewrite Hcb.
  - intros Htrim. destruct (clipboard st) as [A | s |] eqn:Hcb.
    + rewrite (iteration_image no_faults PADDING TOLERANCE st A Hcb eq_refl).
      destruct (hash_differs (get_image_hash A) (last_image_hash st)) eqn:Hd.
      2: { cbn [snd]. rewrite Hcb. now apply hash_differs_false. }
      destruct (trim_and_expand_border_to_content A PADDING TOLERANCE)
        as [P | e] eqn:HP.
      2: { now destruct (Htrim A e eq_refl). }
      destruct (get_image_hash P =? get_image_hash A)%string.
      { cbn [snd clipboard last_image_hash]. now rewrite Hcb. }
      rewrite send_image_to_clipboard_cases.
      cbn [no_faults encode_fails open_fails empty_fails set_fails snd
           clipboard last_image_hash].
      now rewrite get_image_hash_convert_RGB.
    + rewrite iteration_no_image by (rewrite Hcb; discriminate).
      cbn [snd no_faults grab_fails paste_fails orb clipboard]. now rewrite Hcb.
    + rewrite iteration_no_image by (rewrite Hcb; discriminate).
      cbn [snd no_faults grab_fails paste_fails orb clipboard]. now rewrite Hcb.
Qed.

Lemma fingerprint_follows_clipboard_witness :
  settled (snd (iteration set_fault 1 30
                  (mkState (CbImage blank) false [] (Some (get_image_hash blank))))) /\
  settled (snd (iteration no_faults 1 30 (mkState (CbImage strip) false [] None))).
Proof.
  split.
  - apply (proj1 (fingerprint_follows_clipboard set_fault 1 30
                    (mkState (CbImage blank) false [] (Some (get_image_hash blank))))).
    reflexivity.
  - apply (proj2 (fingerprint_follows_clipboard no_faults 1 30
                    (mkState (CbImage strip) false [] None))).
    intros A e [= <-]. vm_compute. discriminate.
Defined.

(** After an iteration in which nothing failed, one more iteration changes
    nothing, whatever fails in it. *)
Lemma iteration_fixed (flt : Faults) (PADDING : nat) (TOLERANCE : Z) (st : State) :
  iteration flt PADDING TOLERANCE
    (snd (iteration no_faults PADDING TOLERANCE st)) =
  (Returns tt, snd (iteration no_faults PADDING TOLERANCE st)).
Proof.
  destruct (clipboard st) as [A | s |] eqn:Hcb.
  - rewrite (iteration_image no_faults PADDING TOLERANCE st A Hcb eq_refl).
    destruct (hash_differs (get_image_hash A) (last_image_hash st)) eqn:Hd.
    2: { cbn [snd]. apply (iteration_seen flt _ _ st A Hcb).
         now apply hash_differs_false. }
    destruct (trim_and_expand_border_to_content A PADDING TOLERANCE)
      as [P | e] eqn:HP.
    2: { cbn [snd]. destruct (grab_fails flt) eqn:Hgrab.
         - now apply iteration_grab_fails.
         - rewrite (iteration_image flt PADDING TOLERANCE st A Hcb Hgrab).
           now rewrite Hd, HP. }
    destruct (get_image_hash P =? get_image_hash A)%string.
    { cbn [snd]. apply (iteration_seen flt _ _ _ A); cbn [clipboard last_image_hash];
        [exact Hcb | reflexivity]. }
    rewrite send_image_to_clipboard_cases.
    cbn [no_faults encode_fails open_fails empty_fails set_fails snd
         clipboard clipboard_open written last_image_hash].
    apply (iteration_seen flt _ _ _ (convert_RGB P)); cbn [clipboard last_image_hash];
      [reflexivity | now rewrite get_image_hash_convert_RGB].
  - rewrite (iteration_no_image no_faults) by (rewrite Hcb; discriminate).
    cbn [snd no_faults grab_fails paste_fails orb].
    rewrite iteration_no_image by (cbn [clipboard]; rewrite Hcb; discriminate).
    cbn [clipboard clipboard_open written last_image_hash]. rewrite Hcb.
    destruct (grab_fails flt || paste_fails flt)%bool; [reflexivity |].
    now destruct (s =? "")%string.
  - rewrite (iteration_no_image no_faults) by (rewrite Hcb; discriminate).
    cbn [snd no_faults grab_fails paste_fails orb].
    rewrite iteration_no_image by (cbn [clipboard]; rewrite Hcb; discriminate).
    cbn [clipboard clipboard_open written last_image_hash]. rewrite Hcb.
    now destruct (grab_fails flt || paste_fails flt)%bool.
Qed.

(** X13: the loop comes to rest in one iteration.  After an iteration in
    which nothing failed, any number of further iterations, whatever fails
    in them, leave the whole state unchanged as long as no other program
    changes the clipboard. *)
Theorem loop_comes_to_rest (PADDING : nat) (TOLERANCE : Z) (st : State)
  (ticks : list Tick) :
  Forall (fun tk => incoming tk = None) ticks ->
  main_loop PADDING TOLERANCE ticks
    (snd (iteration no_faults PADDING TOLERANCE st)) =
  snd (iteration no_faults PADDING TOLERANCE st).
Proof.
  intros Hquiet. induction Hquiet as [| tk ticks Htk _ IH]; [reflexivity |].
  cbn [main_loop]. rewrite Htk. cbn [arrive].
  rewrite iteration_fixed. cbn [snd]. exact IH.
Qed.

Lemma loop_comes_to_rest_witness :
  main 1 30 (CbImage strip) [quiet; mkTick None set_fault; quiet] =
  main 1 30 (CbImage strip) [quiet].
Proof.
  apply (loop_comes_to_rest 1 30 (mkState (CbImage strip) false [] None)
           [mkTick None set_fault; quiet]).
  repeat constructor.
Defined.

(** One iteration adds at most one payload to those stored. *)
Lemma iteration_written (flt : Faults) (PADDING : nat) (TOLERANCE : Z) (st : State) :
  written (snd (iteration flt PADDING TOLERANCE st)) = written st \/
  exists d, written (snd (iteration flt PADDING TOLERANCE st)) = d :: written st.
Proof.
  destruct (clipboard st) as [A | s |] eqn:Hcb.
  - destruct (grab_fails flt) eqn:Hgrab.
    { rewrite iteration_grab_fails by assumption. now left. }
    rewrite (iteration_image flt PADDING TOLERANCE st A Hcb Hgrab).
    destruct (hash_differs (get_image_hash A) (last_image_hash st)); [| now left].
    destruct (trim_and_expand_border_to_content A PADDING TOLERANCE)
      as [P | e]; [| now left].
    destruct (get_image_hash P =? get_image_hash A)%string; [now left |].
    rewrite send_image_to_clipboard_cases.
    destruct (encode_fails flt), (open_fails flt), (empty_fails flt),
      (set_fails flt); cbn [snd written]; try (now left).
    right. now exists (convert_RGB P).
  - rewrite iteration_no_image by (rewrite Hcb; discriminate). left.
    now destruct (grab_fails flt || paste_fails flt)%bool.
  - rewrite iteration_no_image by (rewrite Hcb; discriminate). left.
    now destruct (grab_fails flt || paste_fails flt)%bool.
Qed.

(** X14: over any run of the loop, whatever arrives on the clipboard and
    whatever fails, the payloads stored so far are kept in order and at most
    one is added per iteration. *)
Theorem writes_bounded_by_polls (PADDING : nat) (TOLERANCE : Z)
  (ticks : list Tick) (st : State) :
  exists added,
    written (main_loop PADDING TOLERANCE ticks st) = added ++ written st /\
    (length added <= length ticks)%nat.
Proof.
  revert st. induction ticks as [| tk ticks IH]; intros st.
  - exists []. split; [reflexivity | cbn; lia].
  - cbn [main_loop].
    destruct (IH (snd (iteration (faults tk) PADDING TOLERANCE
                         (arrive (incoming tk) st)))) as (added & Hw & Hlen).
    assert (Harr : written (arrive (incoming tk) st) = written st)
      by (now destruct (incoming tk)).
    destruct (iteration_written (faults tk) PADDING TOLERANCE
                (arrive (incoming tk) st)) as [Hsame | [d Hone]].
    + exists added. rewrite Hw, Hsame, Harr. split; [reflexivity | cbn; lia].
    + exists (added ++ [d]). rewrite Hw, Hone, Harr, <- app_assoc.
      split; [reflexivity | rewrite length_app; cbn; lia].
Qed.

(** X15: clearing the clipboard is not needed for a second normalisation.
    When normalising A changes its fingerprint and A is copied again right
    after, the loop normalises and writes it again. *)
Theorem recopied_image_written_again (PADDING : nat) (TOLERANCE : Z)
  (A P : Image) :
  trim_and_expand_border_to_content A PADDING TOLERANCE = Returns P ->
  get_image_hash P <> get_image_hash A ->
  written (main PADDING TOLERANCE (CbImage A)
             [quiet; mkTick (Some (CbImage A)) no_faults]) =
  [convert_RGB P; convert_RGB P].
Proof.
  intros HP Hneq. apply String.eqb_neq in Hneq.
  unfold main. cbn [main_loop quiet incoming faults arrive].
  rewrite first_poll, HP, Hneq.
  unfold set_clipboard. cbn [clipboard_open written last_image_hash].
  rewrite (iteration_image no_faults PADDING TOLERANCE
             (mkState (CbImage A) false [convert_RGB P] (Some (get_image_hash P)))
             A eq_refl eq_refl).
  cbn [hash_differs last_image_hash]. rewrite String.eqb_sym, Hneq. cbn [negb].
  rewrite HP, Hneq, send_image_to_clipboard_cases. reflexivity.
Qed.

Lemma recopied_image_written_again_witness :
  length (written (main 1 30 (CbImage strip)
                     [quiet; mkTick (Some (CbImage strip)) no_faults])) = 2%nat.
Proof.
  assert (HP : exists P,
             trim_and_expand_border_to_content strip 1 30 = Returns P /\
             get_image_hash P <> get_image_hash strip).
  { eexists. split; [vm_compute; reflexivity |]. vm_compute. discriminate. }
  destruct HP as (P & HP & Hneq).
  now rewrite (recopied_image_written_again 1 30 strip P HP Hneq).
Defined.

(** ** Log retention *)

Section LogRetentionFacts.
Variable path_leb : string -> string -> bool.
Variable trash_fails : string -> bool.

Lemma insert_path_perm (f : string) (files : list string) :
  Permutation (insert_path path_leb f files) (f :: files).
Proof.
  induction files as [| g rest IH]; cbn [insert_path]; [reflexivity |].
  destruct (path_leb f g); [reflexivity |].
  rewrite IH. apply perm_swap.
Qed.

Lemma sorted_perm (files : list string) :
  Permutation (sorted path_leb files) files.
Proof.
  induction files as [| f rest IH]; cbn [sorted]; [reflexivity |].
  rewrite insert_path_perm. now apply perm_skip.
Qed.

Lemma sorted_length (files : list string) :
  length (sorted path_leb files) = length files.
Proof. apply Permutation_length, sorted_perm. Qed.

Hypothesis leb_total : forall a b, path_leb a b = true \/ path_leb b a = true.
Hypothesis leb_trans :
  forall a b c, path_leb a b = true -> path_leb b c = true -> path_leb a c = true.

Lemma insert_path_sorted (f : string) (files : list string) :
  StronglySorted (fun a b => path_leb a b = true) files ->
  StronglySorted (fun a b => path_leb a b = true) (insert_path path_leb f files).
Proof.
  induction files as [| g rest IH]; cbn [insert_path]; intros Hs.
  - repeat constructor.
  - inversion Hs as [| ? ? Hrest Hg]; subst.
    destruct (path_leb f g) eqn:Hfg.
    + constructor; [exact Hs |].
      constructor; [exact Hfg |].
      rewrite Forall_forall in Hg |- *. intros x Hx. eauto.
    + constructor; [now apply IH |].
      assert (Hgf : path_leb g f = true)
        by (destruct (leb_total f g); congruence).
      rewrite Forall_forall. intros x Hx.
      apply (Permutation_in _ (insert_path_perm f rest)) in Hx.
      destruct Hx as [<- | Hx]; [exact Hgf |].
      rewrite Forall_forall in Hg. now apply Hg.
Qed.

Lemma sorted_sorted (files : list string) :
  StronglySorted (fun a b => path_leb a b = true) (sorted path_leb files).
Proof.
  induction files as [| f rest IH]; cbn [sorted]; [constructor |].
  now apply insert_path_sorted.
Qed.

(** In a sorted list, what comes first is below what comes after. *)
Lemma sorted_split (files : list string) (k : nat) (f g : string) :
  StronglySorted (fun a b => path_leb a b = true) files ->
  In f (firstn k files) -> In g (skipn k files) -> path_leb f g = true.
Proof.
  intros Hs. revert k. induction Hs as [| a rest Hrest IH Ha]; intros k Hf Hg.
  - destruct k; destruct Hf.
  - destruct k as [| k]; [destruct Hf |].
    cbn [firstn skipn] in Hf, Hg. destruct Hf as [<- | Hf].
    + rewrite Forall_forall in Ha. apply Ha.
      rewrite <- (firstn_skipn k rest). apply in_or_app. now right.
    + now apply (IH k).
Qed.
End LogRetentionFacts.

(** The lexicographic order on strings is transitive. *)
Lemma string_compare_lt_trans (a b c : string) :
  String.compare a b = Lt -> String.compare b c = Lt -> String.compare a c = Lt.
Proof.
  revert b c. induction a as [| x a IH]; intros [| y b] [| z c]; cbn [String.compare];
    try discriminate; try reflexivity.
  unfold Ascii.compare.
  destruct (N.compare_spec (N_of_ascii x) (N_of_ascii y)) as [Exy | Exy | Exy];
    destruct (N.compare_spec (N_of_ascii y) (N_of_ascii z)) as [Eyz | Eyz | Eyz];
    try discriminate; intros Hab Hbc.
  - rewrite Exy, Eyz, N.compare_refl. now apply (IH b).
  - now rewrite (proj2 (N.compare_lt_iff _ _)) by lia.
  - now rewrite (proj2 (N.compare_lt_iff _ _)) by lia.
  - now rewrite (proj2 (N.compare_lt_iff _ _)) by lia.
Qed.

Lemma string_compare_refl (a : string) : String.compare a a = Eq.
Proof.
  pose proof (String.compare_antisym a a) as H.
  now destruct (String.compare a a).
Qed.

Lemma string_leb_trans (a b c : string) :
  String.leb a b = true -> String.leb b c = true -> String.leb a c = true.
Proof.
  unfold String.leb.
  destruct (String.compare a b) eqn:Eab; try discriminate;
    destruct (String.compare b c) eqn:Ebc; try discriminate; intros _ _.
  - apply String.compare_eq_iff in Eab, Ebc. subst.
    now rewrite string_compare_refl.
  - apply String.compare_eq_iff in Eab. subst. now rewrite Ebc.
  - apply String.compare_eq_iff in Ebc. subst. now rewrite Eab.
  - now rewrite (string_compare_lt_trans a b c Eab Ebc).
Qed.

Lemma filter_all {A : Type} (p : A -> bool) (l : list A) :
  (forall a, In a l -> p a = true) -> filter p l = l.
Proof.
  induction l as [| a l IH]; intros Hall; [reflexivity |].
  cbn [filter]. rewrite (Hall a) by now left.
  f_equal. apply IH. intros b Hb. apply Hall. now right.
Qed.

Lemma filter_none {A : Type} (p : A -> bool) (l : list A) :
  (forall a, In a l -> p a = false) -> filter p l = [].
Proof.
  induction l as [| a l IH]; intros Hall; [reflexivity |].
  cbn [filter]. rewrite (Hall a) by now left.
  apply IH. intros b Hb. apply Hall. now right.
Qed.

Lemma existsb_eqb_In (f : string) (l : list string) :
  existsb (String.eqb f) l = true <-> In f l.
Proof.
  rewrite existsb_exists. split.
  - intros (g & Hg & Heq). apply String.eqb_eq in Heq. now subst.
  - intros Hf. exists f. split; [exact Hf | apply String.eqb_refl].
Qed.

Lemma NoDup_app_disjoint {A : Type} (l1 l2 : list A) (x : A) :
  NoDup (l1 ++ l2) -> In x l1 -> In x l2 -> False.
Proof.
  induction l1 as [| a l1 IH]; intros Hnd H1 H2; [destruct H1 |].
  cbn [app] in Hnd. inversion Hnd as [| ? ? Hnotin Hrest]; subst.
  destruct H1 as [-> | H1].
  - apply Hnotin, in_or_app. now right.
  - now apply IH.
Qed.

(** Without repetitions, taking out the front part leaves the rest. *)
Lemma filter_out_front (l1 l2 : list string) :
  NoDup (l1 ++ l2) ->
  filter (fun f => negb (existsb (String.eqb f) l1)) (l1 ++ l2) = l2.
Proof.
  intros Hnd. rewrite filter_app.
  rewrite filter_none, filter_all; [reflexivity | |].
  - intros f Hf. apply negb_true_iff.
    destruct (existsb (String.eqb f) l1) eqn:E; [| reflexivity].
    apply existsb_eqb_In in E. now destruct (NoDup_app_disjoint l1 l2 f).
  - intros f Hf. apply negb_false_iff. now apply existsb_eqb_In.
Qed.

(** X16: the retention does nothing when no limit is configured, when the
    limit is zero or negative, or when the directory holds no more log files
    than the limit. *)
Theorem log_retention_off (path_leb : string -> string -> bool)
  (trash_fails : string -> bool) (found : list string) (max_count : option Z) :
  (max_count = None \/
   exists n, max_count = Some n /\ (n <= 0 \/ Z.of_nat (length found) <= n)) ->
  enforce_max_log_count path_leb trash_fails found max_count = [] /\
  logs_kept path_leb trash_fails found max_count = sorted path_leb found.
Proof.
  intros Hoff.
  assert (Hnone : enforce_max_log_count path_leb trash_fails found max_count = []).
  { unfold enforce_max_log_count.
    destruct Hoff as [-> | (n & -> & Hn)]; [reflexivity |].
    destruct (n <=? 0) eqn:E0; [reflexivity |].
    apply Z.leb_gt in E0. rewrite sorted_length.
    destruct (Z.of_nat (length found) >? n) eqn:E1; [| reflexivity].
    apply Z.gtb_lt in E1. lia. }
  split; [exact Hnone |].
  unfold logs_kept. rewrite Hnone. now apply filter_all.
Qed.

Lemma log_retention_off_witness :
  enforce_max_log_count String.leb (fun _ => false) sample_logs (Some 3) = [] /\
  enforce_max_log_count String.leb (fun _ => false) sample_logs (Some (-1)) = [].
Proof.
  split.
  - apply (log_retention_off String.leb (fun _ => false) sample_logs (Some 3)).
    right. exists 3. split; [reflexivity |]. right. simpl. lia.
  - apply (log_retention_off String.leb (fun _ => false) sample_logs (Some (-1))).
    right. exists (-1). split; [reflexivity |]. left. lia.
Defined.

(** X17: with a positive limit and no deletion failing, the retention keeps
    exactly the last [max_count] log files of the sorted order (all of them
    when there are fewer): the sorted list is the trashed files followed by
    the kept ones, and every trashed file sorts at or before every kept
    one. *)
Theorem log_retention_keeps_newest (path_leb : string -> string -> bool)
  (trash_fails : string -> bool) (found : list string) (max_count : Z) :
  (forall a b, path_leb a b = true \/ path_leb b a = true) ->
  (forall a b c, path_leb a b = true -> path_leb b c = true ->
                 path_leb a c = true) ->
  NoDup found ->
  (forall f, In f found -> trash_fails f = false) ->
  0 < max_count ->
  let trashed := enforce_max_log_count path_leb trash_fails found (Some max_count) in
  let kept := logs_kept path_leb trash_fails found (Some max_count) in
  sorted path_leb found = trashed ++ kept /\
  length kept = Nat.min (length found) (Z.to_nat max_count) /\
  forall f g, In f trashed -> In g kept -> path_leb f g = true.
Proof.
  intros Htotal Htrans Hnd Hok Hpos trashed kept.
  set (files := sorted path_leb found).
  set (k := (length files - Z.to_nat max_count)%nat).
  assert (Hlen : length files = length found) by apply sorted_length.
  assert (Hnd' : NoDup files)
    by (apply (Permutation_NoDup (Permutation_sym (sorted_perm path_leb found)) Hnd)).
  assert (Htr : trashed = firstn k files).
  { unfold trashed, enforce_max_log_count. fold files.
    replace (max_count <=? 0) with false by (symmetry; apply Z.leb_gt; lia).
    destruct (Z.of_nat (length files) >? max_count) eqn:E.
    - fold k. apply filter_all. intros f Hf. apply negb_true_iff, Hok.
      apply (Permutation_in _ (sorted_perm path_leb found)).
      fold files. rewrite <- (firstn_skipn k files). apply in_or_app. now left.
    - assert (Hk : k = 0%nat).
      { unfold k. destruct (Z.gtb_spec (Z.of_nat (length files)) max_count);
          [discriminate | lia]. }
      now rewrite Hk. }
  assert (Hkept : kept = skipn k files).
  { unfold kept, logs_kept. fold files. fold trashed. rewrite Htr.
    transitivity (filter (fun f => negb (existsb (String.eqb f) (firstn k files)))
                    (firstn k files ++ skipn k files));
      [now rewrite firstn_skipn |].
    apply filter_out_front. now rewrite firstn_skipn. }
  rewrite Htr, Hkept. split; [now rewrite firstn_skipn |].
  split; [rewrite length_skipn; unfold k; lia |].
  intros f g Hf Hg.
  apply (sorted_split path_leb files k f g); [| exact Hf | exact Hg].
  now apply sorted_sorted.
Qed.

Lemma log_retention_keeps_newest_witness :
  enforce_max_log_count String.leb (fun _ => false) sample_logs (Some 2) =
    ["20260101_000000__cropper__pc.log"%string] /\
  length (logs_kept String.leb (fun _ => false) sample_logs (Some 2)) = 2%nat.
Proof.
  destruct (log_retention_keeps_newest String.leb (fun _ => false) sample_logs 2)
    as (Hsplit & Hlen & _).
  - apply String.leb_total.
  - apply string_leb_trans.
  - repeat constructor; simpl; intuition discriminate.
  - reflexivity.
  - lia.
  - split; [vm_compute; reflexivity | exact Hlen].
Defined.

(** When some of the files taken from the front stay, they are what is left
    of the front. *)
Lemma filter_failed_front (fails : string -> bool) (l1 l2 : list string) :
  NoDup (l1 ++ l2) ->
  filter (fun f => negb (existsb (String.eqb f)
                           (filter (fun g => negb (fails g)) l1)))
         (l1 ++ l2) =
  filter fails l1 ++ l2.
Proof.
  intros Hnd. rewrite filter_app. f_equal.
  - apply filter_ext_in. intros f Hf.
    destruct (existsb (String.eqb f) (filter (fun g => negb (fails g)) l1))
      eqn:E.
    + apply existsb_eqb_In, filter_In in E. destruct E as [_ E].
      apply negb_true_iff in E. now rewrite E.
    + destruct (fails f) eqn:Ef; [reflexivity |].
      assert (Hin : In f (filter (fun g => negb (fails g)) l1))
        by (apply filter_In; split; [exact Hf | now rewrite Ef]).
      apply existsb_eqb_In in Hin. congruence.
  - apply filter_all. intros f Hf. apply negb_true_iff.
    destruct (existsb (String.eqb f) (filter (fun g => negb (fails g)) l1))
      eqn:E; [| reflexivity].
    apply existsb_eqb_In, filter_In in E. destruct E as [E _].
    now destruct (NoDup_app_disjoint l1 l2 f).
Qed.

(** X18: a deletion that fails does not stop the others, and spares only its
    own file.  The files trashed are those due for deletion less the ones
    that fail, and the directory is left with the failing files due for
    deletion followed by exactly the files a run without failures keeps. *)
Theorem log_retention_survives_failures (path_leb : string -> string -> bool)
  (trash_fails : string -> bool) (found : list string) (max_count : option Z) :
  NoDup found ->
  let due := enforce_max_log_count path_leb (fun _ => false) found max_count in
  enforce_max_log_count path_leb trash_fails found max_count =
    filter (fun f => negb (trash_fails f)) due /\
  logs_kept path_leb trash_fails found max_count =
    filter trash_fails due ++
    logs_kept path_leb (fun _ => false) found max_count.
Proof.
  intros Hnd due.
  set (files := sorted path_leb found).
  assert (Hnd' : NoDup files)
    by (apply (Permutation_NoDup
                 (Permutation_sym (sorted_perm path_leb found)) Hnd)).
  assert (Hdue : exists k, due = firstn k files).
  { unfold due, enforce_max_log_count. fold files.
    destruct max_count as [n |]; [| now exists 0%nat].
    destruct (n <=? 0); [now exists 0%nat |].
    destruct (Z.of_nat (length files) >? n); [| now exists 0%nat].
    exists (length files - Z.to_nat n)%nat. now apply filter_all. }
  destruct Hdue as [k Hdue].
  assert (Htrashed :
    enforce_max_log_count path_leb trash_fails found max_count =
    filter (fun f => negb (trash_fails f)) due).
  { unfold due, enforce_max_log_count. fold files.
    destruct max_count as [n |]; [| reflexivity].
    destruct (n <=? 0); [reflexivity |].
    destruct (Z.of_nat (length files) >? n); [| reflexivity].
    f_equal. symmetry. now apply filter_all. }
  split; [exact Htrashed |].
  unfold logs_kept. rewrite Htrashed. fold files. fold due. rewrite Hdue.
  assert (Hfiles : files = firstn k files ++ skipn k files)
    by (symmetry; apply firstn_skipn).
  set (front := firstn k files) in *. set (back := skipn k files) in *.
  clearbody front back. rewrite Hfiles in Hnd' |- *.
  now rewrite filter_failed_front, filter_out_front by assumption.
Qed.

Lemma log_retention_survives_failures_witness :
  enforce_max_log_count String.leb
    (String.eqb "20260101_000000__cropper__pc.log") sample_logs (Some 1) =
    ["20260102_000000__cropper__pc.log"%string] /\
  logs_kept String.leb
    (String.eqb "20260101_000000__cropper__pc.log") sample_logs (Some 1) =
    ["20260101_000000__cropper__pc.log"%string;
     "20260103_000000__cropper__pc.log"%string].
Proof.
  assert (Hnd : NoDup sample_logs)
    by (repeat constructor; simpl; intuition discriminate).
  destruct (log_retention_survives_failures String.leb
              (String.eqb "20260101_000000__cropper__pc.log")
              sample_logs (Some 1) Hnd) as [Htrashed Hkept].
  split.
  - rewrite Htrashed. vm_compute. reflexivity.
  - rewrite Hkept. vm_compute. reflexivity.
Defined.

(** ** Start-up *)

Section StartupFacts.
Variable toml_load : list Z -> option Config.
Variable path_leb : string -> string -> bool.
Variable trash_fails : string -> bool.

Lemma load_config_ok (entry : FsEntry) (cfg : Config) :
  load_config toml_load entry = inl cfg <->
  exists content, entry = RegularFile content /\ toml_load content = Some cfg.
Proof.
  unfold load_config, read_toml. split.
  - destruct entry as [| | | content]; try discriminate.
    destruct (toml_load content) as [data |] eqn:E; [| discriminate].
    intros [= <-]. eauto.
  - intros (content & -> & ->). reflexivity.
Qed.
End StartupFacts.

(** X19: once the configuration has loaded and logging is set up,
    [bootstrap] runs [main] with the configured padding and tolerance
    (10 and 30 when absent) and returns 0 when [main] returns, 130 on
    KeyboardInterrupt and 1 on any other exception; it prompts before
    exiting when [always_pause] is set, or when [pause_on_error] (on when
    absent) is set and the exit code is not 0. *)
Theorem bootstrap_exit_code (toml_load : list Z -> option Config)
  (path_leb : string -> string -> bool) (trash_fails : string -> bool)
  (content : list Z) (cfg : Config) (found_logs : list string)
  (outcome : MainOutcome) :
  toml_load content = Some cfg ->
  let run := bootstrap toml_load path_leb trash_fails (RegularFile content)
               false found_logs outcome in
  boot_result run =
    ExitCode match outcome with
             | MainReturns => 0
             | MainInterrupted => 130
             | MainRaises => 1
             end /\
  main_ran run = true /\
  main_args run = Some (get_or (padding_key cfg) 10%nat,
                        get_or (tolerance_key cfg) 30) /\
  prompted run =
    (get_or (always_pause_key cfg) false ||
     (get_or (pause_on_error_key cfg) true &&
      match outcome with MainReturns => false | _ => true end))%bool /\
  logs_trashed run =
    enforce_max_log_count path_leb trash_fails found_logs (max_log_files_key cfg).
Proof.
  intros Hload run. subst run.
  unfold bootstrap, load_config, read_toml. rewrite Hload.
  unfold bootstrap_end.
  destruct (get_or (always_pause_key cfg) false),
    (get_or (pause_on_error_key cfg) true), outcome;
    cbn [boot_result main_ran main_args prompted logs_trashed orb andb negb Z.eqb];
    repeat split; reflexivity.
Qed.

Lemma bootstrap_exit_code_witness :
  boot_result (bootstrap empty_only String.leb (fun _ => false)
                 (RegularFile []) false sample_logs MainRaises) = ExitCode 1 /\
  prompted (bootstrap empty_only String.leb (fun _ => false)
              (RegularFile []) false sample_logs MainRaises) = true /\
  prompted (bootstrap empty_only String.leb (fun _ => false)
              (RegularFile []) false sample_logs MainReturns) = false.
Proof.
  pose proof (bootstrap_exit_code empty_only String.leb (fun _ => false) []
                (mkConfig None None None None None) sample_logs MainRaises
                eq_refl) as H1.
  pose proof (bootstrap_exit_code empty_only String.leb (fun _ => false) []
                (mkConfig None None None None None) sample_logs MainReturns
                eq_refl) as H2.
  cbv zeta in H1, H2.
  destruct H1 as (Hcode & _ & _ & Hprompt1 & _).
  destruct H2 as (_ & _ & _ & Hprompt2 & _).
  repeat split; assumption.
Defined.

(** X20: when the configuration file is missing, is a directory, cannot be
    opened or does not parse, or when logging cannot be set up, [bootstrap]
    does not return the exit code 1 it has set: the pause variables are not
    yet bound, so the final test raises UnboundLocalError; [main] has not
    run, no log file has been trashed and no prompt is shown. *)
Theorem bootstrap_early_failure (toml_load : list Z -> option Config)
  (path_leb : string -> string -> bool) (trash_fails : string -> bool)
  (entry : FsEntry) (logging_fails : bool) (found_logs : list string)
  (outcome : MainOutcome) :
  entry = NoEntry \/ entry = Directory \/ entry = UnreadableFile \/
  (exists content, entry = RegularFile content /\ toml_load content = None) \/
  logging_fails = true ->
  bootstrap toml_load path_leb trash_fails entry logging_fails found_logs outcome =
  mkBootRun (Uncaught UnboundLocalError) false false None [].
Proof.
  unfold bootstrap, load_config, read_toml.
  intros [-> | [-> | [-> | [(content & -> & ->) | ->]]]]; try reflexivity.
  destruct entry as [| | | content]; try reflexivity.
  now destruct (toml_load content).
Qed.

Lemma bootstrap_early_failure_witness :
  boot_result (bootstrap empty_only String.leb (fun _ => false)
                 NoEntry false sample_logs MainReturns)
  = Uncaught UnboundLocalError.
Proof.
  rewrite (bootstrap_early_failure empty_only String.leb (fun _ => false)
             NoEntry false sample_logs MainReturns); [reflexivity |].
  now left.
Defined.

(** X21: [bootstrap] returns 0 only when the configuration loaded, logging
    was set up and [main] ran and returned; and every exit code it returns
    is 0, 1 or 130. *)
Theorem bootstrap_zero_means_success (toml_load : list Z -> option Config)
  (path_leb : string -> string -> bool) (trash_fails : string -> bool)
  (entry : FsEntry) (logging_fails : bool) (found_logs : list string)
  (outcome : MainOutcome) (code : Z) :
  boot_result (bootstrap toml_load path_leb trash_fails entry logging_fails
                 found_logs outcome) = ExitCode code ->
  (code = 0 \/ code = 1 \/ code = 130) /\
  (exists cfg, load_config toml_load entry = inl cfg) /\
  logging_fails = false /\
  (code = 0 <-> outcome = MainReturns).
Proof.
  unfold bootstrap.
  destruct (load_config toml_load entry) as [cfg | e]; [| discriminate].
  destruct logging_fails; [discriminate |].
  unfold bootstrap_end.
  destruct (get_or (always_pause_key cfg) false), outcome;
    cbn [boot_result]; intros [= <-];
    (split; [lia |]); (split; [now exists cfg |]); (split; [reflexivity |]);
    split; (discriminate || reflexivity || (intros; lia) || (intros; discriminate)).
Qed.

Lemma bootstrap_zero_means_success_witness :
  exists cfg, load_config empty_only (RegularFile []) = inl cfg.
Proof.
  destruct (bootstrap_zero_means_success empty_only String.leb (fun _ => false)
              (RegularFile []) false sample_logs MainReturns 0 eq_refl)
    as (_ & Hcfg & _).
  exact Hcfg.
Defined.

(** ** Pause and exit *)

Lemma arrive_frame (c : option Clipboard) (st : State) :
  written (arrive c st) = written st /\
  last_image_hash (arrive c st) = last_image_hash st /\
  clipboard_open (arrive c st) = clipboard_open st.
Proof. now destruct c. Qed.

(** A step of the machine is a run of steps of the thread: the action
    itself for the tray menu, and for the thread of [main] its steps up to
    the next test or wait, with nothing arriving on the clipboard in
    between. *)
Lemma act_as_thread (PADDING : nat) (TOLERANCE : Z) (a : Action) (m : Machine) :
  exists steps,
    advance_all PADDING TOLERANCE steps (as_thread m) =
    as_thread (act PADDING TOLERANCE a m) /\
    (is_toggle a = false -> forallb (fun b => negb (is_toggle b)) steps = true).
Proof.
  destruct a as [| | tk].
  - exists [TrayToggle]. split; [reflexivity | discriminate].
  - exists [TrayExit]. split; [reflexivity | reflexivity].
  - destruct m as [c p st]. destruct tk as [inc flt].
    destruct p.
    + destruct (exit_event c) eqn:He.
      * exists [MainStep (mkTick inc flt)]. split; [| reflexivity].
        unfold advance_all, as_thread.
        cbn [fold_left advance act pc control loop_state flags place store
             incoming faults].
        now rewrite He.
      * destruct (running_event c) eqn:Hr.
        -- exists [MainStep (mkTick inc flt); MainStep (mkTick None flt);
                   MainStep (mkTick None flt)].
           split; [| reflexivity].
           unfold advance_all, as_thread.
           cbn [fold_left advance act pc control loop_state flags place store
                incoming faults arrive].
           rewrite He. cbn [flags place store]. rewrite Hr.
           cbn [flags place store pc control loop_state]. reflexivity.
        -- exists [MainStep (mkTick inc flt)]. split; [| reflexivity].
           unfold advance_all, as_thread.
           cbn [fold_left advance act pc control loop_state flags place store
                incoming faults].
           now rewrite He, Hr.
    + destruct (running_event c) eqn:Hr.
      * exists [MainStep (mkTick inc flt); MainStep (mkTick None flt)].
        split; [| reflexivity].
        unfold advance_all, as_thread.
        cbn [fold_left advance act pc control loop_state flags place store
             incoming faults arrive].
        rewrite Hr. cbn [flags place store pc control loop_state].
        reflexivity.
      * exists [MainStep (mkTick inc flt)]. split; [| reflexivity].
        unfold advance_all, as_thread.
        cbn [fold_left advance act pc control loop_state flags place store
             incoming faults].
        now rewrite Hr.
    + exists [MainStep (mkTick inc flt)]. split; [| reflexivity].
      reflexivity.
Qed.

(** While the pause lasts, a thread that is not past the wait stays so and
    leaves the state of the loop alone. *)
Lemma paused_thread_rests (PADDING : nat) (TOLERANCE : Z)
  (actions : list Action) (t : Thread) :
  running_event (flags t) = false ->
  place t <> InBody ->
  forallb (fun a => negb (is_toggle a)) actions = true ->
  let t' := advance_all PADDING TOLERANCE actions t in
  running_event (flags t') = false /\
  place t' <> InBody /\
  written (store t') = written (store t) /\
  last_image_hash (store t') = last_image_hash (store t) /\
  clipboard_open (store t') = clipboard_open (store t).
Proof.
  intros Hpaused Hplace Hno. cbv zeta. unfold advance_all.
  revert t Hpaused Hplace.
  induction actions as [| a actions IH]; intros t Hpaused Hplace.
  - cbn [fold_left]. auto.
  - cbn [forallb] in Hno. apply andb_true_iff in Hno.
    destruct Hno as [Ha Hno]. cbn [fold_left].
    assert (Hstep :
      running_event (flags (advance PADDING TOLERANCE a t)) = false /\
      place (advance PADDING TOLERANCE a t) <> InBody /\
      written (store (advance PADDING TOLERANCE a t)) = written (store t) /\
      last_image_hash (store (advance PADDING TOLERANCE a t)) =
        last_image_hash (store t) /\
      clipboard_open (store (advance PADDING TOLERANCE a t)) =
        clipboard_open (store t)).
    { destruct a as [| | tk]; [discriminate | now auto |].
      cbn [advance]. rewrite Hpaused.
      destruct (place t) eqn:Hat;
        [destruct (exit_event (flags t)) | | congruence |];
        cbn [flags place store];
        (split; [exact Hpaused |]);
        (split; [discriminate |]);
        apply arrive_frame. }
    destruct Hstep as (Hr & Hp & Hw & Hl & Ho).
    destruct (IH Hno (advance PADDING TOLERANCE a t) Hr Hp)
      as (Hr' & Hp' & Hw' & Hl' & Ho').
    rewrite Hw', Hl', Ho'. auto.
Qed.

(** X22: a pause keeps the loop from starting a poll, and it does not stop
    the poll in flight.  As long as the pause, once set, is not toggled,
    whatever the thread of [main] and the exit menu do: a thread at the test
    of the [while], in [running_event.wait()] or past the loop writes
    nothing and keeps the remembered fingerprint; a thread that was past the
    wait when the pause was set runs the one iteration it had begun, while
    the monitor shows as paused, and nothing after that. *)
Theorem pause_stops_new_polls (PADDING : nat) (TOLERANCE : Z)
  (actions : list Action) (t : Thread) :
  running_event (flags t) = false ->
  forallb (fun a => negb (is_toggle a)) actions = true ->
  let t' := advance_all PADDING TOLERANCE actions t in
  let st := in_flight PADDING TOLERANCE actions t in
  running_event (flags t') = false /\
  written (store t') = written st /\
  last_image_hash (store t') = last_image_hash st /\
  clipboard_open (store t') = clipboard_open st.
Proof.
  intros Hpaused Hno. cbv zeta.
  destruct (place t) eqn:Hplace;
    try (unfold in_flight; rewrite Hplace;
         destruct (paused_thread_rests PADDING TOLERANCE actions t Hpaused
                     ltac:(congruence) Hno) as (Hr & _ & Hrest);
         split; [exact Hr | exact Hrest]).
  revert t Hpaused Hplace.
  induction actions as [| a actions IH]; intros t Hpaused Hplace.
  - unfold in_flight. rewrite Hplace. cbn [advance_all fold_left first_main].
    auto.
  - cbn [forallb] in Hno. apply andb_true_iff in Hno.
    destruct Hno as [Ha Hno].
    destruct a as [| | tk]; [discriminate | |].
    + specialize (IH Hno (advance PADDING TOLERANCE TrayExit t) Hpaused Hplace).
      change (in_flight PADDING TOLERANCE actions
                (advance PADDING TOLERANCE TrayExit t))
        with (in_flight PADDING TOLERANCE (TrayExit :: actions) t) in IH.
      exact IH.
    + unfold in_flight. rewrite Hplace. cbn [first_main].
      change (advance_all PADDING TOLERANCE (MainStep tk :: actions) t)
        with (advance_all PADDING TOLERANCE actions
                (advance PADDING TOLERANCE (MainStep tk) t)).
      assert (Hadv :
        advance PADDING TOLERANCE (MainStep tk) t =
        mkThread (flags t) AtTest
          (snd (iteration (faults tk) PADDING TOLERANCE
                  (arrive (incoming tk) (store t)))))
        by (cbn [advance]; now rewrite Hplace).
      rewrite Hadv.
      destruct (paused_thread_rests PADDING TOLERANCE actions
                  (mkThread (flags t) AtTest
                     (snd (iteration (faults tk) PADDING TOLERANCE
                             (arrive (incoming tk) (store t)))))
                  Hpaused ltac:(discriminate) Hno)
        as (Hr & _ & Hrest).
      split; [exact Hr | exact Hrest].
Qed.

(** A pause set while the thread waits keeps an image that arrives from
    being processed; a pause set while the thread is past the wait lets the
    iteration in flight write its one payload, and the image that arrives
    afterwards is left alone. *)
Lemma pause_stops_new_polls_witness :
  written (store
             (advance_all 1 30
                [MainStep (mkTick (Some (CbImage strip)) no_faults);
                 TrayExit; MainStep quiet]
                (mkThread (mkControl false false) AtWait
                          (mkState CbEmpty false [] None)))) = [] /\
  length
    (written (store
                (advance_all 1 30
                   [MainStep quiet; MainStep quiet;
                    MainStep (mkTick (Some (CbImage strip)) no_faults);
                    MainStep quiet]
                   (mkThread (mkControl false false) InBody
                             (mkState (CbImage strip) false [] None))))) = 1%nat.
Proof.
  split.
  - destruct (pause_stops_new_polls 1 30
                [MainStep (mkTick (Some (CbImage strip)) no_faults);
                 TrayExit; MainStep quiet]
                (mkThread (mkControl false false) AtWait
                          (mkState CbEmpty false [] None))
                eq_refl eq_refl) as (_ & Hw & _).
    exact Hw.
  - destruct (pause_stops_new_polls 1 30
                [MainStep quiet; MainStep quiet;
                 MainStep (mkTick (Some (CbImage strip)) no_faults);
                 MainStep quiet]
                (mkThread (mkControl false false) InBody
                          (mkState (CbImage strip) false [] None))
                eq_refl eq_refl) as (_ & Hw & _).
    rewrite Hw. vm_compute. reflexivity.
Defined.

(** X23: an exit asked for while the loop waits in the pause is not
    honoured: until the pause is toggled, the thread of [main] stays in
    [running_event.wait()] and never leaves the loop.  When the pause is
    then lifted, the loop polls the clipboard once more before it ends. *)
Theorem exit_while_paused_waits (PADDING : nat) (TOLERANCE : Z)
  (actions : list Action) (m : Machine) (tk tk' : Tick) :
  pc m = InWait -> running_event (control m) = false ->
  forallb (fun a => negb (is_toggle a)) actions = true ->
  let waiting := run PADDING TOLERANCE (actions ++ [TrayExit]) m in
  let resumed :=
    run PADDING TOLERANCE [TrayToggle; MainStep tk; MainStep tk'] waiting in
  pc waiting = InWait /\
  exit_event (control waiting) = true /\
  pc resumed = Returned /\
  loop_state resumed =
    arrive (incoming tk')
      (snd (iteration (faults tk) PADDING TOLERANCE
              (arrive (incoming tk) (loop_state waiting)))).
Proof.
  intros Hpc Hpaused Hno. cbv zeta.
  assert (Hstay : forall acts m0,
            pc m0 = InWait -> running_event (control m0) = false ->
            forallb (fun a => negb (is_toggle a)) acts = true ->
            pc (run PADDING TOLERANCE acts m0) = InWait /\
            running_event (control (run PADDING TOLERANCE acts m0)) = false).
  { unfold run. induction acts as [| a acts IH]; intros m0 H1 H2 H3.
    - cbn [fold_left]. auto.
    - cbn [forallb] in H3. apply andb_true_iff in H3. destruct H3 as [Ha H3].
      cbn [fold_left]. apply IH; [| | exact H3].
      + destruct a as [| | t]; try discriminate; cbn [act pc];
          [exact H1 | rewrite H1, H2; reflexivity].
      + destruct a as [| | t]; try discriminate;
          cbn [act control on_exit running_event];
          [exact H2 | rewrite H1, H2; exact H2]. }
  assert (Happ : run PADDING TOLERANCE (actions ++ [TrayExit]) m =
                 run PADDING TOLERANCE [TrayExit] (run PADDING TOLERANCE actions m))
    by (unfold run; apply fold_left_app).
  rewrite Happ.
  destruct (Hstay actions m Hpc Hpaused Hno) as [Hpc' Hpaused'].
  destruct (run PADDING TOLERANCE actions m) as [[r e] p st].
  cbn [pc control running_event] in Hpc', Hpaused'. subst p r.
  unfold run.
  cbn [fold_left act pc control on_exit toggle_pause running_event exit_event
       loop_state].
  repeat split.
Qed.

Lemma exit_while_paused_waits_witness :
  pc (run 1 30 ([MainStep quiet] ++ [TrayExit])
        (mkMachine (mkControl false false) InWait
                   (mkState CbEmpty false [] None))) = InWait /\
  pc (run 1 30 [TrayToggle; MainStep quiet; MainStep quiet]
        (run 1 30 ([MainStep quiet] ++ [TrayExit])
           (mkMachine (mkControl false false) InWait
                      (mkState CbEmpty false [] None)))) = Returned.
Proof.
  pose proof (exit_while_paused_waits 1 30 [MainStep quiet]
                (mkMachine (mkControl false false) InWait
                           (mkState CbEmpty false [] None))
                quiet quiet eq_refl eq_refl eq_refl) as H.
  cbv zeta in H. destruct H as (Hwait & _ & Hdone & _).
  split; [exact Hwait | exact Hdone].
Defined.

Lemma returned_is_final (PADDING : nat) (TOLERANCE : Z) (actions : list Action)
  (m : Machine) :
  pc m = Returned ->
  pc (run PADDING TOLERANCE actions m) = Returned /\
  written (loop_state (run PADDING TOLERANCE actions m)) = written (loop_state m) /\
  last_image_hash (loop_state (run PADDING TOLERANCE actions m)) =
    last_image_hash (loop_state m).
Proof.
  unfold run. revert m. induction actions as [| a actions IH]; intros m Hpc.
  - cbn [fold_left]. auto.
  - cbn [fold_left].
    assert (Hstep : pc (act PADDING TOLERANCE a m) = Returned /\
                    written (loop_state (act PADDING TOLERANCE a m)) =
                      written (loop_state m) /\
                    last_image_hash (loop_state (act PADDING TOLERANCE a m)) =
                      last_image_hash (loop_state m)).
    { destruct a as [| | tk]; cbn [act]; rewrite ?Hpc; cbn [pc loop_state];
        repeat split; try assumption; apply arrive_frame. }
    destruct Hstep as (Hp & Hw & Hl).
    destruct (IH (act PADDING TOLERANCE a m) Hp) as (Hp' & Hw' & Hl').
    rewrite Hw', Hl', Hw, Hl. auto.
Qed.

(** X24: an exit asked for while the monitor runs ends the loop at its next
    test, without another poll; from then on, whatever the tray menu does,
    the loop stays ended and touches nothing. *)
Theorem exit_ends_the_loop (PADDING : nat) (TOLERANCE : Z) (m : Machine)
  (tk : Tick) (actions : list Action) :
  pc m = AtWhile -> exit_event (control m) = true ->
  let m' := run PADDING TOLERANCE (MainStep tk :: actions) m in
  pc m' = Returned /\
  written (loop_state m') = written (loop_state m) /\
  last_image_hash (loop_state m') = last_image_hash (loop_state m).
Proof.
  intros Hpc Hexit. cbv zeta.
  change (run PADDING TOLERANCE (MainStep tk :: actions) m)
    with (run PADDING TOLERANCE actions (act PADDING TOLERANCE (MainStep tk) m)).
  assert (Hstep : act PADDING TOLERANCE (MainStep tk) m =
                  mkMachine (control m) Returned
                            (arrive (incoming tk) (loop_state m)))
    by (cbn [act]; now rewrite Hpc, Hexit).
  rewrite Hstep.
  destruct (returned_is_final PADDING TOLERANCE actions
              (mkMachine (control m) Returned
                         (arrive (incoming tk) (loop_state m))) eq_refl)
    as (Hp & Hw & Hl).
  rewrite Hp, Hw, Hl. cbn [loop_state].
  destruct (arrive_frame (incoming tk) (loop_state m)) as (-> & -> & _). auto.
Qed.

Lemma exit_ends_the_loop_witness :
  pc (run 1 30 [MainStep (mkTick (Some (CbImage strip)) no_faults);
                TrayToggle; MainStep quiet]
        (mkMachine (mkControl true true) AtWhile
                   (mkState CbEmpty false [] None))) = Returned.
Proof.
  pose proof (exit_ends_the_loop 1 30
                (mkMachine (mkControl true true) AtWhile
                           (mkState CbEmpty false [] None))
                (mkTick (Some (CbImage strip)) no_faults)
                [TrayToggle; MainStep quiet] eq_refl eq_refl) as H.
  cbv zeta in H. destruct H as (Hp & _). exact Hp.
Defined.

(** X25: left alone by the tray menu, the thread of [main] runs one iteration
    of the loop per step: the run of the machine is the loop of [main_loop]
    over the same ticks. *)
Theorem undisturbed_run_is_main_loop (PADDING : nat) (TOLERANCE : Z)
  (ticks : list Tick) (st : State) :
  run PADDING TOLERANCE (map MainStep ticks)
    (mkMachine initial_control AtWhile st) =
  mkMachine initial_control AtWhile (main_loop PADDING TOLERANCE ticks st).
Proof.
  unfold run. revert st. induction ticks as [| tk ticks IH]; intros st.
  - reflexivity.
  - cbn [map fold_left main_loop]. rewrite <- IH. reflexivity.
Qed.

(** ** The DIB payload *)

Lemma land_lnot_3 (n : Z) : 0 <= n -> Z.land n (Z.lnot 3) = 4 * (n / 4).
Proof.
  intros Hn. rewrite <- Z.ldiff_land.
  change 3 with (Z.ones 2). rewrite Z.ldiff_ones_r by lia.
  rewrite Z.shiftr_div_pow2, Z.shiftl_mul_pow2 by lia.
  change (2 ^ 2) with 4. lia.
Qed.

(** The writer and the reader compute the same stride for 24 bits. *)
Lemma stride_written (w : Z) :
  0 <= w -> Z.land ((w * 24 + 7) / 8 + 3) (Z.lnot 3) = 4 * ((3 * w + 3) / 4).
Proof.
  intros Hw. replace ((w * 24 + 7) / 8) with (3 * w).
  - apply land_lnot_3. lia.
  - apply Z.div_unique with (r := 7); lia.
Qed.

Lemma stride_read (w : Z) :
  0 <= w ->
  Z.land (Z.shiftr (w * 24 + 31) 3) (Z.lnot 3) = 4 * ((3 * w + 3) / 4).
Proof.
  intros Hw. rewrite Z.shiftr_div_pow2 by lia. change (2 ^ 3) with 8.
  replace ((w * 24 + 31) / 8) with (3 * w + 3).
  - apply land_lnot_3. lia.
  - apply Z.div_unique with (r := 7); lia.
Qed.

Lemma le_word_le_bytes (k : nat) (v : Z) :
  MD5.le_word (MD5.le_bytes k v) = v mod 256 ^ Z.of_nat k.
Proof.
  revert v. induction k as [| k IH]; intros v.
  - cbn [MD5.le_bytes MD5.le_word]. change (256 ^ Z.of_nat 0) with 1.
    now rewrite Z.mod_1_r.
  - cbn [MD5.le_bytes MD5.le_word]. rewrite IH.
    rewrite Nat2Z.inj_succ, Z.pow_succ_r by lia.
    rewrite Z.rem_mul_r by lia. reflexivity.
Qed.

(** Cutting a concatenation of pieces of equal length gives the pieces. *)
Lemma chunks_flat_map {A B : Type} (f : A -> list B) (n : nat) (l : list A)
  (rest : list B) :
  Forall (fun a => length (f a) = n) l ->
  MD5.chunks n (length l) (flat_map f l ++ rest) = map f l.
Proof.
  induction 1 as [| a l Ha Hl IH]; [reflexivity |].
  cbn [length flat_map MD5.chunks map]. rewrite <- app_assoc.
  rewrite firstn_app, Ha, Nat.sub_diag, firstn_O, app_nil_r.
  rewrite firstn_all2 by lia.
  rewrite skipn_app, Ha, Nat.sub_diag. cbn [skipn].
  rewrite skipn_all2 by lia. cbn [app]. now rewrite IH.
Qed.

Lemma flat_map_length_const {A B : Type} (f : A -> list B) (n : nat)
  (l : list A) :
  Forall (fun a => length (f a) = n) l ->
  length (flat_map f l) = (n * length l)%nat.
Proof.
  induction 1 as [| a l Ha Hl IH]; cbn [flat_map length]; [lia |].
  rewrite length_app, Ha, IH. lia.
Qed.

Lemma pack_length (p : Pixel) : length (pack RGB p) = 3%nat.
Proof. now destruct p as [[[r g] b] a]. Qed.

Lemma unpack_pack (p : Pixel) : snd p = 255 -> unpack_BGR (pack RGB p) = p.
Proof. destruct p as [[[r g] b] a]. cbn. now intros ->. Qed.

Lemma packed_length (row : list Pixel) :
  length (flat_map (pack RGB) row) = (3 * length row)%nat.
Proof.
  apply flat_map_length_const. apply Forall_forall. intros p _.
  apply pack_length.
Qed.

Lemma raw_line_length (stride : nat) (row : list Pixel) :
  (3 * length row <= stride)%nat -> length (raw_line RGB stride row) = stride.
Proof.
  intros Hle. unfold raw_line.
  rewrite length_app, repeat_length, packed_length. lia.
Qed.

(** A raw line decodes to the row it was made from. *)
Lemma raw_line_decoded (stride : nat) (row : list Pixel) :
  Forall (fun p : Pixel => snd p = 255) row ->
  map unpack_BGR (MD5.chunks 3 (length row) (raw_line RGB stride row)) = row.
Proof.
  intros Hop. unfold raw_line. rewrite chunks_flat_map.
  - rewrite map_map. rewrite <- (map_id row) at 2.
    apply map_ext_in. intros p Hp. apply unpack_pack.
    rewrite Forall_forall in Hop. now apply Hop.
  - apply Forall_forall. intros p _. apply pack_length.
Qed.

Lemma convert_RGB_ok (im : Image) : image_ok im -> image_ok (convert_RGB im).
Proof.
  intros Hok. unfold convert_RGB. destruct (mode im) eqn:Hm; [exact Hok |].
  split; [| split]; cbn [width height rows mode].
  - apply build_shaped.
  - apply build_Forall. intros x y Hx Hy.
    apply set_alpha_ok. now apply pixel_in_ok.
  - intros _. unfold opaque. cbn [rows].
    apply build_Forall. intros x y _ _.
    now destruct (pixel im x y) as [[[r g] b] a].
Qed.

(** The pixel lines of the payload, for rows of [w] opaque pixels. *)
Lemma lines_decoded (w stride : nat) (rs : list (list Pixel)) (rest : list Z) :
  (3 * w <= stride)%nat ->
  Forall (fun r => length r = w) rs ->
  Forall (Forall (fun p : Pixel => snd p = 255)) rs ->
  map (fun line => map unpack_BGR (MD5.chunks 3 w line))
      (MD5.chunks stride (length rs)
         (flat_map (raw_line RGB stride) rs ++ rest)) = rs.
Proof.
  intros Hle Hw Hop. rewrite chunks_flat_map.
  - rewrite map_map. rewrite <- (map_id rs) at 2.
    apply map_ext_in. intros row Hrow.
    rewrite Forall_forall in Hw, Hop.
    rewrite <- (Hw row Hrow). apply raw_line_decoded. now apply Hop.
  - rewrite Forall_forall in *. intros row Hrow.
    apply raw_line_length. rewrite (Hw row Hrow). exact Hle.
Qed.

Lemma pixel_bytes_length (w stride : nat) (rs : list (list Pixel)) :
  (3 * w <= stride)%nat ->
  Forall (fun r => length r = w) rs ->
  length (flat_map (raw_line RGB stride) rs) = (stride * length rs)%nat.
Proof.
  intros Hle Hw. apply flat_map_length_const.
  rewrite Forall_forall in *. intros row Hrow.
  apply raw_line_length. rewrite (Hw row Hrow). exact Hle.
Qed.

(** What [BMP_save] returns for an "RGB" image, and when. *)
Lemma BMP_save_RGB (w h : nat) (rs : list (list Pixel)) (file : list Z) :
  BMP_save (mkImage RGB w h rs) = Returns file ->
  let stride := 4 * ((3 * Z.of_nat w + 3) / 4) in
  (0 < w)%nat /\ (0 < h)%nat /\
  54 + stride * Z.of_nat h <= 2 ^ 32 - 1 /\
  file =
  bitmap_header (54 + stride * Z.of_nat h) 54 ++
  bitmap_info_header 40 (Z.of_nat w) (Z.of_nat h) 24 (stride * Z.of_nat h)
    3780 0 ++
  flat_map (raw_line RGB (Z.to_nat stride)) (rev rs).
Proof.
  unfold BMP_save. cbn [mode width height rows].
  rewrite stride_written by lia.
  change ((96 * 393701 + 5000) / 10000) with 3780.
  change (14 + 40 + 0 * 4) with 54.
  intros Hsave. set (stride := 4 * ((3 * Z.of_nat w + 3) / 4)) in *.
  destruct (54 + stride * Z.of_nat h >? 2 ^ 32 - 1) eqn:Hbig;
    [discriminate |].
  destruct ((Z.of_nat w =? 0) || (Z.of_nat h =? 0))%bool eqn:Hz;
    [discriminate |].
  apply Bool.orb_false_iff in Hz. destruct Hz as [Hw Hh].
  injection Hsave as <-.
  repeat split; try reflexivity; lia.
Qed.

Lemma stride_bounds (w : Z) :
  0 <= w ->
  3 * w <= 4 * ((3 * w + 3) / 4) <= 3 * w + 3.
Proof.
  intros Hw.
  pose proof (Z.div_mod (3 * w + 3) 4 ltac:(lia)) as Hd.
  pose proof (Z.mod_pos_bound (3 * w + 3) 4 ltac:(lia)) as Hm.
  lia.
Qed.

(** The reader applied to the payload cut from the file of an "RGB" image. *)
Lemma DibImageFile_BMP_save (w h : nat) (rs : list (list Pixel))
  (file : list Z) :
  Raster.shaped w h rs ->
  Forall (Forall (fun p : Pixel => snd p = 255)) rs ->
  BMP_save (mkImage RGB w h rs) = Returns file ->
  DibImageFile (skipn 14 file) = Some (mkImage RGB w h rs).
Proof.
  intros [Hlen Hrows] Hop Hsave.
  apply BMP_save_RGB in Hsave. cbv zeta in Hsave.
  destruct Hsave as (Hw & Hh & Hsize & ->).
  pose proof (stride_bounds (Z.of_nat w) ltac:(lia)) as Hst.
  set (S := 4 * ((3 * Z.of_nat w + 3) / 4)) in *.
  set (W := Z.of_nat w) in *. set (H := Z.of_nat h) in *.
  set (P := flat_map (raw_line RGB (Z.to_nat S)) (rev rs)).
  change (skipn 14 (bitmap_header (54 + S * H) 54 ++
                    bitmap_info_header 40 W H 24 (S * H) 3780 0 ++ P))
    with (bitmap_info_header 40 W H 24 (S * H) 3780 0 ++ P).
  set (D := bitmap_info_header 40 W H 24 (S * H) 3780 0 ++ P).
  assert (HH : H < 2 ^ 30) by nia.
  assert (F0 : i32 D 0 = 40) by reflexivity.
  assert (F4 : i32 D 4 = W).
  { change (i32 D 4) with (MD5.le_word (MD5.le_bytes 4 W)).
    rewrite le_word_le_bytes. apply Z.mod_small.
    change (256 ^ Z.of_nat 4) with (2 ^ 32).
    assert (S <= S * H) by nia. lia. }
  assert (F8 : i32 D 8 = H).
  { change (i32 D 8) with (MD5.le_word (MD5.le_bytes 4 H)).
    rewrite le_word_le_bytes. apply Z.mod_small.
    change (256 ^ Z.of_nat 4) with (2 ^ 32). lia. }
  assert (F11 : nth 11 D 0 = H / 256 / 256 / 256 mod 256) by reflexivity.
  assert (F14 : i16 D 14 = 24) by reflexivity.
  assert (F16 : i32 D 16 = 0) by reflexivity.
  assert (Fraw : skipn 40 D = P) by reflexivity.
  assert (Hflip : (H / 256 / 256 / 256 mod 256 =? 255) = false).
  { apply Z.eqb_neq.
    assert (0 <= H / 256 < 2 ^ 22)
      by (split; [apply Z.div_pos | apply Z.div_lt_upper_bound]; lia).
    assert (0 <= H / 256 / 256 < 2 ^ 14)
      by (split; [apply Z.div_pos | apply Z.div_lt_upper_bound]; lia).
    assert (0 <= H / 256 / 256 / 256 < 64)
      by (split; [apply Z.div_pos | apply Z.div_lt_upper_bound]; lia).
    rewrite Z.mod_small; lia. }
  assert (Hrev : length (rev rs) = h) by now rewrite length_rev.
  assert (Hrows' : Forall (fun r => length r = w) (rev rs))
    by now apply Forall_rev.
  assert (Hop' : Forall (Forall (fun p : Pixel => snd p = 255)) (rev rs))
    by now apply Forall_rev.
  assert (HS : (3 * w <= Z.to_nat S)%nat) by lia.
  assert (HP : length P = (Z.to_nat S * h)%nat).
  { unfold P. rewrite (pixel_bytes_length w) by assumption. now rewrite Hrev. }
  unfold DibImageFile.
  rewrite F0, F11, F4, F8, F14, F16, Fraw, Hflip.
  change (40 =? 40) with true. change (24 =? 24) with true.
  change (0 =? 0) with true. cbv iota. cbn [andb].
  rewrite stride_read by lia. fold S.
  replace (Z.of_nat (length P) <? S * H) with false
    by (symmetry; apply Z.ltb_ge; rewrite HP; nia).
  unfold W, H. rewrite !Nat2Z.id. f_equal. f_equal.
  rewrite <- (app_nil_r P), <- Hrev. unfold P.
  rewrite (lines_decoded w) by assumption.
  apply rev_involutive.
Qed.

(** Where the piece of the [k]-th element starts in a concatenation of pieces
    of equal length. *)
Lemma skipn_flat_map {A B : Type} (f : A -> list B) (n : nat) (d : A)
  (l : list A) (rest : list B) (k : nat) :
  Forall (fun a => length (f a) = n) l ->
  (k < length l)%nat ->
  skipn (k * n) (flat_map f l ++ rest) =
  f (nth k l d) ++ flat_map f (skipn (S k) l) ++ rest.
Proof.
  intros Hall. revert k.
  induction Hall as [| a l Ha Hl IH]; intros k Hk; cbn [length] in Hk;
    [lia |].
  destruct k as [| k].
  - cbn [Nat.mul skipn nth flat_map]. now rewrite <- app_assoc.
  - cbn [flat_map nth]. rewrite <- app_assoc.
    replace (S k * n)%nat with (length (f a) + k * n)%nat by lia.
    rewrite skipn_app, skipn_all2 by lia.
    replace (length (f a) + k * n - length (f a))%nat with (k * n)%nat by lia.
    cbn [app]. rewrite IH by lia. reflexivity.
Qed.

(** The three bytes of a pixel inside its raw line. *)
Lemma raw_line_pixel (stride : nat) (row : list Pixel) (rest : list Z)
  (x : nat) :
  (x < length row)%nat ->
  firstn 3 (skipn (3 * x) (raw_line RGB stride row ++ rest)) =
  pack RGB (nth x row zero_pixel).
Proof.
  intros Hx. unfold raw_line. rewrite <- app_assoc.
  replace (3 * x)%nat with (x * 3)%nat by lia.
  rewrite (skipn_flat_map (pack RGB) 3 zero_pixel) by
    (try assumption; apply Forall_forall; intros p _; apply pack_length).
  rewrite firstn_app, pack_length, Nat.sub_diag, firstn_O, app_nil_r.
  apply firstn_all2. rewrite pack_length. lia.
Qed.

(** The three bytes of the pixel at column [x] of the [k]-th line written. *)
Lemma pixel_bytes_at (w stride : nat) (rs : list (list Pixel)) (k x : nat) :
  (3 * w <= stride)%nat ->
  Forall (fun r => length r = w) rs ->
  (k < length rs)%nat -> (x < w)%nat ->
  firstn 3 (skipn (k * stride + 3 * x) (flat_map (raw_line RGB stride) rs)) =
  pack RGB (nth x (nth k rs []) zero_pixel).
Proof.
  intros Hle Hw Hk Hx.
  replace (k * stride + 3 * x)%nat with (3 * x + k * stride)%nat by lia.
  rewrite <- skipn_skipn.
  rewrite <- (app_nil_r (flat_map _ rs)).
  rewrite (skipn_flat_map (raw_line RGB stride) stride []); [| | exact Hk].
  - apply raw_line_pixel.
    rewrite Forall_forall in Hw. rewrite (Hw (nth k rs [])); [exact Hx |].
    now apply nth_In.
  - rewrite Forall_forall in *. intros row Hrow.
    apply raw_line_length. now rewrite (Hw row Hrow).
Qed.

(** X26: the payload put on the clipboard loses nothing but the alpha band:
    whenever the first two statements of [send_image_to_clipboard] produce a
    payload for a well-formed image, the reader behind
    [ImageGrab.grabclipboard()] decodes that payload to exactly
    [img.convert("RGB")], the same size and the same colour at every
    position. *)
Theorem dib_round_trip (img : Image) (data : list Z) :
  image_ok img ->
  dib_data img = Returns data ->
  DibImageFile data = Some (convert_RGB img).
Proof.
  intros Hok Hdata.
  pose proof (convert_RGB_ok img Hok) as (Hshape & _ & Hop).
  pose proof (convert_RGB_mode img) as Hmode.
  unfold dib_data in Hdata.
  destruct (convert_RGB img) as [m w h rs].
  cbn [mode width height rows] in *. subst m.
  destruct (BMP_save (mkImage RGB w h rs)) as [file | e] eqn:Hsave;
    [| discriminate].
  injection Hdata as <-.
  apply DibImageFile_BMP_save; [exact Hshape | | exact Hsave].
  apply Hop. reflexivity.
Qed.

Lemma dib_round_trip_witness :
  image_ok ghost_strip /\
  dib_data ghost_strip = Returns ghost_strip_dib /\
  DibImageFile ghost_strip_dib = Some (convert_RGB ghost_strip).
Proof.
  assert (Hok : image_ok ghost_strip)
    by (apply image_okb_sound; vm_compute; reflexivity).
  assert (Hdata : dib_data ghost_strip = Returns ghost_strip_dib)
    by (vm_compute; reflexivity).
  split; [exact Hok | split; [exact Hdata |]].
  exact (dib_round_trip ghost_strip ghost_strip_dib Hok Hdata).
Defined.

(** X27: the layout of the payload.  The encoding raises when the image has
    no pixel or the BMP file would exceed [2**32 - 1] bytes.  Otherwise the
    payload is a 40-byte BITMAPINFOHEADER, declaring the size of the image,
    24 bits per pixel and the number of pixel bytes, followed by the lines:
    each line takes [stride] bytes, the width times three rounded up to a
    multiple of four; the lines run from the bottom row to the top row; and
    the pixel at column [x] of row [y] is the three bytes blue, green, red
    at offset [40 + (height - 1 - y) * stride + 3 * x]. *)
Theorem dib_data_layout (img : Image) :
  image_ok img ->
  let w := width img in
  let h := height img in
  let stride := Z.to_nat (4 * ((3 * Z.of_nat w + 3) / 4)) in
  if ((w =? 0)%nat || (h =? 0)%nat ||
      (2 ^ 32 - 1 <? 54 + Z.of_nat (stride * h)))%bool
  then dib_data img = Raises EncodeError
  else
    exists data,
      dib_data img = Returns data /\
      length data = (40 + stride * h)%nat /\
      i32 data 0 = 40 /\
      i32 data 4 = Z.of_nat w /\
      i32 data 8 = Z.of_nat h /\
      i16 data 14 = 24 /\
      i32 data 20 = Z.of_nat (stride * h) /\
      forall x y, (x < w)%nat -> (y < h)%nat ->
        firstn 3 (skipn (40 + (h - 1 - y) * stride + 3 * x) data) =
        pack RGB (pixel img x y).
Proof.
  intros Hok. cbv zeta.
  unfold dib_data. rewrite (convert_RGB_closed img Hok).
  set (w := width img). set (h := height img).
  set (rs := Raster.build w h (fun x y => set_alpha 255 (pixel img x y))).
  pose proof (stride_bounds (Z.of_nat w) ltac:(lia)) as Hst.
  unfold BMP_save. cbn [mode width height rows].
  rewrite stride_written by lia.
  change (14 + 40 + 0 * 4) with 54.
  change ((96 * 393701 + 5000) / 10000) with 3780.
  set (S := 4 * ((3 * Z.of_nat w + 3) / 4)) in *.
  assert (HSh : Z.of_nat (Z.to_nat S * h) = S * Z.of_nat h)
    by (rewrite Nat2Z.inj_mul, Z2Nat.id by lia; reflexivity).
  rewrite HSh.
  destruct (w =? 0)%nat eqn:Hw0; cbn [orb].
  { apply Nat.eqb_eq in Hw0.
    destruct (54 + S * Z.of_nat h >? 2 ^ 32 - 1); [reflexivity |].
    replace (Z.of_nat w =? 0) with true by (symmetry; apply Z.eqb_eq; lia).
    reflexivity. }
  apply Nat.eqb_neq in Hw0.
  destruct (h =? 0)%nat eqn:Hh0; cbn [orb].
  { apply Nat.eqb_eq in Hh0.
    destruct (54 + S * Z.of_nat h >? 2 ^ 32 - 1); [reflexivity |].
    replace (Z.of_nat h =? 0) with true by (symmetry; apply Z.eqb_eq; lia).
    now rewrite Bool.orb_true_r. }
  apply Nat.eqb_neq in Hh0.
  destruct (2 ^ 32 - 1 <? 54 + S * Z.of_nat h) eqn:Hbig.
  { apply Z.ltb_lt in Hbig.
    replace (54 + S * Z.of_nat h >? 2 ^ 32 - 1) with true
      by (symmetry; apply Z.gtb_lt; lia).
    reflexivity. }
  apply Z.ltb_ge in Hbig.
  replace (54 + S * Z.of_nat h >? 2 ^ 32 - 1) with false
    by (symmetry; rewrite Z.gtb_ltb; apply Z.ltb_ge; lia).
  replace (Z.of_nat w =? 0) with false by (symmetry; apply Z.eqb_neq; lia).
  replace (Z.of_nat h =? 0) with false by (symmetry; apply Z.eqb_neq; lia).
  cbn [orb].
  set (W := Z.of_nat w) in *. set (H := Z.of_nat h) in *.
  set (P := flat_map (raw_line RGB (Z.to_nat S)) (rev rs)).
  set (D := bitmap_info_header 40 W H 24 (S * H) 3780 0 ++ P).
  assert (Hrs : Forall (fun r => length r = w) rs)
    by apply (build_shaped w h).
  assert (Hlen : length rs = h) by apply (build_shaped w h).
  assert (Hrev : length (rev rs) = h) by now rewrite length_rev.
  assert (Hrows' : Forall (fun r => length r = w) (rev rs))
    by now apply Forall_rev.
  assert (HS : (3 * w <= Z.to_nat S)%nat) by lia.
  assert (HSH : S <= S * H) by nia.
  exists D. split; [reflexivity |].
  split.
  { unfold D. rewrite length_app. unfold P.
    rewrite (pixel_bytes_length w) by assumption. now rewrite Hrev. }
  split; [reflexivity |].
  split.
  { change (i32 D 4) with (MD5.le_word (MD5.le_bytes 4 W)).
    rewrite le_word_le_bytes. apply Z.mod_small.
    change (256 ^ Z.of_nat 4) with (2 ^ 32). lia. }
  split.
  { change (i32 D 8) with (MD5.le_word (MD5.le_bytes 4 H)).
    rewrite le_word_le_bytes. apply Z.mod_small.
    change (256 ^ Z.of_nat 4) with (2 ^ 32). nia. }
  split; [reflexivity |].
  split.
  { change (i32 D 20) with (MD5.le_word (MD5.le_bytes 4 (S * H))).
    rewrite le_word_le_bytes. apply Z.mod_small.
    change (256 ^ Z.of_nat 4) with (2 ^ 32). lia. }
  intros x y Hx Hy.
  replace (40 + (h - 1 - y) * Z.to_nat S + 3 * x)%nat
    with (((h - 1 - y) * Z.to_nat S + 3 * x) + 40)%nat by lia.
  rewrite <- skipn_skipn.
  change (skipn 40 D) with P. unfold P.
  rewrite (pixel_bytes_at w) by (try assumption; lia).
  rewrite rev_nth by lia.
  replace (length rs - Datatypes.S (h - 1 - y))%nat with y by lia.
  change (nth x (nth y rs []) zero_pixel)
    with (Raster.cell zero_pixel rs x y).
  unfold rs. rewrite cell_build_in by assumption.
  now destruct (pixel img x y) as [[[r g] b] a].
Qed.

Lemma dib_data_layout_witness :
  image_ok pair_column /\
  exists data,
    dib_data pair_column = Returns data /\
    length data = 48%nat /\
    i32 data 0 = 40 /\
    i32 data 4 = 1 /\
    i32 data 8 = 2 /\
    i16 data 14 = 24 /\
    i32 data 20 = 8 /\
    forall x y, (x < 1)%nat -> (y < 2)%nat ->
      firstn 3 (skipn (40 + (2 - 1 - y) * 4 + 3 * x) data) =
      pack RGB (pixel pair_column x y).
Proof.
  assert (Hok : image_ok pair_column)
    by (apply image_okb_sound; vm_compute; reflexivity).
  split; [exact Hok |].
  exact (dib_data_layout pair_column Hok).
Defined.
